(** * UniMRCP speech-recognition plugins: recognizer and session state machine

    A shallow embedding of the two source files of the repository:

    - [plugins/kaldi-recog/src/kaldi_recognizer.cc]: the [KaldiRecognizer]
      class (decoder life cycle, partial and final result extraction);
    - [plugins/vosk-recog/src/vosk_recog_engine.c]: the MRCP recognizer
      channel (request dispatch, per-frame stream callback, grammar
      early-termination matcher).

    The Kaldi, Vosk, MPF, APR and POSIX regex libraries are collaborators whose
    code is not part of the repository.  They are taken as interfaces
    (type classes); the code of the repository is written once over these
    interfaces, and small executable instances are given to run it. *)

From Stdlib Require Import ZArith List String Ascii Bool Lia DecimalString.
Import ListNotations.

Local Open Scope Z_scope.
Local Set Warnings "-register-all".

(** ** Text helpers shared by both plugins *)

(** The double-quote character, written by its code. *)
Definition dq : string := String (ascii_of_nat 34) EmptyString.

(** The line-feed character. *)
Definition nl : string := String (ascii_of_nat 10) EmptyString.

Definition cat (ss : list string) : string :=
  fold_right String.append EmptyString ss.

(** ** The Kaldi recognizer ([kaldi_recognizer.cc]) *)

Module Kaldi.

(** The part of the Kaldi library that [KaldiRecognizer] calls.  A C++
    method that mutates its object returns the new object; a [const] method
    is a function of the object.  The decoder keeps a pointer to the feature
    pipeline it was built on, so the decoder methods that pull features
    take the pipeline and give it back. *)
Class KaldiLib : Type := {
  Model : Type;
  OnlineNnet2FeaturePipelineInfo : Type;
  OnlineNnet2FeaturePipeline : Type;
  OnlineSilenceWeighting : Type;
  SingleUtteranceNnet3Decoder : Type;
  OnlineIvectorExtractorAdaptationState : Type;
  DeltaWeights : Type;
  Lattice : Type;
  CompactLattice : Type;
  BaseFloat : Type;
  Vector : Type;

  (* Vector<BaseFloat>: the empty vector of the default constructor,
     [Resize (dim, kUndefined)] and the assignment [v(i) = s] of a 16-bit
     sample.  [Resize] is handed the dimension as the caller computed it,
     whatever its sign. *)
  Vector_new : Vector;
  Vector_Resize : Vector -> Z -> Vector;
  Vector_set : Vector -> Z -> Z -> Vector;

  (* constructors *)
  new_feature_info : Model -> OnlineNnet2FeaturePipelineInfo;
  new_feature_pipeline :
    OnlineNnet2FeaturePipelineInfo -> OnlineNnet2FeaturePipeline;
  new_silence_weighting :
    Model -> OnlineNnet2FeaturePipelineInfo -> Z -> OnlineSilenceWeighting;
  new_decoder :
    Model -> OnlineNnet2FeaturePipeline -> SingleUtteranceNnet3Decoder;
  new_adaptation_state :
    OnlineNnet2FeaturePipelineInfo -> OnlineIvectorExtractorAdaptationState;

  (* OnlineNnet2FeaturePipeline *)
  GetAdaptationState :
    OnlineNnet2FeaturePipeline -> OnlineIvectorExtractorAdaptationState ->
    OnlineIvectorExtractorAdaptationState;
  SetAdaptationState :
    OnlineNnet2FeaturePipeline -> OnlineIvectorExtractorAdaptationState ->
    OnlineNnet2FeaturePipeline;
  pipeline_AcceptWaveform :
    OnlineNnet2FeaturePipeline -> Z -> Vector -> OnlineNnet2FeaturePipeline;
  InputFinished : OnlineNnet2FeaturePipeline -> OnlineNnet2FeaturePipeline;
  NumFramesReady : OnlineNnet2FeaturePipeline -> Z;
  (* [IvectorFeature() != NULL] *)
  has_IvectorFeature : OnlineNnet2FeaturePipeline -> bool;
  UpdateFrameWeights :
    OnlineNnet2FeaturePipeline -> DeltaWeights -> OnlineNnet2FeaturePipeline;

  (* OnlineSilenceWeighting *)
  Active : OnlineSilenceWeighting -> bool;
  ComputeCurrentTraceback :
    OnlineSilenceWeighting -> SingleUtteranceNnet3Decoder ->
    OnlineSilenceWeighting;
  GetDeltaWeights :
    OnlineSilenceWeighting -> Z -> OnlineSilenceWeighting * DeltaWeights;

  (* SingleUtteranceNnet3Decoder *)
  AdvanceDecoding :
    OnlineNnet2FeaturePipeline -> SingleUtteranceNnet3Decoder ->
    OnlineNnet2FeaturePipeline * SingleUtteranceNnet3Decoder;
  FinalizeDecoding : SingleUtteranceNnet3Decoder -> SingleUtteranceNnet3Decoder;
  EndpointDetected : Model -> SingleUtteranceNnet3Decoder -> bool;
  NumFramesDecoded : SingleUtteranceNnet3Decoder -> Z;
  GetLattice : SingleUtteranceNnet3Decoder -> bool -> CompactLattice;
  GetBestPath : SingleUtteranceNnet3Decoder -> bool -> Lattice;

  (* lattice functions *)
  GetLinearSymbolSequence : Lattice -> list Z;
  WordAlignLattice : Model -> CompactLattice -> CompactLattice;
  GetOneBest : CompactLattice -> list Z;
  GetOneBestConfidences : CompactLattice -> list BaseFloat;
  GetOneBestTimes : CompactLattice -> list (BaseFloat * BaseFloat);

  (* symbol table and stream output of a float *)
  word_syms_Find : Model -> Z -> string;
  show_float : BaseFloat -> string;
  (* the value read when a vector of the consensus is indexed past its end;
     the consensus returns vectors as long as the word list *)
  float_default : BaseFloat
}.

Section Recognizer.

Context {K : KaldiLib}.

(** The data members of [class KaldiRecognizer]. *)
Record KaldiRecognizer : Type := mkRecognizer {
  model_ : Model;
  feature_info_ : OnlineNnet2FeaturePipelineInfo;
  feature_pipeline_ : OnlineNnet2FeaturePipeline;
  silence_weighting_ : OnlineSilenceWeighting;
  decoder_ : SingleUtteranceNnet3Decoder;
  input_finalized_ : bool
}.

Definition set_input_finalized (b : bool) (r : KaldiRecognizer) : KaldiRecognizer :=
  mkRecognizer (model_ r) (feature_info_ r) (feature_pipeline_ r)
               (silence_weighting_ r) (decoder_ r) b.

(** [KaldiRecognizer::KaldiRecognizer(Model &model)] *)
Definition KaldiRecognizer_new (model : Model) : KaldiRecognizer :=
  let info := new_feature_info model in
  let pipeline := new_feature_pipeline info in
  let sw := new_silence_weighting model info 3 in
  let dec := new_decoder model pipeline in
  mkRecognizer model info pipeline sw dec false.

(** [KaldiRecognizer::CleanUp()] *)
Definition CleanUp (r : KaldiRecognizer) : KaldiRecognizer :=
  (* delete decoder_; *)
  let state := new_adaptation_state (feature_info_ r) in
  let state := GetAdaptationState (feature_pipeline_ r) state in
  (* delete feature_pipeline_; *)
  let pipeline := new_feature_pipeline (feature_info_ r) in
  let pipeline := SetAdaptationState pipeline state in
  (* delete silence_weighting_; *)
  let sw := new_silence_weighting (model_ r) (feature_info_ r) 3 in
  let dec := new_decoder (model_ r) pipeline in
  mkRecognizer (model_ r) (feature_info_ r) pipeline sw dec (input_finalized_ r).

(** The silence-weighting block that [AcceptWaveform] and [Result] both
    contain: when the weighting is active, frames are ready and the pipeline
    has an i-vector feature, the frame weights are updated from the current
    traceback. *)
Definition update_silence_weights (r : KaldiRecognizer) : KaldiRecognizer :=
  if Active (silence_weighting_ r)
     && (0 <? NumFramesReady (feature_pipeline_ r))
     && has_IvectorFeature (feature_pipeline_ r)
  then
    let sw := ComputeCurrentTraceback (silence_weighting_ r) (decoder_ r) in
    let '(sw, delta_weights) := GetDeltaWeights sw (NumFramesReady (feature_pipeline_ r)) in
    let pipeline := UpdateFrameWeights (feature_pipeline_ r) delta_weights in
    mkRecognizer (model_ r) (feature_info_ r) pipeline sw (decoder_ r)
                 (input_finalized_ r)
  else r.

(** [decoder_->AdvanceDecoding()] on the recognizer's own pipeline. *)
Definition advance (r : KaldiRecognizer) : KaldiRecognizer :=
  let '(pipeline, dec) := AdvanceDecoding (feature_pipeline_ r) (decoder_ r) in
  mkRecognizer (model_ r) (feature_info_ r) pipeline (silence_weighting_ r) dec
               (input_finalized_ r).

(** [*(((short * )data) + i)]: the 16-bit sample number [i] of the buffer, in
    the byte order of the host (little endian).  A byte read past the end of
    the buffer is taken as zero. *)
Definition short_at (data : list Z) (i : nat) : Z :=
  let lo := nth (2 * i) data 0 in
  let hi := nth (2 * i + 1) data 0 in
  let u := (lo mod 256) + 256 * (hi mod 256) in
  if 32768 <=? u then u - 65536 else u.

(** The vector [wave] of [AcceptWaveform]: the empty vector is resized to
    [len / 2] (the quotient of C, rounded toward zero, and passed on as it is
    also when [len] is negative), then the loop assigns the samples
    [0 .. len / 2 - 1] in order; it runs no iteration when [len / 2 <= 0]. *)
Definition wave_of (data : list Z) (len : Z) : Vector :=
  let wave := Vector_Resize Vector_new (Z.quot len 2) in
  fold_left (fun wave i => Vector_set wave (Z.of_nat i) (short_at data i))
            (seq 0 (Z.to_nat (Z.quot len 2))) wave.

(** [bool KaldiRecognizer::AcceptWaveform(const char *data, int len)] *)
Definition AcceptWaveform (r : KaldiRecognizer) (data : list Z) (len : Z)
  : KaldiRecognizer * bool :=
  let r := if input_finalized_ r
           then set_input_finalized false (CleanUp r)
           else r in
  let wave := wave_of data len in
  let r := mkRecognizer (model_ r) (feature_info_ r)
             (pipeline_AcceptWaveform (feature_pipeline_ r) 8000 wave)
             (silence_weighting_ r) (decoder_ r) (input_finalized_ r) in
  let r := update_silence_weights r in
  let r := advance r in
  if EndpointDetected (model_ r) (decoder_ r) then (r, true) else (r, false).

(** The state change at the head of [Result]: done only when the input is
    not finalized yet. *)
Definition finalize (r : KaldiRecognizer) : KaldiRecognizer :=
  if negb (input_finalized_ r) then
    let r := mkRecognizer (model_ r) (feature_info_ r)
               (InputFinished (feature_pipeline_ r))
               (silence_weighting_ r) (decoder_ r) (input_finalized_ r) in
    let r := update_silence_weights r in
    let r := advance r in
    let r := mkRecognizer (model_ r) (feature_info_ r) (feature_pipeline_ r)
               (silence_weighting_ r) (FinalizeDecoding (decoder_ r))
               (input_finalized_ r) in
    set_input_finalized true r
  else r.

(** One element of the ["result"] array, followed by its separator. *)
Definition result_entry (model : Model) (words : list Z)
    (times : list (BaseFloat * BaseFloat)) (conf : list BaseFloat)
    (size : nat) (i : nat) : string :=
  let t := nth i times (float_default, float_default) in
  cat [ "{"; dq; "word"; dq; ": "; dq; word_syms_Find model (nth i words 0); dq;
        ", "; dq; "start"; dq; " : "; show_float (fst t); ",";
        " "; dq; "end"; dq; " : "; show_float (snd t);
        ", "; dq; "conf"; dq; " : "; show_float (nth i conf float_default); "}";
        if Nat.eqb (S i) size then nl else String.append "," nl ]%string.

(** One word of the ["text"] field, followed by its separator. *)
Definition text_entry (model : Model) (words : list Z) (size : nat) (i : nat)
  : string :=
  String.append (word_syms_Find model (nth i words 0))
                (if Nat.eqb (S i) size then "" else " ")%string.

(** The JSON object that [Result] writes from the consensus of the aligned
    lattice. *)
Definition render_result (model : Model) (aligned_lat : CompactLattice) : string :=
  let conf := GetOneBestConfidences aligned_lat in
  let words := GetOneBest aligned_lat in
  let times := GetOneBestTimes aligned_lat in
  let size := List.length words in
  cat [ "{"; dq; "result"; dq; " : [ ";
        cat (map (result_entry model words times conf size) (seq 0 size));
        " ], "; dq; "text"; dq; " : "; dq;
        cat (map (text_entry model words size) (seq 0 size));
        dq; " }" ]%string.

(** [std::string KaldiRecognizer::Result()] *)
Definition Result (r : KaldiRecognizer) : KaldiRecognizer * string :=
  let r := finalize r in
  let clat := GetLattice (decoder_ r) true in
  let aligned_lat := WordAlignLattice (model_ r) clat in
  (r, render_result (model_ r) aligned_lat).

(** The partial result returned below the frame threshold. *)
Definition empty_partial : string :=
  cat [ "{"; dq; "partial"; dq; " : "; dq; dq; "}" ]%string.

(** The words of the best path, separated by one blank. *)
Fixpoint join_words (model : Model) (first : bool) (words : list Z) : string :=
  match words with
  | [] => ""%string
  | w :: ws =>
      cat [ if first then "" else " "; word_syms_Find model w;
            join_words model false ws ]%string
  end.

Definition render_partial (model : Model) (words : list Z) : string :=
  cat [ "{"; dq; "partial"; dq; " : "; dq; join_words model true words; dq; "}" ]%string.

(** [std::string KaldiRecognizer::PartialResult()] *)
Definition PartialResult (r : KaldiRecognizer) : KaldiRecognizer * string :=
  let r := advance r in
  if NumFramesDecoded (decoder_ r) <? 50 then (r, empty_partial)
  else
    let lat := GetBestPath (decoder_ r) false in
    let words := GetLinearSymbolSequence lat in
    (r, render_partial (model_ r) words).

End Recognizer.

End Kaldi.

(** ** The Vosk recognizer channel ([vosk_recog_engine.c]) *)

Module Vosk.

(** *** MRCP messages *)

Inductive mrcp_message_type_e : Type :=
| MRCP_MESSAGE_TYPE_REQUEST
| MRCP_MESSAGE_TYPE_RESPONSE
| MRCP_MESSAGE_TYPE_EVENT.

(** The methods of the recognizer resource that the dispatcher names; any
    other method goes to the [default] branch. *)
Inductive mrcp_recognizer_method_id : Type :=
| RECOGNIZER_SET_PARAMS
| RECOGNIZER_GET_PARAMS
| RECOGNIZER_DEFINE_GRAMMAR
| RECOGNIZER_RECOGNIZE
| RECOGNIZER_GET_RESULT
| RECOGNIZER_START_INPUT_TIMERS
| RECOGNIZER_STOP
| RECOGNIZER_METHOD_OTHER (id : Z).

Inductive mrcp_recognizer_event_id : Type :=
| RECOGNIZER_START_OF_INPUT
| RECOGNIZER_RECOGNITION_COMPLETE.

(** [start_line.method_id] holds a method of a request or response and an
    event identifier of an event. *)
Inductive mrcp_method_id : Type :=
| METHOD (m : mrcp_recognizer_method_id)
| EVENT (e : mrcp_recognizer_event_id).

Inductive mrcp_request_state_e : Type :=
| MRCP_REQUEST_STATE_COMPLETE
| MRCP_REQUEST_STATE_INPROGRESS
| MRCP_REQUEST_STATE_PENDING.

Inductive mrcp_status_code_e : Type :=
| MRCP_STATUS_CODE_SUCCESS
| MRCP_STATUS_CODE_METHOD_FAILED.

(** The completion causes of [mrcp_recog_completion_cause_e]; the plugin sets
    [RECOGNIZER_COMPLETION_CAUSE_SUCCESS] and
    [RECOGNIZER_COMPLETION_CAUSE_NO_INPUT_TIMEOUT] only. *)
Inductive mrcp_recog_completion_cause_e : Type :=
| RECOGNIZER_COMPLETION_CAUSE_SUCCESS
| RECOGNIZER_COMPLETION_CAUSE_NO_MATCH
| RECOGNIZER_COMPLETION_CAUSE_NO_INPUT_TIMEOUT
| RECOGNIZER_COMPLETION_CAUSE_ERROR
| RECOGNIZER_COMPLETION_CAUSE_CANCELLED
| RECOGNIZER_COMPLETION_CAUSE_UNKNOWN.

Inductive mrcp_recognizer_header_id : Type :=
| RECOGNIZER_HEADER_COMPLETION_CAUSE
| RECOGNIZER_HEADER_START_INPUT_TIMERS
| RECOGNIZER_HEADER_NO_INPUT_TIMEOUT
| RECOGNIZER_HEADER_SPEECH_COMPLETE_TIMEOUT.

Definition header_id_eqb (a b : mrcp_recognizer_header_id) : bool :=
  match a, b with
  | RECOGNIZER_HEADER_COMPLETION_CAUSE, RECOGNIZER_HEADER_COMPLETION_CAUSE
  | RECOGNIZER_HEADER_START_INPUT_TIMERS, RECOGNIZER_HEADER_START_INPUT_TIMERS
  | RECOGNIZER_HEADER_NO_INPUT_TIMEOUT, RECOGNIZER_HEADER_NO_INPUT_TIMEOUT
  | RECOGNIZER_HEADER_SPEECH_COMPLETE_TIMEOUT,
    RECOGNIZER_HEADER_SPEECH_COMPLETE_TIMEOUT => true
  | _, _ => false
  end.

(** The fields of [mrcp_recog_header_t] that the plugin reads or writes. *)
Record mrcp_recog_header_t : Type := mkRecogHeader {
  completion_cause : mrcp_recog_completion_cause_e;
  start_input_timers : bool;
  no_input_timeout : Z;
  speech_complete_timeout : Z
}.

Record mrcp_start_line_t : Type := mkStartLine {
  message_type : mrcp_message_type_e;
  method_id : mrcp_method_id;
  request_id : Z;
  request_state : mrcp_request_state_e;
  status_code : mrcp_status_code_e
}.

Record mrcp_message_t : Type := mkMessage {
  start_line : mrcp_start_line_t;
  (* [channel_id.session_id] *)
  session_id : string;
  (* the resource header, when allocated, and the properties set on it *)
  resource_header : option mrcp_recog_header_t;
  resource_properties : list mrcp_recognizer_header_id;
  (* the content type of the generic header, when its property is set *)
  content_type : option string;
  body : string
}.

(** What the channel hands to the MRCP server. *)
Inductive outbound : Type :=
| channel_open_respond (status : bool)
| channel_close_respond
| channel_message_send (message : mrcp_message_t).

Definition mrcp_response_create (request : mrcp_message_t) : mrcp_message_t :=
  mkMessage
    (mkStartLine MRCP_MESSAGE_TYPE_RESPONSE (method_id (start_line request))
                 (request_id (start_line request))
                 MRCP_REQUEST_STATE_COMPLETE MRCP_STATUS_CODE_SUCCESS)
    (session_id request) None [] None "".

(** The pool allocator does not report failure, so an event is always
    created; the plugin still tests the pointer. *)
Definition mrcp_event_create (request : mrcp_message_t)
    (event_id : mrcp_recognizer_event_id) : option mrcp_message_t :=
  Some (mkMessage
          (mkStartLine MRCP_MESSAGE_TYPE_EVENT (EVENT event_id)
                       (request_id (start_line request))
                       MRCP_REQUEST_STATE_COMPLETE MRCP_STATUS_CODE_SUCCESS)
          (session_id request) None [] None "").

Definition default_recog_header : mrcp_recog_header_t :=
  mkRecogHeader RECOGNIZER_COMPLETION_CAUSE_UNKNOWN false 0 0.

(** [mrcp_resource_header_prepare]: the header of the message, allocated
    when the message has none. *)
Definition mrcp_resource_header_prepare (message : mrcp_message_t)
  : mrcp_message_t * option mrcp_recog_header_t :=
  match resource_header message with
  | Some h => (message, Some h)
  | None =>
      (mkMessage (start_line message) (session_id message)
                 (Some default_recog_header) (resource_properties message)
                 (content_type message) (body message),
       Some default_recog_header)
  end.

Definition mrcp_resource_header_property_check (message : mrcp_message_t)
    (id : mrcp_recognizer_header_id) : bool :=
  existsb (header_id_eqb id) (resource_properties message).

Definition set_request_state (s : mrcp_request_state_e) (m : mrcp_message_t)
  : mrcp_message_t :=
  let l := start_line m in
  mkMessage (mkStartLine (message_type l) (method_id l) (request_id l) s
                         (status_code l))
            (session_id m) (resource_header m) (resource_properties m)
            (content_type m) (body m).

Definition set_status_code (c : mrcp_status_code_e) (m : mrcp_message_t)
  : mrcp_message_t :=
  let l := start_line m in
  mkMessage (mkStartLine (message_type l) (method_id l) (request_id l)
                         (request_state l) c)
            (session_id m) (resource_header m) (resource_properties m)
            (content_type m) (body m).

(** [recog_header->completion_cause = cause] followed by
    [mrcp_resource_header_property_add]. *)
Definition set_completion_cause (cause : mrcp_recog_completion_cause_e)
    (h : mrcp_recog_header_t) (m : mrcp_message_t) : mrcp_message_t :=
  mkMessage (start_line m) (session_id m)
            (Some (mkRecogHeader cause (start_input_timers h)
                                 (no_input_timeout h)
                                 (speech_complete_timeout h)))
            (RECOGNIZER_HEADER_COMPLETION_CAUSE :: resource_properties m)
            (content_type m) (body m).

Definition set_body (b : string) (m : mrcp_message_t) : mrcp_message_t :=
  mkMessage (start_line m) (session_id m) (resource_header m)
            (resource_properties m) (content_type m) b.

Definition set_content_type (t : string) (m : mrcp_message_t) : mrcp_message_t :=
  mkMessage (start_line m) (session_id m) (resource_header m)
            (resource_properties m) (Some t) (body m).

(** *** Media frames, grammar documents *)

(** A frame: its type bits and its marker, which the plugin only writes to
    the log, and the bytes of the codec frame. *)
Record mpf_frame_t : Type := mkFrame {
  frame_type : Z;
  marker : Z;
  (* [codec_frame.buffer], [codec_frame.size] bytes long *)
  codec_frame : list Z
}.

Inductive mpf_detector_event_e : Type :=
| MPF_DETECTOR_EVENT_NONE
| MPF_DETECTOR_EVENT_ACTIVITY
| MPF_DETECTOR_EVENT_INACTIVITY
| MPF_DETECTOR_EVENT_NOINPUT.

Record mpf_codec_descriptor_t : Type := mkDescriptor {
  sampling_rate : Z
}.

Record apr_xml_attr : Type := mkAttr {
  attr_name : string;
  attr_value : string
}.

(** An element of a parsed document: its name, its attributes, the text of
    [first_cdata.first] (absent when either pointer is null) and its
    children, in document order. *)
Inductive apr_xml_elem : Type :=
| mkElem (name : string) (attr : list apr_xml_attr)
         (first_cdata : option string) (children : list apr_xml_elem).

Definition elem_name (e : apr_xml_elem) : string :=
  let '(mkElem n _ _ _) := e in n.
Definition elem_attr (e : apr_xml_elem) : list apr_xml_attr :=
  let '(mkElem _ a _ _) := e in a.
Definition elem_first_cdata (e : apr_xml_elem) : option string :=
  let '(mkElem _ _ t _) := e in t.
Definition elem_children (e : apr_xml_elem) : list apr_xml_elem :=
  let '(mkElem _ _ _ c) := e in c.

Record apr_xml_doc : Type := mkDoc {
  root : option apr_xml_elem
}.

(** The utterance file: its path and the bytes written so far. *)
Record FILE : Type := mkFile {
  file_path : string;
  written : list Z
}.

(** *** Collaborators

    The libraries the plugin calls: the MPF activity detector, the Vosk
    recognizer, POSIX regular expressions, the APR XML parser, the file
    system and the allocator of the C library. *)
Class Collaborators : Type := {
  mpf_activity_detector_t : Type;
  mpf_activity_detector_create : mpf_activity_detector_t;
  mpf_activity_detector_process :
    mpf_activity_detector_t -> mpf_frame_t ->
    mpf_activity_detector_t * mpf_detector_event_e;
  mpf_activity_detector_noinput_timeout_set :
    mpf_activity_detector_t -> Z -> mpf_activity_detector_t;
  mpf_activity_detector_silence_timeout_set :
    mpf_activity_detector_t -> Z -> mpf_activity_detector_t;

  VoskModel : Type;
  VoskRecognizer : Type;
  vosk_recognizer_new : option VoskModel -> Z -> VoskRecognizer;
  vosk_recognizer_set_max_alternatives : VoskRecognizer -> Z -> VoskRecognizer;
  vosk_recognizer_set_nlsml : VoskRecognizer -> Z -> VoskRecognizer;
  vosk_recognizer_accept_waveform :
    VoskRecognizer -> list Z -> VoskRecognizer * Z;
  vosk_recognizer_partial_result : VoskRecognizer -> VoskRecognizer * string;
  vosk_recognizer_result : VoskRecognizer -> VoskRecognizer * string;

  (* [regcomp] with [REG_EXTENDED]: the compiled expression, or nothing when
     the status is not [REG_NOERROR] *)
  regex_t : Type;
  regcomp : string -> option regex_t;
  (* [regexec] with one match slot: [rm_so] and [rm_eo] when the status is
     [REG_NOERROR] *)
  regexec : regex_t -> string -> option (Z * Z);

  apr_xml_parser : Type;
  apr_xml_parser_create : option apr_xml_parser;
  (* the parser after the feed, and whether the status is [APR_SUCCESS] *)
  apr_xml_parser_feed : apr_xml_parser -> string -> apr_xml_parser * bool;
  (* the document, written through the pointer only on [APR_SUCCESS] *)
  apr_xml_parser_done : apr_xml_parser -> option apr_xml_doc;

  apt_vardir_filepath_get : string -> option string;
  (* whether [fopen(path, "wb")] gives a stream *)
  fopen_wb : string -> bool;

  (* the allocator: the number of bytes of the block that [malloc (size)]
     returns ([malloc] is taken to succeed).  The C standard promises [size]
     bytes; an allocator that rounds sizes up gives more *)
  malloc_usable_size : Z -> Z
}.

Section Channel.

Context {L : Collaborators}.

(** [struct vosk_recog_channel_t], with the codec descriptor of the sink
    stream that [mrcp_engine_sink_stream_codec_get] reads from the engine
    channel, and the model of the engine the channel points back to. *)
Record vosk_recog_channel_t : Type := mkChannel {
  engine_model : option VoskModel;
  sink_stream_codec : option mpf_codec_descriptor_t;
  recog_request : option mrcp_message_t;
  stop_response : option mrcp_message_t;
  timers_started : bool;
  detector : mpf_activity_detector_t;
  audio_out : option FILE;
  grammar : option apr_xml_doc;
  recognizer : option VoskRecognizer
}.

Definition set_recog_request (v : option mrcp_message_t)
    (c : vosk_recog_channel_t) : vosk_recog_channel_t :=
  mkChannel (engine_model c) (sink_stream_codec c) v (stop_response c)
            (timers_started c) (detector c) (audio_out c) (grammar c)
            (recognizer c).

Definition set_stop_response (v : option mrcp_message_t)
    (c : vosk_recog_channel_t) : vosk_recog_channel_t :=
  mkChannel (engine_model c) (sink_stream_codec c) (recog_request c) v
            (timers_started c) (detector c) (audio_out c) (grammar c)
            (recognizer c).

Definition set_timers_started (v : bool)
    (c : vosk_recog_channel_t) : vosk_recog_channel_t :=
  mkChannel (engine_model c) (sink_stream_codec c) (recog_request c)
            (stop_response c) v (detector c) (audio_out c) (grammar c)
            (recognizer c).

Definition set_detector (v : mpf_activity_detector_t)
    (c : vosk_recog_channel_t) : vosk_recog_channel_t :=
  mkChannel (engine_model c) (sink_stream_codec c) (recog_request c)
            (stop_response c) (timers_started c) v (audio_out c) (grammar c)
            (recognizer c).

Definition set_audio_out (v : option FILE)
    (c : vosk_recog_channel_t) : vosk_recog_channel_t :=
  mkChannel (engine_model c) (sink_stream_codec c) (recog_request c)
            (stop_response c) (timers_started c) (detector c) v (grammar c)
            (recognizer c).

Definition set_grammar (v : option apr_xml_doc)
    (c : vosk_recog_channel_t) : vosk_recog_channel_t :=
  mkChannel (engine_model c) (sink_stream_codec c) (recog_request c)
            (stop_response c) (timers_started c) (detector c) (audio_out c) v
            (recognizer c).

Definition set_recognizer (v : option VoskRecognizer)
    (c : vosk_recog_channel_t) : vosk_recog_channel_t :=
  mkChannel (engine_model c) (sink_stream_codec c) (recog_request c)
            (stop_response c) (timers_started c) (detector c) (audio_out c)
            (grammar c) v.

(** [vosk_recog_engine_channel_create].  The function does not assign
    [timers_started]; [indeterminate] is the value the fresh memory holds. *)
Definition vosk_recog_engine_channel_create (model : option VoskModel)
    (codec : option mpf_codec_descriptor_t) (indeterminate : bool)
  : vosk_recog_channel_t :=
  mkChannel model codec None None indeterminate mpf_activity_detector_create
            None None None.

(** *** Effects

    A function of the plugin reads and writes the channel, hands messages to
    the server and may read through a null pointer or write past the end of
    an allocated block.  The behaviour of the program is undefined from
    there on: the run has no final state, and its [outcome] keeps what was
    sent up to that point. *)
Record outcome (A : Type) : Type := mkOutcome {
  sent : list outbound;
  final : option (A * vosk_recog_channel_t)
}.
Arguments mkOutcome {A} _ _.
Arguments sent {A} _.
Arguments final {A} _.

Definition M (A : Type) : Type := vosk_recog_channel_t -> outcome A.

Definition ret {A : Type} (a : A) : M A :=
  fun c => mkOutcome [] (Some (a, c)).

Definition bind {A B : Type} (m : M A) (f : A -> M B) : M B :=
  fun c =>
    let o := m c in
    match final o with
    | None => mkOutcome (sent o) None
    | Some (a, c') =>
        let o' := f a c' in
        mkOutcome (sent o ++ sent o') (final o')
    end.

Definition get : M vosk_recog_channel_t :=
  fun c => mkOutcome [] (Some (c, c)).

Definition modify (f : vosk_recog_channel_t -> vosk_recog_channel_t) : M unit :=
  fun c => mkOutcome [] (Some (tt, f c)).

Definition send (o : outbound) : M unit :=
  fun c => mkOutcome [o] (Some (tt, c)).

(** A read through a null pointer. *)
Definition null_dereference {A : Type} : M A :=
  fun c => mkOutcome [] None.

(** A write past the end of an allocated block. *)
Definition buffer_overflow {A : Type} : M A :=
  fun c => mkOutcome [] None.

Notation "x <- m ;; k" := (bind m (fun x => k))
  (at level 61, m at next level, right associativity).
Notation "m ;; k" := (bind m (fun _ => k))
  (at level 61, right associativity).

(** [mrcp_engine_channel_message_send] *)
Definition mrcp_engine_channel_message_send (message : mrcp_message_t) : M bool :=
  send (channel_message_send message) ;; ret true.

(** *** Strings *)

Definition tolower (c : ascii) : ascii :=
  let n := nat_of_ascii c in
  if (Nat.leb 65 n && Nat.leb n 90)%bool then ascii_of_nat (n + 32) else c.

Fixpoint lowercase (s : string) : string :=
  match s with
  | EmptyString => EmptyString
  | String c s' => String (tolower c) (lowercase s')
  end.

(** [strcasecmp(a, b) == 0] *)
Definition strcasecmp_eq (a b : string) : bool :=
  String.eqb (lowercase a) (lowercase b).

(** *** Grammar *)

(** The value of a C expression that may read through a null pointer or
    write past the end of a block. *)
Inductive c_result (A : Type) : Type :=
| value (a : A)
| null_deref
| overflow.
Arguments value {A} _.
Arguments null_deref {A}.
Arguments overflow {A}.

Definition lift {A : Type} (r : c_result A) : M A :=
  match r with
  | value a => ret a
  | null_deref => null_dereference
  | overflow => buffer_overflow
  end.

(** [strcpy] and [strcat] into the block that [malloc (size)] returns, for
    the string [s] that they build in it: [String.length s] characters and
    the terminator are written.  The value is the string when all of them
    are inside the block. *)
Definition written_to (size : Z) (s : string) : c_result string :=
  if Z.of_nat (String.length s) + 1 <=? malloc_usable_size size
  then value s else overflow.

(** [check_grammar] *)
Definition check_grammar (doc : option apr_xml_doc) : bool :=
  match doc with
  | None => false
  | Some d =>
      match root d with
      | None => false
      | Some r => strcasecmp_eq (elem_name r) "grammar"
      end
  end.

(** The loop over the attributes of a rule: the value of the last ["id"]
    attribute, or null. *)
Definition rule_id (attrs : list apr_xml_attr) : option string :=
  fold_left
    (fun id a => if strcasecmp_eq (attr_name a) "id" then Some (attr_value a) else id)
    attrs None.

(** The pattern of a child: a block of [strlen (text) + 1] bytes is
    allocated, the text is copied into it and a dot is appended, which takes
    [strlen (text) + 2] bytes with the terminator. *)
Definition pattern_of (text : string) : c_result string :=
  written_to (Z.of_nat (String.length text) + 1) (String.append text ".").

(** The loop over the children of a rule.  [value (Some r)]: the function
    returns [r] from inside the loop; [value None]: the loop ends. *)
Fixpoint match_children (id : option string) (result : string)
    (cs : list apr_xml_elem) : c_result (option (option string)) :=
  match cs with
  | [] => value None
  | child :: rest =>
      match elem_first_cdata child with
      | None => match_children id result rest
      | Some text =>
          match pattern_of text with
          | value pattern =>
              match regcomp pattern with
              | None => value (Some None)
              | Some reg =>
                  match regexec reg result with
                  | Some _ => value (Some id)
                  | None => match_children id result rest
                  end
              end
          | null_deref => null_deref
          | overflow => overflow
          end
      end
  end.

(** The loop over the children of the root. *)
Fixpoint match_rules (result : string) (elems : list apr_xml_elem)
  : c_result (option string) :=
  match elems with
  | [] => value None
  | elem :: rest =>
      if strcasecmp_eq (elem_name elem) "rule" then
        match match_children (rule_id (elem_attr elem)) result
                             (elem_children elem) with
        | value (Some r) => value r
        | value None => match_rules result rest
        | null_deref => null_deref
        | overflow => overflow
        end
      else match_rules result rest
  end.

(** [prase_grammar]: [doc->root->first_child] is read without a test of
    [doc] or of [doc->root]. *)
Definition prase_grammar (doc : option apr_xml_doc) (result : string)
  : c_result (option string) :=
  match doc with
  | None => null_deref
  | Some d =>
      match root d with
      | None => null_deref
      | Some r => match_rules result (elem_children r)
      end
  end.

(** *** Events *)

(** [vosk_recog_start_of_input] *)
Definition vosk_recog_start_of_input : M bool :=
  c <- get ;;
  match recog_request c with
  | None => null_dereference
  | Some request =>
      match mrcp_event_create request RECOGNIZER_START_OF_INPUT with
      | None => ret false
      | Some message =>
          let message := set_request_state MRCP_REQUEST_STATE_INPROGRESS message in
          mrcp_engine_channel_message_send message
      end
  end.

Definition cause_is_success (cause : mrcp_recog_completion_cause_e) : bool :=
  match cause with
  | RECOGNIZER_COMPLETION_CAUSE_SUCCESS => true
  | _ => false
  end.

(** [vosk_recog_recognition_complete].  The event is created from
    [recog_request] and from [recog_request->pool], so a null
    [recog_request] is read through; so is a null recognizer, by
    [vosk_recognizer_result].  With [early], the body is built in a block of
    [strlen (result) + strlen (early)] bytes, by a copy of the result and an
    append of [early], which take one byte more for the terminator. *)
Definition vosk_recog_recognition_complete
    (cause : mrcp_recog_completion_cause_e) (early : option string) : M bool :=
  c <- get ;;
  match recog_request c with
  | None => null_dereference
  | Some request =>
      match mrcp_event_create request RECOGNIZER_RECOGNITION_COMPLETE with
      | None => ret false
      | Some message =>
          let '(message, recog_header) := mrcp_resource_header_prepare message in
          let message :=
            match recog_header with
            | Some h => set_completion_cause cause h message
            | None => message
            end in
          let message := set_request_state MRCP_REQUEST_STATE_COMPLETE message in
          message <-
            (if cause_is_success cause then
               match recognizer c with
               | None => null_dereference
               | Some rec =>
                   let '(rec, result) := vosk_recognizer_result rec in
                   modify (set_recognizer (Some rec)) ;;
                   match early with
                   | Some e =>
                       match written_to (Z.of_nat (String.length result)
                                         + Z.of_nat (String.length e))
                                        (String.append result e) with
                       | value buffer =>
                           ret (set_content_type "application/x-nlsml"
                                  (set_body buffer message))
                       | null_deref => null_dereference
                       | overflow => buffer_overflow
                       end
                   | None =>
                       ret (set_content_type "application/x-nlsml"
                              (set_body result message))
                   end
               end
             else ret message) ;;
          modify (set_recog_request None) ;;
          mrcp_engine_channel_message_send message
      end
  end.

(** *** Requests *)

(** The name of the utterance file,
    [apr_psprintf(pool, "utter-%dkHz-%s.pcm", rate / 1000, session)]. *)
Definition utterance_file_name (descriptor : mpf_codec_descriptor_t)
    (request : mrcp_message_t) : string :=
  cat [ "utter-";
        NilZero.string_of_int (Z.to_int (Z.quot (sampling_rate descriptor) 1000));
        "kHz-"; session_id request; ".pcm" ]%string.

(** The headers of a RECOGNIZE request that the channel takes over. *)
Definition read_recognize_header (request : mrcp_message_t)
    (c : vosk_recog_channel_t) : vosk_recog_channel_t :=
  match resource_header request with
  | None => c
  | Some recog_header =>
      let c :=
        if mrcp_resource_header_property_check request
             RECOGNIZER_HEADER_START_INPUT_TIMERS
        then set_timers_started (start_input_timers recog_header) c
        else c in
      let c :=
        if mrcp_resource_header_property_check request
             RECOGNIZER_HEADER_NO_INPUT_TIMEOUT
        then set_detector
               (mpf_activity_detector_noinput_timeout_set (detector c)
                  (no_input_timeout recog_header)) c
        else c in
      if mrcp_resource_header_property_check request
           RECOGNIZER_HEADER_SPEECH_COMPLETE_TIMEOUT
      then set_detector
             (mpf_activity_detector_silence_timeout_set (detector c)
                (speech_complete_timeout recog_header)) c
      else c
  end.

(** The utterance file is opened once per channel; a failure is logged. *)
Definition open_utterance_file (descriptor : mpf_codec_descriptor_t)
    (request : mrcp_message_t) (c : vosk_recog_channel_t)
  : vosk_recog_channel_t :=
  match audio_out c with
  | Some _ => c
  | None =>
      match apt_vardir_filepath_get (utterance_file_name descriptor request) with
      | None => c
      | Some path =>
          if fopen_wb path then set_audio_out (Some (mkFile path [])) c else c
      end
  end.

(** The recognizer is created once per channel. *)
Definition create_recognizer (c : vosk_recog_channel_t) : vosk_recog_channel_t :=
  match recognizer c with
  | Some _ => c
  | None =>
      let rec := vosk_recognizer_new (engine_model c) 8000 in
      let rec := vosk_recognizer_set_max_alternatives rec 5 in
      let rec := vosk_recognizer_set_nlsml rec 1 in
      set_recognizer (Some rec) c
  end.

(** [vosk_recog_channel_recognize].  The response is written through its
    pointer; the function gives it back with its result. *)
Definition vosk_recog_channel_recognize (request response : mrcp_message_t)
  : M (bool * mrcp_message_t) :=
  c <- get ;;
  match sink_stream_codec c with
  | None =>
      ret (false, set_status_code MRCP_STATUS_CODE_METHOD_FAILED response)
  | Some descriptor =>
      modify (set_timers_started true) ;;
      modify (read_recognize_header request) ;;
      modify (open_utterance_file descriptor request) ;;
      modify create_recognizer ;;
      let response := set_request_state MRCP_REQUEST_STATE_INPROGRESS response in
      mrcp_engine_channel_message_send response ;;
      modify (set_recog_request (Some request)) ;;
      ret (true, response)
  end.

(** [vosk_recog_channel_stop]: the response is kept until the next frame. *)
Definition vosk_recog_channel_stop (request response : mrcp_message_t) : M bool :=
  modify (set_stop_response (Some response)) ;;
  ret true.

(** [vosk_recog_channel_timers_start] *)
Definition vosk_recog_channel_timers_start (request response : mrcp_message_t)
  : M bool :=
  modify (set_timers_started true) ;;
  mrcp_engine_channel_message_send response.

(** How the [switch] of the dispatcher is left: by a [return] inside a
    case, or by a [break] with the value of [processed]. *)
Inductive switch_exit : Type :=
| early_return (b : bool)
| fall_out (processed : bool) (response : mrcp_message_t).

Definition grammar_pattern : string := "<grammar.*</grammar>".

(** The [RECOGNIZER_DEFINE_GRAMMAR] case of the dispatcher. *)
Definition define_grammar (request response : mrcp_message_t) : M switch_exit :=
  match regcomp grammar_pattern with
  | None => ret (early_return false)
  | Some reg =>
      match regexec reg (body request) with
      | None => ret (early_return false)
      | Some (rm_so, rm_eo) =>
          if 4096 <=? rm_eo - rm_so then ret (early_return false)
          else
            match apr_xml_parser_create with
            | None => ret (early_return false)
            | Some parser =>
                let '(parser, ok) := apr_xml_parser_feed parser (body request) in
                if negb ok then ret (early_return false)
                else
                  match apr_xml_parser_done parser with
                  | None => ret (early_return false)
                  | Some doc =>
                      modify (set_grammar (Some doc)) ;;
                      c <- get ;;
                      if check_grammar (grammar c)
                      then ret (fall_out false response)
                      else ret (early_return false)
                  end
            end
      end
  end.

(** [vosk_recog_channel_request_dispatch] *)
Definition vosk_recog_channel_request_dispatch (request : mrcp_message_t)
  : M bool :=
  let response := mrcp_response_create request in
  exit <-
    match method_id (start_line request) with
    | METHOD RECOGNIZER_DEFINE_GRAMMAR => define_grammar request response
    | METHOD RECOGNIZER_RECOGNIZE =>
        r <- vosk_recog_channel_recognize request response ;;
        ret (fall_out (fst r) (snd r))
    | METHOD RECOGNIZER_START_INPUT_TIMERS =>
        processed <- vosk_recog_channel_timers_start request response ;;
        ret (fall_out processed response)
    | METHOD RECOGNIZER_STOP =>
        processed <- vosk_recog_channel_stop request response ;;
        ret (fall_out processed response)
    | _ => ret (fall_out false response)
    end ;;
  match exit with
  | early_return b => ret b
  | fall_out processed response =>
      (if negb processed
       then mrcp_engine_channel_message_send response ;; ret tt
       else ret tt) ;;
      ret true
  end.

(** *** The stream callback *)

(** The switch on the detector event; its value is the flag [end]. *)
Definition on_detector_event (det_event : mpf_detector_event_e) : M Z :=
  match det_event with
  | MPF_DETECTOR_EVENT_ACTIVITY =>
      vosk_recog_start_of_input ;; ret 0
  | MPF_DETECTOR_EVENT_INACTIVITY =>
      vosk_recog_recognition_complete RECOGNIZER_COMPLETION_CAUSE_SUCCESS None ;;
      ret 1
  | MPF_DETECTOR_EVENT_NOINPUT =>
      c <- get ;;
      if timers_started c then
        vosk_recog_recognition_complete
          RECOGNIZER_COMPLETION_CAUSE_NO_INPUT_TIMEOUT None ;;
        ret 1
      else ret 0
  | MPF_DETECTOR_EVENT_NONE => ret 0
  end.

(** [fwrite] of the frame to the utterance file, when there is one. *)
Definition write_audio (frame : mpf_frame_t) (c : vosk_recog_channel_t)
  : vosk_recog_channel_t :=
  match audio_out c with
  | None => c
  | Some f =>
      set_audio_out
        (Some (mkFile (file_path f) (written f ++ codec_frame frame))) c
  end.

(** The buffer handed to the completion on an early match: a block of
    [strlen (early) + 21] bytes, into which the opening tag (10 characters),
    [early] and the closing tag (11 characters) are written, which take
    [strlen (early) + 22] bytes with the terminator. *)
Definition earlyres (early : string) : c_result string :=
  written_to (Z.of_nat (String.length early) + 21)
             (cat [ "<earlyres>"; early; "</earlyres>" ]%string).

(** The block guarded by [recog_channel->recognizer]. *)
Definition feed_recognizer (frame : mpf_frame_t) (end_ : Z) : M unit :=
  c <- get ;;
  match recognizer c with
  | None => ret tt
  | Some rec =>
      let '(rec, r) := vosk_recognizer_accept_waveform rec (codec_frame frame) in
      modify (set_recognizer (Some rec)) ;;
      if negb (r =? 0) then
        vosk_recog_recognition_complete
          RECOGNIZER_COMPLETION_CAUSE_SUCCESS None ;;
        ret tt
      else if (r =? 0) && (end_ =? 0) then
        let '(rec, result) := vosk_recognizer_partial_result rec in
        modify (set_recognizer (Some rec)) ;;
        c <- get ;;
        early <- lift (prase_grammar (grammar c) result) ;;
        match early with
        | Some id =>
            match earlyres id with
            | value buffer =>
                vosk_recog_recognition_complete
                  RECOGNIZER_COMPLETION_CAUSE_SUCCESS (Some buffer) ;;
                ret tt
            | null_deref => null_dereference
            | overflow => buffer_overflow
            end
        | None => ret tt
        end
      else ret tt
  end.

(** [vosk_recog_stream_write].  The block on event frames writes to the log
    only and is left out. *)
Definition vosk_recog_stream_write (frame : mpf_frame_t) : M bool :=
  c <- get ;;
  match stop_response c with
  | Some response =>
      mrcp_engine_channel_message_send response ;;
      modify (set_stop_response None) ;;
      modify (set_recog_request None) ;;
      ret true
  | None =>
      match recog_request c with
      | Some _ =>
          let '(det, det_event) := mpf_activity_detector_process (detector c) frame in
          modify (set_detector det) ;;
          end_ <- on_detector_event det_event ;;
          modify (write_audio frame) ;;
          feed_recognizer frame end_ ;;
          ret true
      | None => ret true
      end
  end.

(** *** The task messages *)

Inductive vosk_recog_msg_type_e : Type :=
| vosk_recog_MSG_OPEN_CHANNEL
| vosk_recog_MSG_CLOSE_CHANNEL
| vosk_recog_MSG_REQUEST_PROCESS.

Record vosk_recog_msg_t : Type := mkMsg {
  msg_type : vosk_recog_msg_type_e;
  msg_request : option mrcp_message_t
}.

(** [vosk_recog_msg_process] *)
Definition vosk_recog_msg_process (msg : vosk_recog_msg_t) : M bool :=
  match msg_type msg with
  | vosk_recog_MSG_OPEN_CHANNEL =>
      send (channel_open_respond true) ;; ret true
  | vosk_recog_MSG_CLOSE_CHANNEL =>
      modify (set_audio_out None) ;;
      modify (set_recognizer None) ;;
      send channel_close_respond ;;
      ret true
  | vosk_recog_MSG_REQUEST_PROCESS =>
      match msg_request msg with
      | None => null_dereference
      | Some request => vosk_recog_channel_request_dispatch request ;; ret true
      end
  end.

(** What reaches a channel: a task message from the server, or a frame from
    the media engine. *)
Inductive input : Type :=
| task_msg (msg : vosk_recog_msg_t)
| audio (frame : mpf_frame_t).

Definition handle (i : input) : M bool :=
  match i with
  | task_msg msg => vosk_recog_msg_process msg
  | audio frame => vosk_recog_stream_write frame
  end.

(** The inputs of a channel, handled in their order of arrival. *)
Fixpoint run (inputs : list input) : M unit :=
  match inputs with
  | [] => ret tt
  | i :: rest => handle i ;; run rest
  end.

(** *** Observations on what was sent *)

Definition is_recognition_complete (o : outbound) : bool :=
  match o with
  | channel_message_send m =>
      match message_type (start_line m), method_id (start_line m) with
      | MRCP_MESSAGE_TYPE_EVENT, EVENT RECOGNIZER_RECOGNITION_COMPLETE => true
      | _, _ => false
      end
  | _ => false
  end.

Definition is_response (o : outbound) : bool :=
  match o with
  | channel_message_send m =>
      match message_type (start_line m) with
      | MRCP_MESSAGE_TYPE_RESPONSE => true
      | _ => false
      end
  | _ => false
  end.

(** The completion cause that a sent message carries, when it is a
    RECOGNITION-COMPLETE event with the property set. *)
Definition completion_cause_of (o : outbound)
  : option mrcp_recog_completion_cause_e :=
  if is_recognition_complete o then
    match o with
    | channel_message_send m =>
        if mrcp_resource_header_property_check m RECOGNIZER_HEADER_COMPLETION_CAUSE
        then option_map completion_cause (resource_header m)
        else None
    | _ => None
    end
  else None.

Definition is_no_input_completion (o : outbound) : bool :=
  match completion_cause_of o with
  | Some RECOGNIZER_COMPLETION_CAUSE_NO_INPUT_TIMEOUT => true
  | _ => false
  end.

Definition count_recognition_complete (l : list outbound) : nat :=
  List.length (filter is_recognition_complete l).

(** *** Specifications of effects

    [hoare P m Q R]: from a channel that satisfies [P], everything that [m]
    sends satisfies [Q], and when [m] returns, its value and the channel
    satisfy [R]. *)
Definition hoare {A : Type} (P : vosk_recog_channel_t -> Prop) (m : M A)
    (Q : outbound -> Prop) (R : A -> vosk_recog_channel_t -> Prop) : Prop :=
  forall c, P c ->
    Forall Q (sent (m c))
    /\ forall a c', final (m c) = Some (a, c') -> R a c'.

(** The input timers are off and no STOP response is pending. *)
Definition timers_off (c : vosk_recog_channel_t) : Prop :=
  timers_started c = false /\ stop_response c = None.


(** A pending STOP response is a response message, as the dispatcher
    stores it. *)
Definition stop_is_response (c : vosk_recog_channel_t) : Prop :=
  forall r, stop_response c = Some r ->
            message_type (start_line r) = MRCP_MESSAGE_TYPE_RESPONSE.

(** The number of RECOGNITION-COMPLETE events the channel may still send
    for the utterance in progress. *)
Definition budget (c : vosk_recog_channel_t) : nat :=
  match recog_request c with
  | Some _ => 1
  | None => 0
  end.

(** [spends P m R]: from a channel that satisfies [P], the completions that
    [m] sends are paid from the budget of the channel, and when [m] returns,
    its value and the channel satisfy [R]. *)
Definition spends {A : Type} (P : vosk_recog_channel_t -> Prop) (m : M A)
    (R : A -> vosk_recog_channel_t -> Prop) : Prop :=
  forall c, P c ->
    (count_recognition_complete (sent (m c))
     + match final (m c) with
       | Some (_, c') => budget c'
       | None => 0
       end <= budget c)%nat
    /\ forall a c', final (m c) = Some (a, c') -> R a c'.

(** No STOP response is pending. *)
Definition no_stop_pending (c : vosk_recog_channel_t) : Prop :=
  stop_response c = None.

(** [settles P m R]: from a channel that satisfies [P], when [m] returns,
    the completions it sent are what the budget of the channel lost (one
    when the active request was cleared, none otherwise), and its value and
    the channel satisfy [R]. *)
Definition settles {A : Type} (P : vosk_recog_channel_t -> Prop) (m : M A)
    (R : A -> vosk_recog_channel_t -> Prop) : Prop :=
  forall c, P c ->
    forall a c', final (m c) = Some (a, c') ->
      (count_recognition_complete (sent (m c)) + budget c' = budget c)%nat
      /\ R a c'.

(** An input that stops an utterance: a STOP request. *)
Definition stops_utterance (i : input) : bool :=
  match i with
  | task_msg msg =>
      match msg_type msg, msg_request msg with
      | vosk_recog_MSG_REQUEST_PROCESS, Some request =>
          match method_id (start_line request) with
          | METHOD RECOGNIZER_STOP => true
          | _ => false
          end
      | _, _ => false
      end
  | audio _ => false
  end.

(** An input that starts an utterance: a RECOGNIZE request. *)
Definition starts_utterance (i : input) : bool :=
  match i with
  | task_msg msg =>
      match msg_type msg, msg_request msg with
      | vosk_recog_MSG_REQUEST_PROCESS, Some request =>
          match method_id (start_line request) with
          | METHOD RECOGNIZER_RECOGNIZE => true
          | _ => false
          end
      | _, _ => false
      end
  | audio _ => false
  end.

(** The exit of the dispatcher's switch carries the response that was
    created for the request. *)
Definition exit_with (response : mrcp_message_t) (exit : switch_exit) : Prop :=
  match exit with
  | fall_out _ r => r = response
  | early_return _ => True
  end.

(** A child of a rule that the matcher passes over: it has no text, or its
    pattern is inside its block, compiles and does not match the result. *)
Definition child_passes (result : string) (child : apr_xml_elem) : Prop :=
  elem_first_cdata child = None
  \/ exists text pattern reg,
       elem_first_cdata child = Some text
       /\ pattern_of text = value pattern
       /\ regcomp pattern = Some reg
       /\ regexec reg result = None.

(** An element that the matcher passes over: it is no rule, or it is a rule
    all of whose children are passed over. *)
Definition rule_passes (result : string) (elem : apr_xml_elem) : Prop :=
  strcasecmp_eq (elem_name elem) "rule" = false
  \/ Forall (child_passes result) (elem_children elem).

(** The attribute is named [id], in any case of the letters. *)
Definition names_id (a : apr_xml_attr) : bool :=
  strcasecmp_eq (attr_name a) "id".

(** No condition on what is sent. *)
Definition anything (o : outbound) : Prop := True.

(** Where a request is active, there is a recognizer. *)
Definition request_has_recognizer (c : vosk_recog_channel_t) : Prop :=
  recog_request c <> None -> recognizer c <> None.

(** An input that closes the channel. *)
Definition closes_channel (i : input) : bool :=
  match i with
  | task_msg msg =>
      match msg_type msg with
      | vosk_recog_MSG_CLOSE_CHANNEL => true
      | _ => false
      end
  | audio _ => false
  end.

End Channel.

Arguments mkOutcome {L A} _ _.
Arguments sent {L A} _.
Arguments final {L A} _.
Arguments value {A} _.
Arguments null_deref {A}.
Arguments overflow {A}.
Arguments written_to {L} size s : simpl never.
Arguments pattern_of {L} text : simpl never.
Arguments earlyres {L} early : simpl never.

End Vosk.

(** ** The engine ([vosk_recog_engine.c], engine methods) *)

Module Engine.

(** What the engine methods ask of the task library, of the Vosk library
    and of the MRCP server.  A task and a model are known by their
    handles. *)
Inductive library_call : Type :=
| apt_task_destroy (task : Z)
| vosk_model_free (model : Z)
| apt_task_start (task : Z)
| apt_task_terminate (task : Z) (wait_till_complete : bool)
| mrcp_engine_open_respond (status : bool)
| mrcp_engine_close_respond.

(** [struct vosk_recog_engine_t] *)
Record vosk_recog_engine_t : Type := mkEngine {
  task : option Z;
  model : option Z
}.

(** [mrcp_plugin_create], from what [apt_consumer_task_create] and
    [vosk_model_new] return: no engine without a task; the model is loaded
    from a fixed path and is not tested. *)
Definition mrcp_plugin_create (apt_consumer_task_create : option Z)
    (vosk_model_new : string -> option Z) : option vosk_recog_engine_t :=
  match apt_consumer_task_create with
  | None => None
  | Some t => Some (mkEngine (Some t) (vosk_model_new "/opt/kaldi/model"%string))
  end.

(** [vosk_recog_engine_destroy]: the calls made and the engine left. *)
Definition vosk_recog_engine_destroy (e : vosk_recog_engine_t)
  : list library_call * vosk_recog_engine_t :=
  let '(calls1, e) :=
    match task e with
    | Some t => ([apt_task_destroy t], mkEngine None (model e))
    | None => ([], e)
    end in
  let '(calls2, e) :=
    match model e with
    | Some m => ([vosk_model_free m], mkEngine (task e) None)
    | None => ([], e)
    end in
  (calls1 ++ calls2, e).

(** [vosk_recog_engine_open] *)
Definition vosk_recog_engine_open (e : vosk_recog_engine_t) : list library_call :=
  match task e with
  | Some t => [apt_task_start t]
  | None => []
  end ++ [mrcp_engine_open_respond true].

(** [vosk_recog_engine_close] *)
Definition vosk_recog_engine_close (e : vosk_recog_engine_t) : list library_call :=
  match task e with
  | Some t => [apt_task_terminate t true]
  | None => []
  end ++ [mrcp_engine_close_respond].

End Engine.

(** ** Executable collaborators

    Small instances of the two interfaces, to run the code on concrete
    inputs. *)

(** A counting stand-in for the Kaldi library: a vector is its dimension
    with the assignments made to it, the last one first; the pipeline counts
    samples and keeps a running adaptation value, a frame is ready every 80
    samples, the decoder decodes every ready frame and finds one word per 25
    frames. *)
Module CountingKaldi.

Record pipeline : Type := mkPipeline {
  samples : Z;
  adaptation : Z;
  weight_updates : Z
}.

Record decoder : Type := mkDecoder {
  decoded : Z;
  finalized : bool
}.

Definition words_of (d : decoder) : list Z :=
  map Z.of_nat (seq 0 (Z.to_nat (decoded d / 25))).

Definition show_Z (z : Z) : string := NilZero.string_of_int (Z.to_int z).

#[export] Instance counting_lib : Kaldi.KaldiLib := {|
  Kaldi.Model := list string;
  Kaldi.OnlineNnet2FeaturePipelineInfo := unit;
  Kaldi.OnlineNnet2FeaturePipeline := pipeline;
  Kaldi.OnlineSilenceWeighting := Z;
  Kaldi.SingleUtteranceNnet3Decoder := decoder;
  Kaldi.OnlineIvectorExtractorAdaptationState := Z;
  Kaldi.DeltaWeights := Z;
  Kaldi.Lattice := list Z;
  Kaldi.CompactLattice := list Z;
  Kaldi.BaseFloat := Z;
  Kaldi.Vector := Z * list (Z * Z);
  Kaldi.Vector_new := (0, []);
  Kaldi.Vector_Resize := fun _ dim => (dim, []);
  Kaldi.Vector_set := fun wave i s => (fst wave, (i, s) :: snd wave);
  Kaldi.new_feature_info := fun _ => tt;
  Kaldi.new_feature_pipeline := fun _ => mkPipeline 0 0 0;
  Kaldi.new_silence_weighting := fun _ _ _ => 0;
  Kaldi.new_decoder := fun _ _ => mkDecoder 0 false;
  Kaldi.new_adaptation_state := fun _ => 0;
  Kaldi.GetAdaptationState := fun p _ => adaptation p;
  Kaldi.SetAdaptationState := fun p st => mkPipeline (samples p) st (weight_updates p);
  Kaldi.pipeline_AcceptWaveform := fun p _ wave =>
    mkPipeline (samples p + Z.max 0 (fst wave))
               (adaptation p + Z.max 0 (fst wave)) (weight_updates p);
  Kaldi.InputFinished := fun p => p;
  Kaldi.NumFramesReady := fun p => samples p / 80;
  Kaldi.has_IvectorFeature := fun _ => true;
  Kaldi.UpdateFrameWeights := fun p d =>
    mkPipeline (samples p) (adaptation p) (weight_updates p + d);
  Kaldi.Active := fun _ => true;
  Kaldi.ComputeCurrentTraceback := fun sw _ => sw + 1;
  Kaldi.GetDeltaWeights := fun sw n => (sw, 1);
  Kaldi.AdvanceDecoding := fun p d =>
    (p, if finalized d then d else mkDecoder (samples p / 80) false);
  Kaldi.FinalizeDecoding := fun d => mkDecoder (decoded d) true;
  Kaldi.EndpointDetected := fun _ d => 100 <=? decoded d;
  Kaldi.NumFramesDecoded := decoded;
  Kaldi.GetLattice := fun d _ => words_of d;
  Kaldi.GetBestPath := fun d _ => words_of d;
  Kaldi.GetLinearSymbolSequence := fun l => l;
  Kaldi.WordAlignLattice := fun _ l => l;
  Kaldi.GetOneBest := fun l => l;
  Kaldi.GetOneBestConfidences := fun l => map (fun _ => 1) l;
  Kaldi.GetOneBestTimes := fun l => map (fun w => (25 * w, 25 * w + 25)) l;
  Kaldi.word_syms_Find := fun m w => nth (Z.to_nat w) m ""%string;
  Kaldi.show_float := show_Z;
  Kaldi.float_default := 0
|}.

Definition vocabulary : list string := [ "turn"; "left"; "now" ]%string.

(** A buffer of [n] samples of value 1: [2 * n] bytes. *)
Definition buffer (n : nat) : list Z := List.concat (repeat [1; 0] n).

(** A fresh recognizer, and the recognizer after [n] samples in one call. *)
Definition fresh : Kaldi.KaldiRecognizer := Kaldi.KaldiRecognizer_new vocabulary.

Definition after_samples (n : nat) : Kaldi.KaldiRecognizer :=
  fst (Kaldi.AcceptWaveform fresh (buffer n) (2 * Z.of_nat n)).

End CountingKaldi.

(** A scripted stand-in for the collaborators of the channel: the detector
    reports the events of a script, one per frame; the model is the
    recognizer it creates, which returns the values of a script, one per
    frame; regular expressions are matched
    for the fragment of extended expressions made of ordinary characters,
    the dot and the star; the XML parser knows a table of documents. *)
Module Scripted.

(** **** Regular expressions: ordinary characters, [.], and [*] *)

Inductive atom : Type :=
| lit (c : ascii)
| any.

Definition atom_ok (a : atom) (c : ascii) : bool :=
  match a with
  | lit x => Ascii.eqb x c
  | any => true
  end.

Definition is_meta (c : ascii) : bool :=
  existsb (Ascii.eqb c)
    (list_ascii_of_string "*+?()[]{}|^$\").

Definition atom_of (c : ascii) : atom :=
  if Ascii.eqb c "."%char then any else lit c.

(** An expression is a list of atoms, each starred or not; anything else is
    refused, as a compilation error. *)
Fixpoint compile (s : string) : option (list (atom * bool)) :=
  match s with
  | EmptyString => Some []
  | String c s' =>
      if is_meta c then None
      else
        match s' with
        | String "*"%char s'' => option_map (cons (atom_of c, true)) (compile s'')
        | _ => option_map (cons (atom_of c, false)) (compile s')
        end
  end.

Definition omax (a b : option nat) : option nat :=
  match a, b with
  | Some x, Some y => Some (Nat.max x y)
  | Some x, None => Some x
  | None, y => y
  end.

(** The longest match of [a*] followed by [k], at the head of the text. *)
Fixpoint star (a : atom) (k : string -> option nat) (text : string) : option nat :=
  match text with
  | String c t =>
      if atom_ok a c then omax (k text) (option_map S (star a k t)) else k text
  | EmptyString => k text
  end.

(** The length of the longest match at the head of the text. *)
Fixpoint match_here (items : list (atom * bool)) (text : string) : option nat :=
  match items with
  | [] => Some 0%nat
  | (a, true) :: rest => star a (match_here rest) text
  | (a, false) :: rest =>
      match text with
      | String c t =>
          if atom_ok a c then option_map S (match_here rest t) else None
      | EmptyString => None
      end
  end.

(** The leftmost match, and the longest one there. *)
Fixpoint search (items : list (atom * bool)) (text : string) (pos : Z)
  : option (Z * Z) :=
  match match_here items text with
  | Some n => Some (pos, pos + Z.of_nat n)
  | None =>
      match text with
      | EmptyString => None
      | String _ t => search items t (pos + 1)
      end
  end.

(** **** The recognizer and the documents *)

Record recognizer : Type := mkRec {
  returns : list Z;
  partial : string;
  final_result : string
}.

Definition accept (r : recognizer) : recognizer * Z :=
  match returns r with
  | [] => (r, 0)
  | x :: rest => (mkRec rest (partial r) (final_result r), x)
  end.

Definition yes_no_text : string :=
  "<grammar><rule id='answer'><item>yes</item><item>no</item></rule></grammar>".

Definition yes_no : Vosk.apr_xml_doc :=
  Vosk.mkDoc (Some
    (Vosk.mkElem "grammar" [] None
       [ Vosk.mkElem "rule" [ Vosk.mkAttr "id" "answer" ] None
           [ Vosk.mkElem "item" [] (Some "yes"%string) [];
             Vosk.mkElem "item" [] (Some "no"%string) [] ] ])).

(** A document with a root and no rule. *)
Definition empty_grammar : Vosk.apr_xml_doc :=
  Vosk.mkDoc (Some (Vosk.mkElem "grammar" [] None [])).

Definition documents : list (string * Vosk.apr_xml_doc) :=
  [ (yes_no_text, yes_no); ("<grammar></grammar>"%string, empty_grammar) ].

Fixpoint lookup (text : string) (table : list (string * Vosk.apr_xml_doc))
  : option Vosk.apr_xml_doc :=
  match table with
  | [] => None
  | (t, d) :: rest => if String.eqb t text then Some d else lookup text rest
  end.

(** An allocator that rounds sizes up as the GNU C library does on a 64-bit
    machine: blocks of 24, 40, 56, ... bytes. *)
Definition block_size (size : Z) : Z :=
  Z.max 24 (16 * ((size + 8 + 15) / 16) - 8).

#[export] Instance scripted_lib : Vosk.Collaborators := {|
  Vosk.mpf_activity_detector_t := list Vosk.mpf_detector_event_e;
  Vosk.mpf_activity_detector_create := [];
  Vosk.mpf_activity_detector_process := fun d _ =>
    match d with
    | [] => ([], Vosk.MPF_DETECTOR_EVENT_NONE)
    | e :: rest => (rest, e)
    end;
  Vosk.mpf_activity_detector_noinput_timeout_set := fun d _ => d;
  Vosk.mpf_activity_detector_silence_timeout_set := fun d _ => d;
  Vosk.VoskModel := recognizer;
  Vosk.VoskRecognizer := recognizer;
  Vosk.vosk_recognizer_new := fun model _ =>
    match model with
    | Some r => r
    | None => mkRec [] "" "<result/>"
    end;
  Vosk.vosk_recognizer_set_max_alternatives := fun r _ => r;
  Vosk.vosk_recognizer_set_nlsml := fun r _ => r;
  Vosk.vosk_recognizer_accept_waveform := fun r _ => accept r;
  Vosk.vosk_recognizer_partial_result := fun r => (r, partial r);
  Vosk.vosk_recognizer_result := fun r => (r, final_result r);
  Vosk.regex_t := list (atom * bool);
  Vosk.regcomp := compile;
  Vosk.regexec := fun re text => search re text 0;
  Vosk.apr_xml_parser := string;
  Vosk.apr_xml_parser_create := Some EmptyString;
  Vosk.apr_xml_parser_feed := fun p text => (String.append p text, true);
  Vosk.apr_xml_parser_done := fun p => lookup p documents;
  Vosk.apt_vardir_filepath_get := fun name => Some (String.append "var/" name);
  Vosk.fopen_wb := fun _ => true;
  Vosk.malloc_usable_size := block_size
|}.

End Scripted.

(** Channels, requests and frames to run the channel on. *)
Module Scenario.

Import Vosk.
#[local] Existing Instance Scripted.scripted_lib.

Definition codec : mpf_codec_descriptor_t := mkDescriptor 8000.

(** An audio frame of two silent samples. *)
Definition frame0 : mpf_frame_t := mkFrame 1 0 [0; 0; 0; 0].

Definition request (m : mrcp_recognizer_method_id) (id : Z)
    (header : option mrcp_recog_header_t)
    (properties : list mrcp_recognizer_header_id) (text : string)
  : mrcp_message_t :=
  mkMessage
    (mkStartLine MRCP_MESSAGE_TYPE_REQUEST (METHOD m) id
                 MRCP_REQUEST_STATE_PENDING MRCP_STATUS_CODE_SUCCESS)
    "0a1b2c" header properties None text.

Definition define_grammar_request : mrcp_message_t :=
  request RECOGNIZER_DEFINE_GRAMMAR 1 None [] Scripted.yes_no_text.

(** A DEFINE-GRAMMAR request whose body holds no grammar element. *)
Definition define_grammar_hello : mrcp_message_t :=
  request RECOGNIZER_DEFINE_GRAMMAR 1 None [] "hello".

Definition recognize_request : mrcp_message_t :=
  request RECOGNIZER_RECOGNIZE 2 None [] "".

(** A RECOGNIZE request with the header [Start-Input-Timers: false]. *)
Definition recognize_without_timers : mrcp_message_t :=
  request RECOGNIZER_RECOGNIZE 2
          (Some (mkRecogHeader RECOGNIZER_COMPLETION_CAUSE_UNKNOWN false 0 0))
          [RECOGNIZER_HEADER_START_INPUT_TIMERS] "".

Definition stop_request : mrcp_message_t :=
  request RECOGNIZER_STOP 3 None [] "".

Definition request_process (r : mrcp_message_t) : input :=
  task_msg (mkMsg vosk_recog_MSG_REQUEST_PROCESS (Some r)).

(** A recognizer that hears nothing, and one that reports an endpoint on
    its first frame. *)
Definition silent : Scripted.recognizer := Scripted.mkRec [] "" "<result/>".
Definition endpoint_at_once : Scripted.recognizer :=
  Scripted.mkRec [1] "" "<result/>".

(** A channel as [vosk_recog_engine_channel_create] leaves it, whose
    detector will report [events] and whose engine model is [model]. *)
Definition channel (events : list mpf_detector_event_e)
    (model : Scripted.recognizer) : vosk_recog_channel_t :=
  @mkChannel Scripted.scripted_lib (Some model) (Some codec) None None false
             events None None None.

(** The channel after some inputs. *)
Definition after (inputs : list input) (c : vosk_recog_channel_t)
  : vosk_recog_channel_t :=
  match final (run inputs c) with
  | Some (_, c') => c'
  | None => c
  end.

(** Grammar, RECOGNIZE, three silent frames, STOP, one more frame. *)
Definition stopped_utterance : list input :=
  [ request_process define_grammar_request;
    request_process recognize_request;
    audio frame0; audio frame0; audio frame0;
    request_process stop_request;
    audio frame0 ].

(** The channel of [stopped_utterance] when the STOP request has been
    dispatched and the next frame has not arrived. *)
Definition stop_pending : vosk_recog_channel_t :=
  after (firstn 6 stopped_utterance) (channel [] silent).

(** A channel in recognition with a grammar, whose detector will report
    [events]. *)
Definition recognizing (events : list mpf_detector_event_e)
    (model : Scripted.recognizer) (recognize : mrcp_message_t)
  : vosk_recog_channel_t :=
  after [ request_process define_grammar_request; request_process recognize ]
        (channel events model).

(** A channel in recognition on which no grammar was defined. *)
Definition recognizing_without_grammar : vosk_recog_channel_t :=
  after [ request_process recognize_request ] (channel [] silent).

(** Further requests, recognizers, channels and documents. *)

Definition set_params_request : mrcp_message_t :=
  request RECOGNIZER_SET_PARAMS 4 None [] "".

Definition start_timers_request : mrcp_message_t :=
  request RECOGNIZER_START_INPUT_TIMERS 5 None [] "".

Definition second_stop_request : mrcp_message_t :=
  request RECOGNIZER_STOP 6 None [] "".

(** A recognizer whose partial result holds the word yes. *)
Definition hears_yes : Scripted.recognizer :=
  Scripted.mkRec [] "{ partial : yes }" "<result>yes</result>".

(** A recognizer that reports an endpoint on its first frame and has heard
    the word no. *)
Definition heard_no : Scripted.recognizer :=
  Scripted.mkRec [1] "" "<result>no</result>".

(** A created channel whose sink stream has no codec descriptor. *)
Definition channel_without_codec : vosk_recog_channel_t :=
  @mkChannel Scripted.scripted_lib (Some silent) None None None false []
             None None None.

Definition item (text : string) : apr_xml_elem :=
  mkElem "item" [] (Some text) [].

Definition rule (id : string) (items : list apr_xml_elem) : apr_xml_elem :=
  mkElem "rule" [ mkAttr "id" id ] None items.

(** A grammar whose first rule has a pattern that does not compile. *)
Definition grammar_with_bad_pattern : apr_xml_doc :=
  mkDoc (Some (mkElem "grammar" [] None
                 [ rule "first" [ item "(" ]; rule "second" [ item "yes" ] ])).

(** A grammar whose first rule has an item of 23 characters: the block of
    24 bytes asked for its pattern is a block of 24 bytes, and the pattern
    takes 25. *)
Definition grammar_with_long_item : apr_xml_doc :=
  mkDoc (Some (mkElem "grammar" [] None
                 [ rule "first" [ item "twenty-three characters" ];
                   rule "second" [ item "yes" ] ])).

(** A grammar whose rule has an identifier of 3 characters: the block of 24
    bytes asked for the identifier between its tags is a block of 24 bytes,
    and the buffer takes 25. *)
Definition grammar_with_short_id : apr_xml_doc :=
  mkDoc (Some (mkElem "grammar" [] None [ rule "yes" [ item "yes" ] ])).

End Scenario.

(** * Properties of the recognizer *)

Section RecognizerFacts.

Import Kaldi.
Context {K : KaldiLib}.

Lemma input_finalized_update_silence_weights (r : KaldiRecognizer) :
  input_finalized_ (update_silence_weights r) = input_finalized_ r.
Proof.
  unfold update_silence_weights.
  destruct (Active _ && _ && _); [ | reflexivity ].
  destruct (GetDeltaWeights _ _) as [sw dw]. reflexivity.
Qed.

Lemma input_finalized_advance (r : KaldiRecognizer) :
  input_finalized_ (advance r) = input_finalized_ r.
Proof.
  unfold advance. destruct (AdvanceDecoding _ _) as [p d]. reflexivity.
Qed.

Lemma model_update_silence_weights (r : KaldiRecognizer) :
  model_ (update_silence_weights r) = model_ r.
Proof.
  unfold update_silence_weights.
  destruct (Active _ && _ && _); [ | reflexivity ].
  destruct (GetDeltaWeights _ _) as [sw dw]. reflexivity.
Qed.

Lemma model_advance (r : KaldiRecognizer) : model_ (advance r) = model_ r.
Proof.
  unfold advance. destruct (AdvanceDecoding _ _) as [p d]. reflexivity.
Qed.

Lemma input_finalized_finalize (r : KaldiRecognizer) :
  input_finalized_ (finalize r) = true.
Proof.
  unfold finalize. destruct (input_finalized_ r) eqn:E; simpl; auto.
Qed.

(** Once the input is finalized, the head of [Result] changes nothing. *)
Lemma finalize_finalized (r : KaldiRecognizer) :
  input_finalized_ r = true -> finalize r = r.
Proof.
  intros E. unfold finalize. rewrite E. reflexivity.
Qed.

Lemma finalize_idempotent (r : KaldiRecognizer) :
  finalize (finalize r) = finalize r.
Proof. apply finalize_finalized, input_finalized_finalize. Qed.

Lemma empty_partial_is_no_words (model : Model) :
  empty_partial = render_partial model [].
Proof. reflexivity. Qed.

(** When the decoder has no frame left to decode, the count before the call
    decides. *)
Lemma PartialResult_before_threshold (r : KaldiRecognizer) :
  NumFramesDecoded (decoder_ (advance r)) = NumFramesDecoded (decoder_ r) ->
  NumFramesDecoded (decoder_ r) < 50 ->
  snd (PartialResult r) = empty_partial.
Proof.
  intros Hsame Hlt. rewrite <- Hsame in Hlt. apply Z.ltb_lt in Hlt.
  unfold PartialResult. rewrite Hlt. reflexivity.
Qed.

(** C5. [PartialResult] advances the decoder and then reads the number of
    decoded frames: below 50 it returns the partial result with the empty
    text, and from 50 on it returns the words of the current best path
    joined by blanks. *)
Theorem PartialResult_threshold (r : KaldiRecognizer) :
  (NumFramesDecoded (decoder_ (advance r)) < 50 ->
   PartialResult r = (advance r, empty_partial)
   /\ empty_partial = render_partial (model_ r) [])
  /\
  (50 <= NumFramesDecoded (decoder_ (advance r)) ->
   PartialResult r =
     (advance r,
      render_partial (model_ r)
        (GetLinearSymbolSequence (GetBestPath (decoder_ (advance r)) false)))).
Proof.
  unfold PartialResult. split; intros H.
  - apply Z.ltb_lt in H. rewrite H. split; reflexivity.
  - apply Z.ltb_ge in H. rewrite H, model_advance. reflexivity.
Qed.

(** C6. A second call of [Result] with no reset in between returns the same
    text as the first and leaves the recognizer as the first call left it. *)
Theorem Result_twice (r : KaldiRecognizer) :
  Result (fst (Result r)) = Result r.
Proof.
  unfold Result. cbn [fst]. rewrite finalize_idempotent. reflexivity.
Qed.

(** C7. A call of [AcceptWaveform] on a finalized recognizer does not fail;
    it resets the decode state before it accepts the audio.  The audio is
    given to a new pipeline, which holds the adaptation state read from the
    old one and nothing else of it; the silence weights are updated and the
    decoding is advanced on a new silence weighting and a new decoder built
    on the new pipeline; the finalized flag is clear.  The old decoder and
    the old silence weighting have no part in the result.  This is the call
    on the recognizer that [CleanUp] rebuilt, with the flag cleared. *)
Theorem AcceptWaveform_after_finalize (r : KaldiRecognizer) (data : list Z) (len : Z) :
  input_finalized_ r = true ->
  let saved :=
    GetAdaptationState (feature_pipeline_ r)
                       (new_adaptation_state (feature_info_ r)) in
  let pipeline :=
    SetAdaptationState (new_feature_pipeline (feature_info_ r)) saved in
  let rebuilt :=
    mkRecognizer (model_ r) (feature_info_ r)
                 (pipeline_AcceptWaveform pipeline 8000 (wave_of data len))
                 (new_silence_weighting (model_ r) (feature_info_ r) 3)
                 (new_decoder (model_ r) pipeline) false in
  let r' := advance (update_silence_weights rebuilt) in
  AcceptWaveform r data len = (r', EndpointDetected (model_ r) (decoder_ r'))
  /\ (forall sw dec,
        AcceptWaveform
          (mkRecognizer (model_ r) (feature_info_ r) (feature_pipeline_ r)
                        sw dec true) data len
        = AcceptWaveform r data len)
  /\ AcceptWaveform r data len =
       AcceptWaveform (set_input_finalized false (CleanUp r)) data len
  /\ input_finalized_ (fst (AcceptWaveform r data len)) = false.
Proof.
  intros E saved pipeline rebuilt r'.
  assert (explicit : forall sw dec,
    AcceptWaveform
      (mkRecognizer (model_ r) (feature_info_ r) (feature_pipeline_ r)
                    sw dec true) data len
    = (r', EndpointDetected (model_ r) (decoder_ r'))).
  { intros sw dec. unfold AcceptWaveform, CleanUp, set_input_finalized.
    cbn [input_finalized_ model_ feature_info_ feature_pipeline_
         silence_weighting_ decoder_].
    fold saved. fold pipeline. fold rebuilt. fold r'.
    replace (model_ r') with (model_ r)
      by (subst r'; rewrite model_advance, model_update_silence_weights;
          reflexivity).
    destruct (EndpointDetected _ _); reflexivity. }
  assert (here : AcceptWaveform r data len
                 = (r', EndpointDetected (model_ r) (decoder_ r'))).
  { rewrite <- (explicit (silence_weighting_ r) (decoder_ r)).
    destruct r as [m i p sw d f]. cbn in E. subst f. reflexivity. }
  split; [ exact here | ].
  split; [ intros sw dec; rewrite here; apply explicit | ].
  split.
  - unfold AcceptWaveform at 1 2. rewrite E. reflexivity.
  - rewrite here. cbn [fst]. subst r'.
    rewrite input_finalized_advance, input_finalized_update_silence_weights.
    reflexivity.
Qed.

(** C8. [CleanUp] builds a new pipeline, a new silence weighting and a new
    decoder on the new pipeline; the new pipeline is given the adaptation
    state read from the old one, so that reading it back gives that state;
    the model and the pipeline info are the same as before. *)
Theorem CleanUp_keeps_adaptation (r : KaldiRecognizer) :
  (forall p st buf, GetAdaptationState (SetAdaptationState p st) buf = st) ->
  let saved :=
    GetAdaptationState (feature_pipeline_ r)
                       (new_adaptation_state (feature_info_ r)) in
  feature_pipeline_ (CleanUp r) =
    SetAdaptationState (new_feature_pipeline (feature_info_ r)) saved
  /\ (forall buf, GetAdaptationState (feature_pipeline_ (CleanUp r)) buf = saved)
  /\ decoder_ (CleanUp r) = new_decoder (model_ r) (feature_pipeline_ (CleanUp r))
  /\ silence_weighting_ (CleanUp r) =
       new_silence_weighting (model_ r) (feature_info_ r) 3
  /\ model_ (CleanUp r) = model_ r
  /\ feature_info_ (CleanUp r) = feature_info_ r
  /\ input_finalized_ (CleanUp r) = input_finalized_ r.
Proof.
  intros law saved. unfold CleanUp; cbn.
  repeat split; try reflexivity.
  intros buf. apply law.
Qed.

End RecognizerFacts.

(** The properties above, on the counting library. *)

(** 3999 samples give 49 frames and the empty partial; 4000 samples give 50
    frames and two words. *)
Lemma PartialResult_threshold_witness :
  (Kaldi.PartialResult (CountingKaldi.after_samples 3999) =
     (Kaldi.advance (CountingKaldi.after_samples 3999), Kaldi.empty_partial)
   /\ Kaldi.empty_partial =
        Kaldi.render_partial (Kaldi.model_ (CountingKaldi.after_samples 3999)) [])
  /\ snd (Kaldi.PartialResult (CountingKaldi.after_samples 4000)) =
       cat [ "{"; dq; "partial"; dq; " : "; dq; "turn left"; dq; "}" ]%string.
Proof.
  split.
  - apply (proj1 (PartialResult_threshold (CountingKaldi.after_samples 3999))).
    vm_compute. reflexivity.
  - rewrite (proj2 (PartialResult_threshold (CountingKaldi.after_samples 4000))).
    + vm_compute. reflexivity.
    + vm_compute. discriminate.
Defined.

(** Audio accepted after a final result.  The recognizer has 4000 samples
    and 50 decoded frames in a finalized decoder; the 160 samples that follow
    are counted by a new pipeline, which starts from the adaptation value
    4000, and a new decoder decodes their two frames. *)
Lemma AcceptWaveform_after_finalize_witness :
  fst (Kaldi.Result (CountingKaldi.after_samples 4000))
  = @Kaldi.mkRecognizer CountingKaldi.counting_lib
      CountingKaldi.vocabulary tt
      (CountingKaldi.mkPipeline 4000 4000 2) 2
      (CountingKaldi.mkDecoder 50 true) true
  /\ Kaldi.AcceptWaveform
       (@Kaldi.mkRecognizer CountingKaldi.counting_lib
          CountingKaldi.vocabulary tt
          (CountingKaldi.mkPipeline 4000 4000 2) 2
          (CountingKaldi.mkDecoder 50 true) true)
       (CountingKaldi.buffer 160) 320
     = (@Kaldi.mkRecognizer CountingKaldi.counting_lib
          CountingKaldi.vocabulary tt
          (CountingKaldi.mkPipeline 160 4160 1) 1
          (CountingKaldi.mkDecoder 2 false) false,
        false).
Proof.
  split; [ vm_compute; reflexivity | ].
  rewrite (proj1 (AcceptWaveform_after_finalize
                    (@Kaldi.mkRecognizer CountingKaldi.counting_lib
                       CountingKaldi.vocabulary tt
                       (CountingKaldi.mkPipeline 4000 4000 2) 2
                       (CountingKaldi.mkDecoder 50 true) true)
                    (CountingKaldi.buffer 160) 320 eq_refl)).
  vm_compute. reflexivity.
Defined.

(** A fresh pipeline has the adaptation value 0; after 4000 samples and a
    reset, the new pipeline has the value 4000. *)
Lemma CleanUp_keeps_adaptation_witness :
  Kaldi.GetAdaptationState (Kaldi.feature_pipeline_ CountingKaldi.fresh) 0 = 0
  /\ Kaldi.GetAdaptationState
       (Kaldi.feature_pipeline_
          (Kaldi.CleanUp (fst (Kaldi.Result (CountingKaldi.after_samples 4000)))))
       0 = 4000.
Proof.
  split; [ reflexivity | ].
  apply (CleanUp_keeps_adaptation
           (fst (Kaldi.Result (CountingKaldi.after_samples 4000)))).
  intros p st b. reflexivity.
Defined.

(** * Properties of the channel *)

Section ChannelFacts.

Import Vosk.
Context {L : Collaborators}.

(** Unfolds the effects of a function of the channel. *)
Ltac effects :=
  unfold mrcp_engine_channel_message_send, lift, bind, ret, get, modify, send,
    null_dereference, buffer_overflow; cbn.

(** **** Stop *)

(** A frame that finds a stored STOP response sends that response and
    nothing else, and clears both the response and the active request. *)
Lemma stream_write_pending_stop
    (c : vosk_recog_channel_t) (frame : mpf_frame_t) (response : mrcp_message_t) :
  stop_response c = Some response ->
  vosk_recog_stream_write frame c =
    mkOutcome [channel_message_send response]
              (Some (true, set_recog_request None (set_stop_response None c))).
Proof.
  intros E. unfold vosk_recog_stream_write. effects. rewrite E. reflexivity.
Qed.

(** The dispatcher stores the response of a STOP request and sends nothing. *)
Lemma dispatch_stop (c : vosk_recog_channel_t) (request : mrcp_message_t) :
  method_id (start_line request) = METHOD RECOGNIZER_STOP ->
  vosk_recog_channel_request_dispatch request c =
    mkOutcome []
      (Some (true,
             set_stop_response (Some (mrcp_response_create request)) c)).
Proof.
  intros E. unfold vosk_recog_channel_request_dispatch. rewrite E.
  reflexivity.
Qed.

Lemma response_is_no_completion (request : mrcp_message_t) :
  is_recognition_complete (channel_message_send (mrcp_response_create request)) = false
  /\ is_response (channel_message_send (mrcp_response_create request)) = true.
Proof. split; reflexivity. Qed.

(** C2 (amended). With a STOP response pending, the next frame sends
    exactly one message, the stored response; when that message is a
    response, as the one the dispatcher stores, no RECOGNITION-COMPLETE event
    is sent; the pending response and the active request are cleared. *)
Theorem pending_stop_sends_response
    (c : vosk_recog_channel_t) (frame : mpf_frame_t) (response : mrcp_message_t) :
  stop_response c = Some response ->
  message_type (start_line response) = MRCP_MESSAGE_TYPE_RESPONSE ->
  exists c',
    vosk_recog_stream_write frame c =
      mkOutcome [channel_message_send response] (Some (true, c'))
    /\ count_recognition_complete (sent (vosk_recog_stream_write frame c)) = 0%nat
    /\ stop_response c' = None
    /\ recog_request c' = None.
Proof.
  intros E T.
  exists (set_recog_request None (set_stop_response None c)).
  rewrite (stream_write_pending_stop c frame response E).
  repeat split.
  unfold count_recognition_complete; cbn. rewrite T. reflexivity.
Qed.

(** **** DEFINE-GRAMMAR *)

(** C3. A DEFINE-GRAMMAR request whose body has no match for the grammar
    pattern (or whose pattern does not compile) leaves the dispatcher by a
    [return] before the response is sent: nothing is sent and the channel is
    unchanged, so no response is stored for later either. *)
Theorem define_grammar_no_match_no_response
    (c : vosk_recog_channel_t) (request : mrcp_message_t) :
  method_id (start_line request) = METHOD RECOGNIZER_DEFINE_GRAMMAR ->
  (forall reg, regcomp grammar_pattern = Some reg ->
               regexec reg (body request) = None) ->
  vosk_recog_msg_process (mkMsg vosk_recog_MSG_REQUEST_PROCESS (Some request)) c
    = mkOutcome [] (Some (true, c)).
Proof.
  intros E H.
  unfold vosk_recog_msg_process, vosk_recog_channel_request_dispatch; cbn.
  rewrite E. unfold define_grammar.
  destruct (regcomp grammar_pattern) as [reg | ] eqn:R.
  - rewrite (H reg eq_refl). reflexivity.
  - reflexivity.
Qed.

(** **** The grammar matcher *)

Lemma prase_grammar_null (result : string) :
  prase_grammar None result = null_deref.
Proof. reflexivity. Qed.

(** A document whose root has no child gives no rule. *)
Lemma prase_grammar_no_rule (name : string) (attrs : list apr_xml_attr)
    (text : option string) (result : string) :
  prase_grammar (Some (mkDoc (Some (mkElem name attrs text [])))) result
    = value None.
Proof. reflexivity. Qed.

(** C4. With no grammar document on the channel, the matcher reads through
    the null document; a frame that reaches the matcher (active request, no
    detector event, recognizer returning 0) ends there, with nothing sent. *)
Theorem null_grammar_is_dereferenced
    (c : vosk_recog_channel_t) (frame : mpf_frame_t) (request : mrcp_message_t)
    (det : mpf_activity_detector_t) (rec rec1 : VoskRecognizer) :
  grammar c = None ->
  stop_response c = None ->
  recog_request c = Some request ->
  mpf_activity_detector_process (detector c) frame = (det, MPF_DETECTOR_EVENT_NONE) ->
  recognizer c = Some rec ->
  vosk_recognizer_accept_waveform rec (codec_frame frame) = (rec1, 0) ->
  prase_grammar (grammar c) (snd (vosk_recognizer_partial_result rec1)) = null_deref
  /\ vosk_recog_stream_write frame c = mkOutcome [] None.
Proof.
  intros G S R D V A. split.
  - rewrite G. reflexivity.
  - unfold vosk_recog_stream_write. effects. rewrite S, R, D. cbn.
    unfold feed_recognizer, write_audio. effects.
    destruct (audio_out c); cbn; rewrite V, A; cbn;
      destruct (vosk_recognizer_partial_result rec1); cbn; rewrite G;
      reflexivity.
Qed.

(** **** Rules for [hoare] *)

Lemma hoare_ret {A} (P : vosk_recog_channel_t -> Prop) (a : A) Q
    (R : A -> vosk_recog_channel_t -> Prop) :
  (forall c, P c -> R a c) -> hoare P (ret a) Q R.
Proof.
  intros H c Pc. split; [ constructor | ].
  cbn. intros a' c' E. inversion E; subst. auto.
Qed.

Lemma hoare_bind {A B} P (m : M A) (f : A -> M B) Q R1 R2 :
  hoare P m Q R1 ->
  (forall a, hoare (R1 a) (f a) Q R2) ->
  hoare P (bind m f) Q R2.
Proof.
  intros Hm Hf c Pc. destruct (Hm c Pc) as [Sm Fm].
  unfold bind. destruct (final (m c)) as [[a c1] | ] eqn:E; cbn.
  - destruct (Hf a c1 (Fm a c1 eq_refl)) as [Sf Ff]. split.
    + apply Forall_app; auto.
    + exact Ff.
  - split; [ exact Sm | discriminate ].
Qed.

Lemma hoare_get (P : vosk_recog_channel_t -> Prop) Q :
  hoare P get Q (fun a c => P c /\ a = c).
Proof.
  intros c Pc. split; [ constructor | ].
  cbn. intros a c' E. inversion E; subst. auto.
Qed.

Lemma hoare_modify (P P' : vosk_recog_channel_t -> Prop) f Q :
  (forall c, P c -> P' (f c)) -> hoare P (modify f) Q (fun _ => P').
Proof.
  intros H c Pc. split; [ constructor | ].
  cbn. intros a c' E. inversion E; subst. auto.
Qed.

Lemma hoare_send (P : vosk_recog_channel_t -> Prop) o (Q : outbound -> Prop) :
  Q o -> hoare P (send o) Q (fun _ => P).
Proof.
  intros H c Pc. split; [ repeat constructor; exact H | ].
  cbn. intros a c' E. inversion E; subst. auto.
Qed.

Lemma hoare_null {A} P Q (R : A -> vosk_recog_channel_t -> Prop) :
  hoare P (@null_dereference L A) Q R.
Proof.
  intros c Pc. split; [ constructor | ]. cbn. discriminate.
Qed.

Lemma hoare_overflow {A} P Q (R : A -> vosk_recog_channel_t -> Prop) :
  hoare P (@buffer_overflow L A) Q R.
Proof.
  intros c Pc. split; [ constructor | ]. cbn. discriminate.
Qed.

Lemma hoare_false {A} (P : vosk_recog_channel_t -> Prop) (m : M A) Q R :
  (forall c, P c -> False) -> hoare P m Q R.
Proof. intros H c Pc. destruct (H c Pc). Qed.

Lemma hoare_weaken {A} (P P' : vosk_recog_channel_t -> Prop) (m : M A) Q
    (R R' : A -> vosk_recog_channel_t -> Prop) :
  hoare P' m Q R' ->
  (forall c, P c -> P' c) ->
  (forall a c, R' a c -> R a c) ->
  hoare P m Q R.
Proof.
  intros H HP HR c Pc. destruct (H c (HP c Pc)) as [S F].
  split; [ exact S | ]. intros a c' E. apply HR, (F a c' E).
Qed.

Lemma hoare_message_send P message (Q : outbound -> Prop) :
  Q (channel_message_send message) ->
  hoare P (mrcp_engine_channel_message_send message) Q (fun _ => P).
Proof.
  intros H. unfold mrcp_engine_channel_message_send.
  eapply hoare_bind; [ apply hoare_send; exact H | ].
  intros u. apply hoare_ret. auto.
Qed.

(** **** What the event functions send *)

(** [vosk_recog_recognition_complete] sends at most one message, a
    RECOGNITION-COMPLETE event that carries the cause it was called with;
    when it returns, the active request is cleared.  It touches the
    recognizer and the active request only. *)
Lemma recognition_complete_spec
    (P : vosk_recog_channel_t -> Prop) (Q : outbound -> Prop)
    (cause : mrcp_recog_completion_cause_e) (early : option string) :
  (forall c v, P c -> P (set_recognizer v c)) ->
  (forall c, P c -> P (set_recog_request None c)) ->
  (forall o, is_recognition_complete o = true ->
             completion_cause_of o = Some cause -> Q o) ->
  hoare P (vosk_recog_recognition_complete cause early) Q
        (fun _ c => P c /\ recog_request c = None).
Proof.
  intros Prec Preq HQ c Pc.
  unfold vosk_recog_recognition_complete. effects.
  destruct (recog_request c) as [request | ]; cbn;
    [ | split; [ constructor | discriminate ] ].
  destruct cause; cbn;
    try (split;
         [ repeat constructor; apply HQ; reflexivity
         | intros a c' E; injection E as <- <-; split; [ apply Preq, Pc | reflexivity ] ]).
  destruct (recognizer c) as [rec | ]; cbn;
    [ | split; [ constructor | discriminate ] ].
  destruct (vosk_recognizer_result rec) as [rec' result]; cbn.
  destruct early as [e | ]; cbn;
    [ unfold written_to; destruct (_ <=? _); cbn;
      [ | split; [ constructor | discriminate ] ] | ];
    (split;
     [ repeat constructor; apply HQ; reflexivity
     | intros a c' E; injection E as <- <-; split;
       [ apply Preq, Prec, Pc | reflexivity ] ]).
Qed.

(** Called with no active request, it reads through the null request. *)
Lemma recognition_complete_null_request
    (cause : mrcp_recog_completion_cause_e) (early : option string)
    (c : vosk_recog_channel_t) :
  recog_request c = None ->
  vosk_recog_recognition_complete cause early c = mkOutcome [] None.
Proof.
  intros E. unfold vosk_recog_recognition_complete. effects. rewrite E.
  reflexivity.
Qed.

(** [vosk_recog_start_of_input] sends at most one message, which is not a
    RECOGNITION-COMPLETE event, and leaves the channel as it is. *)
Lemma start_of_input_spec (P : vosk_recog_channel_t -> Prop) (Q : outbound -> Prop) :
  (forall o, is_recognition_complete o = false -> Q o) ->
  hoare P vosk_recog_start_of_input Q (fun _ c => P c).
Proof.
  intros HQ c Pc. unfold vosk_recog_start_of_input. effects.
  destruct (recog_request c) as [request | ]; cbn.
  - split; [ repeat constructor; apply HQ; reflexivity | ].
    intros a c' E; injection E as <- <-. exact Pc.
  - split; [ constructor | discriminate ].
Qed.

Lemma hoare_get_bind {B} (P : vosk_recog_channel_t -> Prop) (f : vosk_recog_channel_t -> M B) Q R :
  (forall a, hoare (fun c => P c /\ a = c) (f a) Q R) ->
  hoare P (bind get f) Q R.
Proof.
  intros H. eapply hoare_bind; [ apply hoare_get | exact H ].
Qed.

Lemma hoare_seq_modify {B} (P : vosk_recog_channel_t -> Prop) g (m : M B) Q R :
  (forall c, P c -> P (g c)) ->
  hoare P m Q R ->
  hoare P (bind (modify g) (fun _ => m)) Q R.
Proof.
  intros Hg Hm. eapply hoare_bind; [ apply (hoare_modify P P); exact Hg | ].
  intros u. exact Hm.
Qed.

Lemma hoare_forget {A} (P : vosk_recog_channel_t -> Prop) (X : vosk_recog_channel_t -> Prop)
    (m : M A) Q R :
  hoare P m Q R -> hoare (fun c => P c /\ X c) m Q R.
Proof.
  intros H. eapply hoare_weaken; [ exact H | | auto ]. intros c [Pc _]. exact Pc.
Qed.

Lemma hoare_assert {A} (P : vosk_recog_channel_t -> Prop) (X : Prop) (m : M A) Q R :
  (forall c, P c -> X) -> (X -> hoare P m Q R) -> hoare P m Q R.
Proof. intros HX H c Pc. apply (H (HX c Pc) c Pc). Qed.

Section Stable.

(** A property of the channel that the stream callback cannot change: it
    does not depend on the detector, the utterance file, the recognizer,
    and it survives the clearing of the active request. *)
Variable P : vosk_recog_channel_t -> Prop.
Hypothesis P_detector : forall c v, P c -> P (set_detector v c).
Hypothesis P_audio_out : forall c v, P c -> P (set_audio_out v c).
Hypothesis P_recognizer : forall c v, P c -> P (set_recognizer v c).
Hypothesis P_request : forall c, P c -> P (set_recog_request None c).

Variable Q : outbound -> Prop.
Hypothesis Q_success :
  forall o, is_recognition_complete o = true ->
            completion_cause_of o = Some RECOGNIZER_COMPLETION_CAUSE_SUCCESS ->
            Q o.
Hypothesis Q_other : forall o, is_recognition_complete o = false -> Q o.

Lemma write_audio_stable (frame : mpf_frame_t) (c : vosk_recog_channel_t) :
  P c -> P (write_audio frame c).
Proof.
  intros Pc. unfold write_audio. destruct (audio_out c); auto.
Qed.

Lemma complete_success_stable (early : option string) :
  hoare P
    (vosk_recog_recognition_complete RECOGNIZER_COMPLETION_CAUSE_SUCCESS early)
    Q (fun _ c => P c).
Proof.
  eapply hoare_weaken;
    [ apply (recognition_complete_spec P Q); auto | auto | ].
  intros a c [Pc _]. exact Pc.
Qed.

Lemma feed_recognizer_stable (frame : mpf_frame_t) (end_ : Z) :
  hoare P (feed_recognizer frame end_) Q (fun _ c => P c).
Proof.
  unfold feed_recognizer. apply hoare_get_bind. intros c0.
  apply hoare_forget.
  destruct (recognizer c0) as [rec | ]; [ | apply hoare_ret; auto ].
  destruct (vosk_recognizer_accept_waveform rec (codec_frame frame)) as [rec1 r].
  apply hoare_seq_modify; [ auto | ].
  destruct (r =? 0); cbn.
  - destruct (end_ =? 0); [ | apply hoare_ret; auto ].
    destruct (vosk_recognizer_partial_result rec1) as [rec2 result].
    apply hoare_seq_modify; [ auto | ].
    apply hoare_get_bind. intros c1. apply hoare_forget.
    destruct (prase_grammar (grammar c1) result) as [early | | ]; cbn.
    + eapply hoare_bind; [ apply hoare_ret; intros c Pc; exact Pc | ].
      intros [id | ]; cbn.
      * destruct (earlyres id) as [buffer | | ];
          [ | apply hoare_null | apply hoare_overflow ].
        eapply hoare_bind; [ apply complete_success_stable | ].
        intros b. apply hoare_ret. auto.
      * apply hoare_ret. auto.
    + eapply hoare_bind; [ apply (hoare_null _ _ (fun _ _ => False)) | ].
      intros a. apply hoare_false. auto.
    + eapply hoare_bind; [ apply (hoare_overflow _ _ (fun _ _ => False)) | ].
      intros a. apply hoare_false. auto.
  - eapply hoare_bind; [ apply complete_success_stable | ].
    intros b. apply hoare_ret. auto.
Qed.

End Stable.

(** **** The no-input timeout *)

Lemma no_input_of_success (o : outbound) :
  completion_cause_of o = Some RECOGNIZER_COMPLETION_CAUSE_SUCCESS ->
  is_no_input_completion o = false.
Proof. unfold is_no_input_completion. intros ->. reflexivity. Qed.

Lemma no_input_of_other (o : outbound) :
  is_recognition_complete o = false -> is_no_input_completion o = false.
Proof.
  unfold is_no_input_completion, completion_cause_of. intros ->. reflexivity.
Qed.

Lemma timers_off_stable (c : vosk_recog_channel_t) :
  timers_off c ->
  (forall v, timers_off (set_detector v c))
  /\ (forall v, timers_off (set_audio_out v c))
  /\ (forall v, timers_off (set_recognizer v c))
  /\ timers_off (set_recog_request None c).
Proof. intros [T S]. repeat split; assumption. Qed.

(** With the timers off, a frame sends no no-input completion and leaves
    the timers off. *)
Lemma stream_write_timers_off (frame : mpf_frame_t) :
  hoare timers_off (vosk_recog_stream_write frame)
        (fun o => is_no_input_completion o = false)
        (fun _ c => timers_off c).
Proof.
  assert (St : forall c, timers_off c -> _) by exact timers_off_stable.
  assert (Hfeed : forall e, hoare timers_off (feed_recognizer frame e)
                              (fun o => is_no_input_completion o = false)
                              (fun _ c => timers_off c)).
  { intros e. apply feed_recognizer_stable; intros;
      first [ apply St; assumption
            | apply no_input_of_success; assumption
            | apply no_input_of_other; assumption ]. }
  assert (Hrest : forall e,
             hoare timers_off
               (bind (modify (write_audio frame))
                     (fun _ => bind (feed_recognizer frame e) (fun _ => ret true)))
               (fun o => is_no_input_completion o = false)
               (fun _ c => timers_off c)).
  { intros e. apply hoare_seq_modify.
    - intros c Pc. apply write_audio_stable; [ intros; apply St | ]; assumption.
    - eapply hoare_bind; [ apply Hfeed | ]. intros u. apply hoare_ret. auto. }
  unfold vosk_recog_stream_write. apply hoare_get_bind. intros c0.
  apply (hoare_assert _ (timers_off c0)); [ intros c [Pc ->]; exact Pc | ].
  intros [T0 S0]. apply hoare_forget. rewrite S0.
  destruct (recog_request c0); [ | apply hoare_ret; auto ].
  destruct (mpf_activity_detector_process (detector c0) frame) as [det ev].
  apply hoare_seq_modify; [ intros; apply St; assumption | ].
  eapply hoare_bind with (R1 := fun _ c => timers_off c); [ | exact Hrest ].
  destruct ev; cbn.
  - apply hoare_ret. auto.
  - eapply hoare_bind; [ | intros b; apply hoare_ret; intros c Pc; exact Pc ].
    apply start_of_input_spec. intros o. apply no_input_of_other.
  - eapply hoare_bind; [ | intros b; apply hoare_ret; intros c Pc; exact Pc ].
    apply complete_success_stable; intros;
      first [ apply St; assumption | apply no_input_of_success; assumption ].
  - apply hoare_get_bind. intros c1.
    apply (hoare_assert _ (timers_off c1)); [ intros c [Pc ->]; exact Pc | ].
    intros [T1 _]. rewrite T1. apply hoare_ret. intros c [Pc _]. exact Pc.
Qed.

(** Any number of frames, with the timers off. *)
Lemma frames_timers_off (frames : list mpf_frame_t) :
  hoare timers_off (run (map audio frames))
        (fun o => is_no_input_completion o = false)
        (fun _ c => timers_off c).
Proof.
  induction frames as [ | frame frames IH ]; cbn [map run].
  - apply hoare_ret. auto.
  - eapply hoare_bind; [ apply stream_write_timers_off | ].
    intros b. exact IH.
Qed.

(** C9. On a frame for which the detector reports the no-input timeout,
    with a request active and no STOP pending, a RECOGNITION-COMPLETE event
    with the no-input-timeout cause is sent if and only if [timers_started]
    is true; and with the timers off, no such event is sent over any number
    of frames. *)
Theorem no_input_completion_iff_timers_started
    (c : vosk_recog_channel_t) (frame : mpf_frame_t) (request : mrcp_message_t)
    (det : mpf_activity_detector_t) :
  stop_response c = None ->
  recog_request c = Some request ->
  mpf_activity_detector_process (detector c) frame = (det, MPF_DETECTOR_EVENT_NOINPUT) ->
  (Exists (fun o => is_no_input_completion o = true)
          (sent (vosk_recog_stream_write frame c))
   <-> timers_started c = true)
  /\ (timers_started c = false ->
      forall frames,
        Forall (fun o => is_no_input_completion o = false)
               (sent (run (map audio frames) c))).
Proof.
  intros S R D. split; [ split | ].
  - intros E. destruct (timers_started c) eqn:T; [ reflexivity | exfalso ].
    destruct (stream_write_timers_off frame c (conj T S)) as [F _].
    apply Exists_exists in E. destruct E as [o [Hin Ho]].
    rewrite Forall_forall in F. rewrite (F o Hin) in Ho. discriminate.
  - intros T. unfold vosk_recog_stream_write. effects. rewrite S, R, D. cbn.
    rewrite T. unfold vosk_recog_recognition_complete. effects. rewrite R. cbn.
    apply Exists_cons_hd. reflexivity.
  - intros T frames. apply (frames_timers_off frames c (conj T S)).
Qed.

(** **** The input timers *)

Lemma timers_started_read_recognize_header
    (request : mrcp_message_t) (c : vosk_recog_channel_t) :
  timers_started (read_recognize_header request c) =
    match resource_header request with
    | Some h =>
        if mrcp_resource_header_property_check request
             RECOGNIZER_HEADER_START_INPUT_TIMERS
        then start_input_timers h
        else timers_started c
    | None => timers_started c
    end.
Proof.
  unfold read_recognize_header.
  destruct (resource_header request) as [h | ]; [ | reflexivity ].
  destruct (mrcp_resource_header_property_check request
              RECOGNIZER_HEADER_START_INPUT_TIMERS);
  destruct (mrcp_resource_header_property_check request
              RECOGNIZER_HEADER_NO_INPUT_TIMEOUT);
  destruct (mrcp_resource_header_property_check request
              RECOGNIZER_HEADER_SPEECH_COMPLETE_TIMEOUT);
  reflexivity.
Qed.

Lemma timers_started_open_utterance_file descriptor request c :
  timers_started (open_utterance_file descriptor request c) = timers_started c.
Proof.
  unfold open_utterance_file. destruct (audio_out c); [ reflexivity | ].
  destruct (apt_vardir_filepath_get _); [ | reflexivity ].
  destruct (fopen_wb _); reflexivity.
Qed.

Lemma timers_started_create_recognizer c :
  timers_started (create_recognizer c) = timers_started c.
Proof. unfold create_recognizer. destruct (recognizer c); reflexivity. Qed.

(** The outcome of a RECOGNIZE request on a channel with a codec
    descriptor. *)
Lemma recognize_outcome (c : vosk_recog_channel_t)
    (request response : mrcp_message_t) (descriptor : mpf_codec_descriptor_t) :
  sink_stream_codec c = Some descriptor ->
  vosk_recog_channel_recognize request response c =
    mkOutcome
      [channel_message_send
         (set_request_state MRCP_REQUEST_STATE_INPROGRESS response)]
      (Some ((true, set_request_state MRCP_REQUEST_STATE_INPROGRESS response),
             set_recog_request (Some request)
               (create_recognizer
                  (open_utterance_file descriptor request
                     (read_recognize_header request
                        (set_timers_started true c)))))).
Proof.
  intros E. unfold vosk_recog_channel_recognize. effects. rewrite E.
  reflexivity.
Qed.

(** C10. A RECOGNIZE request on a channel with a codec descriptor sets
    [timers_started] to true before it reads the headers; afterwards the
    flag is false exactly when the request carries the Start-Input-Timers
    header with the value false, so without that header it is true; and a
    START-INPUT-TIMERS request sets the flag to true from any channel. *)
Theorem recognize_arms_timers (c : vosk_recog_channel_t)
    (request response : mrcp_message_t) (descriptor : mpf_codec_descriptor_t) :
  sink_stream_codec c = Some descriptor ->
  exists r c',
    final (vosk_recog_channel_recognize request response c) = Some (r, c')
    /\ c' = set_recog_request (Some request)
              (create_recognizer
                 (open_utterance_file descriptor request
                    (read_recognize_header request
                       (set_timers_started true c))))
    /\ timers_started (set_timers_started true c) = true
    /\ (timers_started c' = false <->
        exists h, resource_header request = Some h
                  /\ mrcp_resource_header_property_check request
                       RECOGNIZER_HEADER_START_INPUT_TIMERS = true
                  /\ start_input_timers h = false)
    /\ (mrcp_resource_header_property_check request
          RECOGNIZER_HEADER_START_INPUT_TIMERS = false ->
        timers_started c' = true)
    /\ (forall c2 request2 response2,
          exists c3,
            final (vosk_recog_channel_timers_start request2 response2 c2)
              = Some (true, c3)
            /\ timers_started c3 = true).
Proof.
  intros E. rewrite (recognize_outcome c request response descriptor E).
  eexists. eexists. split; [ reflexivity | ]. split; [ reflexivity | ].
  split; [ reflexivity | ].
  assert (T : timers_started
                (set_recog_request (Some request)
                   (create_recognizer
                      (open_utterance_file descriptor request
                         (read_recognize_header request
                            (set_timers_started true c)))))
              = match resource_header request with
                | Some h =>
                    if mrcp_resource_header_property_check request
                         RECOGNIZER_HEADER_START_INPUT_TIMERS
                    then start_input_timers h
                    else true
                | None => true
                end).
  { change (timers_started (set_recog_request ?v ?x)) with (timers_started x).
    rewrite timers_started_create_recognizer,
      timers_started_open_utterance_file,
      timers_started_read_recognize_header.
    reflexivity. }
  rewrite T. split; [ split | split ].
  - destruct (resource_header request) as [h | ]; [ | discriminate ].
    destruct (mrcp_resource_header_property_check request
                RECOGNIZER_HEADER_START_INPUT_TIMERS) eqn:C; [ | discriminate ].
    intros V. exists h. auto.
  - intros [h [-> [-> V]]]. exact V.
  - intros ->. destruct (resource_header request); reflexivity.
  - intros c2 request2 response2. eexists. split; reflexivity.
Qed.

(** **** Rules for [spends] *)

Lemma count_recognition_complete_app (l1 l2 : list outbound) :
  count_recognition_complete (l1 ++ l2) =
    (count_recognition_complete l1 + count_recognition_complete l2)%nat.
Proof.
  unfold count_recognition_complete. rewrite filter_app, length_app.
  reflexivity.
Qed.

Lemma spends_ret {A} (P : vosk_recog_channel_t -> Prop) (a : A)
    (R : A -> vosk_recog_channel_t -> Prop) :
  (forall c, P c -> R a c) -> spends P (ret a) R.
Proof.
  intros H c Pc. split; [ cbn; lia | ].
  cbn. intros a' c' E. injection E as <- <-. auto.
Qed.

Lemma spends_bind {A B} P (m : M A) (f : A -> M B) R1 R2 :
  spends P m R1 ->
  (forall a, spends (R1 a) (f a) R2) ->
  spends P (bind m f) R2.
Proof.
  intros Hm Hf c Pc. destruct (Hm c Pc) as [Sm Fm].
  unfold bind. cbv zeta.
  destruct (final (m c)) as [[a c1] | ] eqn:E; cbn [sent final].
  - destruct (Hf a c1 (Fm a c1 eq_refl)) as [Sf Ff]. split; [ | exact Ff ].
    rewrite count_recognition_complete_app. lia.
  - split; [ lia | discriminate ].
Qed.

Lemma spends_get (P : vosk_recog_channel_t -> Prop) :
  spends P get (fun a c => P c /\ a = c).
Proof.
  intros c Pc. split; [ cbn; lia | ].
  cbn. intros a c' E. injection E as <- <-. auto.
Qed.

Lemma spends_modify (P P' : vosk_recog_channel_t -> Prop) f :
  (forall c, P c -> P' (f c) /\ (budget (f c) <= budget c)%nat) ->
  spends P (modify f) (fun _ => P').
Proof.
  intros H c Pc. destruct (H c Pc) as [P'c Hb]. split; [ cbn; lia | ].
  cbn. intros a c' E. injection E as _ <-. exact P'c.
Qed.

Lemma spends_send (P : vosk_recog_channel_t -> Prop) o :
  is_recognition_complete o = false -> spends P (send o) (fun _ => P).
Proof.
  intros H c Pc. split.
  - unfold count_recognition_complete; cbn. rewrite H. cbn. lia.
  - cbn. intros a c' E. injection E as _ <-. exact Pc.
Qed.

Lemma spends_null {A} P (R : A -> vosk_recog_channel_t -> Prop) :
  spends P (@null_dereference L A) R.
Proof.
  intros c Pc. split; [ cbn; lia | ]. cbn. discriminate.
Qed.

Lemma spends_overflow {A} P (R : A -> vosk_recog_channel_t -> Prop) :
  spends P (@buffer_overflow L A) R.
Proof.
  intros c Pc. split; [ cbn; lia | ]. cbn. discriminate.
Qed.

Lemma spends_false {A} (P : vosk_recog_channel_t -> Prop) (m : M A) R :
  (forall c, P c -> False) -> spends P m R.
Proof. intros H c Pc. destruct (H c Pc). Qed.

Lemma spends_weaken {A} (P P' : vosk_recog_channel_t -> Prop) (m : M A)
    (R R' : A -> vosk_recog_channel_t -> Prop) :
  spends P' m R' ->
  (forall c, P c -> P' c) ->
  (forall a c, R' a c -> R a c) ->
  spends P m R.
Proof.
  intros H HP HR c Pc. destruct (H c (HP c Pc)) as [S F].
  split; [ exact S | ]. intros a c' E. apply HR, (F a c' E).
Qed.

Lemma spends_assert {A} (P : vosk_recog_channel_t -> Prop) (X : Prop) (m : M A) R :
  (forall c, P c -> X) -> (X -> spends P m R) -> spends P m R.
Proof. intros HX H c Pc. apply (H (HX c Pc) c Pc). Qed.

Lemma spends_forget {A} (P X : vosk_recog_channel_t -> Prop) (m : M A) R :
  spends P m R -> spends (fun c => P c /\ X c) m R.
Proof.
  intros H. eapply spends_weaken; [ exact H | | auto ]. intros c [Pc _]. exact Pc.
Qed.

Lemma spends_get_bind {B} (P : vosk_recog_channel_t -> Prop)
    (f : vosk_recog_channel_t -> M B) R :
  (forall a, spends (fun c => P c /\ a = c) (f a) R) ->
  spends P (bind get f) R.
Proof.
  intros H. eapply spends_bind; [ apply spends_get | exact H ].
Qed.

Lemma spends_seq_modify {B} (P : vosk_recog_channel_t -> Prop) g (m : M B) R :
  (forall c, P c -> P (g c) /\ (budget (g c) <= budget c)%nat) ->
  spends P m R ->
  spends P (bind (modify g) (fun _ => m)) R.
Proof.
  intros Hg Hm. eapply spends_bind; [ apply (spends_modify P P); exact Hg | ].
  intros u. exact Hm.
Qed.

Lemma spends_then_ret {A B} (P : vosk_recog_channel_t -> Prop) (m : M A) (b : B) :
  spends P m (fun _ c => P c) ->
  spends P (bind m (fun _ => ret b)) (fun _ c => P c).
Proof.
  intros H. eapply spends_bind; [ exact H | ].
  intros a. apply spends_ret. auto.
Qed.

Lemma spends_message_send (P : vosk_recog_channel_t -> Prop) message :
  is_recognition_complete (channel_message_send message) = false ->
  spends P (mrcp_engine_channel_message_send message) (fun _ c => P c).
Proof.
  intros H. unfold mrcp_engine_channel_message_send.
  apply spends_then_ret. apply spends_send. exact H.
Qed.

(** **** At most one completion for an utterance *)

Lemma stop_is_response_stable (c : vosk_recog_channel_t) :
  stop_is_response c ->
  (forall v, stop_is_response (set_detector v c)
             /\ (budget (set_detector v c) <= budget c)%nat)
  /\ (forall v, stop_is_response (set_audio_out v c)
                /\ (budget (set_audio_out v c) <= budget c)%nat)
  /\ (forall v, stop_is_response (set_recognizer v c)
                /\ (budget (set_recognizer v c) <= budget c)%nat)
  /\ (forall v, stop_is_response (set_grammar v c)
                /\ (budget (set_grammar v c) <= budget c)%nat)
  /\ (forall v, stop_is_response (set_timers_started v c)
                /\ (budget (set_timers_started v c) <= budget c)%nat)
  /\ (stop_is_response (set_recog_request None c)
      /\ (budget (set_recog_request None c) <= budget c)%nat)
  /\ (stop_is_response (set_stop_response None c)
      /\ (budget (set_stop_response None c) <= budget c)%nat)
  /\ (forall request,
        stop_is_response (set_stop_response (Some (mrcp_response_create request)) c)
        /\ (budget (set_stop_response (Some (mrcp_response_create request)) c)
            <= budget c)%nat).
Proof.
  intros I. unfold stop_is_response, budget in *; cbn.
  repeat split; intros; try (apply I; assumption); try lia; try discriminate.
  match goal with H : Some _ = Some _ |- _ => injection H as <- end.
  reflexivity.
Qed.

Lemma write_audio_spends (frame : mpf_frame_t) (c : vosk_recog_channel_t) :
  stop_is_response c ->
  stop_is_response (write_audio frame c)
  /\ (budget (write_audio frame c) <= budget c)%nat.
Proof.
  intros I. unfold write_audio. destruct (audio_out c); [ | auto ].
  apply stop_is_response_stable, I.
Qed.

(** [vosk_recog_recognition_complete] sends one completion when a request
    is active, and clears the request; with no request it sends none. *)
Lemma recognition_complete_spends
    (cause : mrcp_recog_completion_cause_e) (early : option string) :
  spends stop_is_response (vosk_recog_recognition_complete cause early)
         (fun _ c => stop_is_response c).
Proof.
  intros c I. unfold vosk_recog_recognition_complete. effects.
  unfold budget at 2.
  destruct (recog_request c) as [request | ]; cbn;
    [ | split; [ lia | discriminate ] ].
  destruct cause; cbn;
    try (split;
         [ cbn; lia
         | intros a c' E; injection E as <- <-;
           apply stop_is_response_stable, I ]).
  destruct (recognizer c) as [rec | ]; cbn;
    [ | split; [ lia | discriminate ] ].
  destruct (vosk_recognizer_result rec) as [rec' result]; cbn.
  destruct early as [e | ]; cbn;
    [ unfold written_to; destruct (_ <=? _); cbn;
      [ | split; [ lia | discriminate ] ] | ];
    (split;
     [ cbn; lia
     | intros a c' E; injection E as <- <-;
       apply stop_is_response_stable, stop_is_response_stable, I ]).
Qed.

Lemma start_of_input_spends :
  spends stop_is_response vosk_recog_start_of_input (fun _ c => stop_is_response c).
Proof.
  intros c I. unfold vosk_recog_start_of_input. effects.
  destruct (recog_request c) as [request | ]; cbn.
  - split; [ unfold budget; cbn; lia | ].
    intros a c' E; injection E as <- <-. exact I.
  - split; [ lia | discriminate ].
Qed.

Lemma feed_recognizer_spends (frame : mpf_frame_t) (end_ : Z) :
  spends stop_is_response (feed_recognizer frame end_)
         (fun _ c => stop_is_response c).
Proof.
  unfold feed_recognizer. apply spends_get_bind. intros c0.
  apply spends_forget.
  destruct (recognizer c0) as [rec | ]; [ | apply spends_ret; auto ].
  destruct (vosk_recognizer_accept_waveform rec (codec_frame frame)) as [rec1 r].
  apply spends_seq_modify; [ intros; apply stop_is_response_stable; assumption | ].
  destruct (r =? 0); cbn.
  - destruct (end_ =? 0); [ | apply spends_ret; auto ].
    destruct (vosk_recognizer_partial_result rec1) as [rec2 result].
    apply spends_seq_modify; [ intros; apply stop_is_response_stable; assumption | ].
    apply spends_get_bind. intros c1. apply spends_forget.
    destruct (prase_grammar (grammar c1) result) as [early | | ]; cbn.
    + eapply spends_bind; [ apply spends_ret; intros c Pc; exact Pc | ].
      intros [id | ]; cbn.
      * destruct (earlyres id) as [buffer | | ];
          [ | apply spends_null | apply spends_overflow ].
        apply spends_then_ret, recognition_complete_spends.
      * apply spends_ret. auto.
    + eapply spends_bind; [ apply (spends_null _ (fun _ _ => False)) | ].
      intros a. apply spends_false. auto.
    + eapply spends_bind; [ apply (spends_overflow _ (fun _ _ => False)) | ].
      intros a. apply spends_false. auto.
  - apply spends_then_ret, recognition_complete_spends.
Qed.

Lemma on_detector_event_spends (ev : mpf_detector_event_e) :
  spends stop_is_response (on_detector_event ev) (fun _ c => stop_is_response c).
Proof.
  destruct ev; cbn.
  - apply spends_ret. auto.
  - apply spends_then_ret, start_of_input_spends.
  - apply spends_then_ret, recognition_complete_spends.
  - apply spends_get_bind. intros c1. apply spends_forget.
    destruct (timers_started c1).
    + apply spends_then_ret, recognition_complete_spends.
    + apply spends_ret. auto.
Qed.

(** A frame sends at most the completion that the utterance in progress
    still allows. *)
Lemma stream_write_spends (frame : mpf_frame_t) :
  spends stop_is_response (vosk_recog_stream_write frame)
         (fun _ c => stop_is_response c).
Proof.
  unfold vosk_recog_stream_write. apply spends_get_bind. intros c0.
  apply (spends_assert _ (stop_is_response c0)); [ intros c [Pc ->]; exact Pc | ].
  intros I0. apply spends_forget.
  destruct (stop_response c0) as [response | ] eqn:S0.
  - eapply spends_bind with (R1 := fun _ c => stop_is_response c).
    + apply spends_message_send. cbn. rewrite (I0 response S0). reflexivity.
    + intros b.
      apply spends_seq_modify; [ intros; apply stop_is_response_stable; assumption | ].
      apply spends_seq_modify; [ intros; apply stop_is_response_stable; assumption | ].
      apply spends_ret. auto.
  - destruct (recog_request c0); [ | apply spends_ret; auto ].
    destruct (mpf_activity_detector_process (detector c0) frame) as [det ev].
    apply spends_seq_modify; [ intros; apply stop_is_response_stable; assumption | ].
    eapply spends_bind; [ apply on_detector_event_spends | ].
    intros e.
    apply spends_seq_modify; [ intros; apply write_audio_spends; assumption | ].
    apply spends_then_ret, feed_recognizer_spends.
Qed.

Lemma define_grammar_spends (request response : mrcp_message_t) :
  spends stop_is_response (define_grammar request response)
         (fun exit c => stop_is_response c /\ exit_with response exit).
Proof.
  assert (Hret : forall b,
             spends stop_is_response (ret (early_return b))
               (fun exit c => stop_is_response c /\ exit_with response exit)).
  { intros b. apply spends_ret. cbn. auto. }
  unfold define_grammar.
  destruct (regcomp grammar_pattern) as [reg | ]; [ | apply Hret ].
  destruct (regexec reg (body request)) as [[rm_so rm_eo] | ]; [ | apply Hret ].
  destruct (4096 <=? rm_eo - rm_so); [ apply Hret | ].
  destruct apr_xml_parser_create as [parser | ]; [ | apply Hret ].
  destruct (apr_xml_parser_feed parser (body request)) as [parser' ok].
  destruct ok; cbn; [ | apply Hret ].
  destruct (apr_xml_parser_done parser') as [doc | ]; [ | apply Hret ].
  apply spends_seq_modify; [ intros; apply stop_is_response_stable; assumption | ].
  apply spends_get_bind. intros c1. apply spends_forget.
  destruct (check_grammar (grammar c1)); [ | apply Hret ].
  apply spends_ret. cbn. auto.
Qed.

(** A request that does not start an utterance sends no completion. *)
Lemma request_dispatch_spends (request : mrcp_message_t) :
  method_id (start_line request) <> METHOD RECOGNIZER_RECOGNIZE ->
  spends stop_is_response (vosk_recog_channel_request_dispatch request)
         (fun _ c => stop_is_response c).
Proof.
  intros NR. unfold vosk_recog_channel_request_dispatch.
  set (response := mrcp_response_create request).
  assert (Hfall : spends stop_is_response (ret (fall_out false response))
                    (fun exit c => stop_is_response c /\ exit_with response exit)).
  { apply spends_ret. cbn. auto. }
  eapply spends_bind
    with (R1 := fun exit c => stop_is_response c /\ exit_with response exit).
  - destruct (method_id (start_line request)) as [m | e]; [ | exact Hfall ].
    destruct m; try exact Hfall.
    + apply define_grammar_spends.
    + contradiction NR. reflexivity.
    + eapply spends_bind with (R1 := fun _ c => stop_is_response c).
      * unfold vosk_recog_channel_timers_start.
        apply spends_seq_modify;
          [ intros; apply stop_is_response_stable; assumption | ].
        apply spends_message_send. reflexivity.
      * intros b. apply spends_ret. cbn. auto.
    + eapply spends_bind with (R1 := fun _ c => stop_is_response c).
      * unfold vosk_recog_channel_stop.
        apply spends_seq_modify;
          [ intros; apply stop_is_response_stable; assumption | ].
        apply spends_ret. auto.
      * intros b. apply spends_ret. cbn. auto.
  - intros [b | processed r].
    + apply spends_ret. intros c [I _]. exact I.
    + apply (spends_assert _ (r = response)); [ intros c [_ E]; exact E | ].
      intros ->. apply spends_forget.
      apply spends_then_ret.
      destruct processed; cbn.
      * apply spends_ret. auto.
      * apply spends_then_ret, spends_message_send. reflexivity.
Qed.

Lemma handle_spends (i : input) :
  starts_utterance i = false ->
  spends stop_is_response (handle i) (fun _ c => stop_is_response c).
Proof.
  destruct i as [msg | frame]; cbn [handle starts_utterance];
    [ | intros _; apply stream_write_spends ].
  unfold vosk_recog_msg_process.
  destruct (msg_type msg); intros NS.
  - apply spends_then_ret, spends_send. reflexivity.
  - apply spends_seq_modify; [ intros; apply stop_is_response_stable; assumption | ].
    apply spends_seq_modify; [ intros; apply stop_is_response_stable; assumption | ].
    apply spends_then_ret, spends_send. reflexivity.
  - destruct (msg_request msg) as [request | ]; [ | apply spends_null ].
    apply spends_then_ret, request_dispatch_spends.
    intros E. rewrite E in NS. discriminate.
Qed.

Lemma run_spends (inputs : list input) :
  Forall (fun i => starts_utterance i = false) inputs ->
  spends stop_is_response (run inputs) (fun _ c => stop_is_response c).
Proof.
  induction 1 as [ | i inputs Hi _ IH ]; cbn [run].
  - apply spends_ret. auto.
  - eapply spends_bind; [ apply handle_spends, Hi | ].
    intros b. exact IH.
Qed.

(** **** Rules for [settles] *)

Lemma settles_ret {A} (P : vosk_recog_channel_t -> Prop) (a : A)
    (R : A -> vosk_recog_channel_t -> Prop) :
  (forall c, P c -> R a c) -> settles P (ret a) R.
Proof.
  intros H c Pc a' c' E. cbn in *. injection E as <- <-.
  split; [ reflexivity | auto ].
Qed.

Lemma settles_bind {A B} P (m : M A) (f : A -> M B) R1 R2 :
  settles P m R1 ->
  (forall a, settles (R1 a) (f a) R2) ->
  settles P (bind m f) R2.
Proof.
  intros Hm Hf c Pc b c2. unfold bind. cbv zeta.
  destruct (final (m c)) as [[a c1] | ] eqn:E; cbn [sent final];
    [ | discriminate ].
  intros F. destruct (Hm c Pc a c1 E) as [Cm Ra].
  destruct (Hf a c1 Ra b c2 F) as [Cf Rb].
  split; [ | exact Rb ]. rewrite count_recognition_complete_app. lia.
Qed.

Lemma settles_get (P : vosk_recog_channel_t -> Prop) :
  settles P get (fun a c => P c /\ a = c).
Proof.
  intros c Pc a c' E. cbn in *. injection E as <- <-.
  split; [ reflexivity | auto ].
Qed.

Lemma settles_modify (P P' : vosk_recog_channel_t -> Prop) f :
  (forall c, P c -> P' (f c) /\ budget (f c) = budget c) ->
  settles P (modify f) (fun _ => P').
Proof.
  intros H c Pc a c' E. destruct (H c Pc) as [P'c Hb].
  cbn in *. injection E as _ <-. split; [ exact Hb | exact P'c ].
Qed.

Lemma settles_send (P : vosk_recog_channel_t -> Prop) o :
  is_recognition_complete o = false -> settles P (send o) (fun _ => P).
Proof.
  intros H c Pc a c' E. cbn in E. injection E as _ <-.
  split; [ | exact Pc ].
  unfold count_recognition_complete; cbn. rewrite H. reflexivity.
Qed.

(** A run that does not return settles anything. *)
Lemma settles_null {A} P (R : A -> vosk_recog_channel_t -> Prop) :
  settles P (@null_dereference L A) R.
Proof. intros c Pc a c' E. discriminate. Qed.

Lemma settles_overflow {A} P (R : A -> vosk_recog_channel_t -> Prop) :
  settles P (@buffer_overflow L A) R.
Proof. intros c Pc a c' E. discriminate. Qed.

Lemma settles_false {A} (P : vosk_recog_channel_t -> Prop) (m : M A) R :
  (forall c, P c -> False) -> settles P m R.
Proof. intros H c Pc. destruct (H c Pc). Qed.

Lemma settles_weaken {A} (P P' : vosk_recog_channel_t -> Prop) (m : M A)
    (R R' : A -> vosk_recog_channel_t -> Prop) :
  settles P' m R' ->
  (forall c, P c -> P' c) ->
  (forall a c, R' a c -> R a c) ->
  settles P m R.
Proof.
  intros H HP HR c Pc a c' E. destruct (H c (HP c Pc) a c' E) as [C Ra].
  split; [ exact C | apply HR, Ra ].
Qed.

Lemma settles_assert {A} (P : vosk_recog_channel_t -> Prop) (X : Prop) (m : M A) R :
  (forall c, P c -> X) -> (X -> settles P m R) -> settles P m R.
Proof. intros HX H c Pc. apply (H (HX c Pc) c Pc). Qed.

Lemma settles_forget {A} (P X : vosk_recog_channel_t -> Prop) (m : M A) R :
  settles P m R -> settles (fun c => P c /\ X c) m R.
Proof.
  intros H. eapply settles_weaken; [ exact H | | auto ]. intros c [Pc _]. exact Pc.
Qed.

Lemma settles_get_bind {B} (P : vosk_recog_channel_t -> Prop)
    (f : vosk_recog_channel_t -> M B) R :
  (forall a, settles (fun c => P c /\ a = c) (f a) R) ->
  settles P (bind get f) R.
Proof.
  intros H. eapply settles_bind; [ apply settles_get | exact H ].
Qed.

Lemma settles_seq_modify {B} (P : vosk_recog_channel_t -> Prop) g (m : M B) R :
  (forall c, P c -> P (g c) /\ budget (g c) = budget c) ->
  settles P m R ->
  settles P (bind (modify g) (fun _ => m)) R.
Proof.
  intros Hg Hm. eapply settles_bind; [ apply (settles_modify P P); exact Hg | ].
  intros u. exact Hm.
Qed.

Lemma settles_then_ret {A B} (P : vosk_recog_channel_t -> Prop) (m : M A) (b : B) :
  settles P m (fun _ c => P c) ->
  settles P (bind m (fun _ => ret b)) (fun _ c => P c).
Proof.
  intros H. eapply settles_bind; [ exact H | ].
  intros a. apply settles_ret. auto.
Qed.

Lemma settles_message_send (P : vosk_recog_channel_t -> Prop) message :
  is_recognition_complete (channel_message_send message) = false ->
  settles P (mrcp_engine_channel_message_send message) (fun _ c => P c).
Proof.
  intros H. unfold mrcp_engine_channel_message_send.
  apply settles_then_ret. apply settles_send. exact H.
Qed.

(** **** One completion for an utterance that is not stopped *)

Lemma no_stop_pending_stable (c : vosk_recog_channel_t) :
  no_stop_pending c ->
  (forall v, no_stop_pending (set_detector v c)
             /\ budget (set_detector v c) = budget c)
  /\ (forall v, no_stop_pending (set_audio_out v c)
                /\ budget (set_audio_out v c) = budget c)
  /\ (forall v, no_stop_pending (set_recognizer v c)
                /\ budget (set_recognizer v c) = budget c)
  /\ (forall v, no_stop_pending (set_grammar v c)
                /\ budget (set_grammar v c) = budget c)
  /\ (forall v, no_stop_pending (set_timers_started v c)
                /\ budget (set_timers_started v c) = budget c).
Proof. intros I. repeat split; exact I. Qed.

Lemma write_audio_settles (frame : mpf_frame_t) (c : vosk_recog_channel_t) :
  no_stop_pending c ->
  no_stop_pending (write_audio frame c)
  /\ budget (write_audio frame c) = budget c.
Proof.
  intros I. unfold write_audio. destruct (audio_out c); [ | auto ].
  apply no_stop_pending_stable, I.
Qed.

(** When [vosk_recog_recognition_complete] returns, it has sent one
    completion and cleared the request that was active. *)
Lemma recognition_complete_settles
    (cause : mrcp_recog_completion_cause_e) (early : option string) :
  settles no_stop_pending (vosk_recog_recognition_complete cause early)
          (fun _ c => no_stop_pending c).
Proof.
  intros c I. unfold vosk_recog_recognition_complete. effects.
  unfold budget at 2.
  destruct (recog_request c) as [request | ]; cbn; [ | discriminate ].
  destruct cause; cbn;
    try (intros a c' E; injection E as <- <-; split; [ reflexivity | exact I ]).
  destruct (recognizer c) as [rec | ]; cbn; [ | discriminate ].
  destruct (vosk_recognizer_result rec) as [rec' result]; cbn.
  destruct early as [e | ]; cbn;
    [ unfold written_to; destruct (_ <=? _); cbn; [ | discriminate ] | ];
    (intros a c' E; injection E as <- <-; split; [ reflexivity | exact I ]).
Qed.

Lemma start_of_input_settles :
  settles no_stop_pending vosk_recog_start_of_input
          (fun _ c => no_stop_pending c).
Proof.
  intros c I. unfold vosk_recog_start_of_input. effects.
  destruct (recog_request c) as [request | ]; cbn; [ | discriminate ].
  intros a c' E; injection E as <- <-. split; [ reflexivity | exact I ].
Qed.

Lemma feed_recognizer_settles (frame : mpf_frame_t) (end_ : Z) :
  settles no_stop_pending (feed_recognizer frame end_)
          (fun _ c => no_stop_pending c).
Proof.
  unfold feed_recognizer. apply settles_get_bind. intros c0.
  apply settles_forget.
  destruct (recognizer c0) as [rec | ]; [ | apply settles_ret; auto ].
  destruct (vosk_recognizer_accept_waveform rec (codec_frame frame)) as [rec1 r].
  apply settles_seq_modify; [ intros; apply no_stop_pending_stable; assumption | ].
  destruct (r =? 0); cbn.
  - destruct (end_ =? 0); [ | apply settles_ret; auto ].
    destruct (vosk_recognizer_partial_result rec1) as [rec2 result].
    apply settles_seq_modify;
      [ intros; apply no_stop_pending_stable; assumption | ].
    apply settles_get_bind. intros c1. apply settles_forget.
    destruct (prase_grammar (grammar c1) result) as [early | | ]; cbn.
    + eapply settles_bind; [ apply settles_ret; intros c Pc; exact Pc | ].
      intros [id | ]; cbn.
      * destruct (earlyres id) as [buffer | | ];
          [ | apply settles_null | apply settles_overflow ].
        apply settles_then_ret, recognition_complete_settles.
      * apply settles_ret. auto.
    + eapply settles_bind; [ apply (settles_null _ (fun _ _ => False)) | ].
      intros a. apply settles_false. auto.
    + eapply settles_bind; [ apply (settles_overflow _ (fun _ _ => False)) | ].
      intros a. apply settles_false. auto.
  - apply settles_then_ret, recognition_complete_settles.
Qed.

Lemma on_detector_event_settles (ev : mpf_detector_event_e) :
  settles no_stop_pending (on_detector_event ev)
          (fun _ c => no_stop_pending c).
Proof.
  destruct ev; cbn.
  - apply settles_ret. auto.
  - apply settles_then_ret, start_of_input_settles.
  - apply settles_then_ret, recognition_complete_settles.
  - apply settles_get_bind. intros c1. apply settles_forget.
    destruct (timers_started c1).
    + apply settles_then_ret, recognition_complete_settles.
    + apply settles_ret. auto.
Qed.

(** With no STOP pending, a frame that is processed to the end has sent one
    completion when it cleared the request, and none otherwise. *)
Lemma stream_write_settles (frame : mpf_frame_t) :
  settles no_stop_pending (vosk_recog_stream_write frame)
          (fun _ c => no_stop_pending c).
Proof.
  unfold vosk_recog_stream_write. apply settles_get_bind. intros c0.
  apply (settles_assert _ (no_stop_pending c0)); [ intros c [Pc ->]; exact Pc | ].
  intros I0. apply settles_forget. unfold no_stop_pending in I0. rewrite I0.
  destruct (recog_request c0); [ | apply settles_ret; auto ].
  destruct (mpf_activity_detector_process (detector c0) frame) as [det ev].
  apply settles_seq_modify; [ intros; apply no_stop_pending_stable; assumption | ].
  eapply settles_bind; [ apply on_detector_event_settles | ].
  intros e.
  apply settles_seq_modify; [ intros; apply write_audio_settles; assumption | ].
  apply settles_then_ret, feed_recognizer_settles.
Qed.

Lemma define_grammar_settles (request response : mrcp_message_t) :
  settles no_stop_pending (define_grammar request response)
          (fun exit c => no_stop_pending c /\ exit_with response exit).
Proof.
  assert (Hret : forall b,
             settles no_stop_pending (ret (early_return b))
               (fun exit c => no_stop_pending c /\ exit_with response exit)).
  { intros b. apply settles_ret. cbn. auto. }
  unfold define_grammar.
  destruct (regcomp grammar_pattern) as [reg | ]; [ | apply Hret ].
  destruct (regexec reg (body request)) as [[rm_so rm_eo] | ]; [ | apply Hret ].
  destruct (4096 <=? rm_eo - rm_so); [ apply Hret | ].
  destruct apr_xml_parser_create as [parser | ]; [ | apply Hret ].
  destruct (apr_xml_parser_feed parser (body request)) as [parser' ok].
  destruct ok; cbn; [ | apply Hret ].
  destruct (apr_xml_parser_done parser') as [doc | ]; [ | apply Hret ].
  apply settles_seq_modify; [ intros; apply no_stop_pending_stable; assumption | ].
  apply settles_get_bind. intros c1. apply settles_forget.
  destruct (check_grammar (grammar c1)); [ | apply Hret ].
  apply settles_ret. cbn. auto.
Qed.

(** A request that neither starts nor stops an utterance sends no
    completion and leaves the request as it is. *)
Lemma request_dispatch_settles (request : mrcp_message_t) :
  method_id (start_line request) <> METHOD RECOGNIZER_RECOGNIZE ->
  method_id (start_line request) <> METHOD RECOGNIZER_STOP ->
  settles no_stop_pending (vosk_recog_channel_request_dispatch request)
          (fun _ c => no_stop_pending c).
Proof.
  intros NR NS. unfold vosk_recog_channel_request_dispatch.
  set (response := mrcp_response_create request).
  assert (Hfall : settles no_stop_pending (ret (fall_out false response))
                    (fun exit c => no_stop_pending c /\ exit_with response exit)).
  { apply settles_ret. cbn. auto. }
  eapply settles_bind
    with (R1 := fun exit c => no_stop_pending c /\ exit_with response exit).
  - destruct (method_id (start_line request)) as [m | e]; [ | exact Hfall ].
    destruct m; try exact Hfall.
    + apply define_grammar_settles.
    + contradiction NR. reflexivity.
    + eapply settles_bind with (R1 := fun _ c => no_stop_pending c).
      * unfold vosk_recog_channel_timers_start.
        apply settles_seq_modify;
          [ intros; apply no_stop_pending_stable; assumption | ].
        apply settles_message_send. reflexivity.
      * intros b. apply settles_ret. cbn. auto.
    + contradiction NS. reflexivity.
  - intros [b | processed r].
    + apply settles_ret. intros c [I _]. exact I.
    + apply (settles_assert _ (r = response)); [ intros c [_ E]; exact E | ].
      intros ->. apply settles_forget.
      apply settles_then_ret.
      destruct processed; cbn.
      * apply settles_ret. auto.
      * apply settles_then_ret, settles_message_send. reflexivity.
Qed.

Lemma handle_settles (i : input) :
  starts_utterance i = false ->
  stops_utterance i = false ->
  settles no_stop_pending (handle i) (fun _ c => no_stop_pending c).
Proof.
  destruct i as [msg | frame]; cbn [handle starts_utterance stops_utterance];
    [ | intros _ _; apply stream_write_settles ].
  unfold vosk_recog_msg_process.
  destruct (msg_type msg); intros NR NS.
  - apply settles_then_ret, settles_send. reflexivity.
  - apply settles_seq_modify; [ intros; apply no_stop_pending_stable; assumption | ].
    apply settles_seq_modify; [ intros; apply no_stop_pending_stable; assumption | ].
    apply settles_then_ret, settles_send. reflexivity.
  - destruct (msg_request msg) as [request | ]; [ | apply settles_null ].
    apply settles_then_ret, request_dispatch_settles.
    + intros E. rewrite E in NR. discriminate.
    + intros E. rewrite E in NS. discriminate.
Qed.

Lemma run_settles (inputs : list input) :
  Forall (fun i => starts_utterance i = false) inputs ->
  Forall (fun i => stops_utterance i = false) inputs ->
  settles no_stop_pending (run inputs) (fun _ c => no_stop_pending c).
Proof.
  induction 1 as [ | i inputs Hi _ IH ]; intros NS; cbn [run].
  - apply settles_ret. auto.
  - inversion NS as [ | i' inputs' Hs NS' ]; subst.
    eapply settles_bind; [ apply handle_settles; assumption | ].
    intros b. apply IH, NS'.
Qed.

(** C1 (amended). The channel sends exactly one RECOGNITION-COMPLETE event
    for an utterance, unless the utterance is stopped.  Over any sequence of
    frames and requests that starts no new utterance: at most one completion
    is sent, none when no request is active, and after the event the request
    is cleared, so none follows it.  When no STOP is pending and the
    sequence holds no STOP request either, and it is processed to the end:
    one completion has been sent when the request that was active has been
    cleared, and none while it is still active, so no utterance ends without
    its completion.  A frame that finds a STOP response pending sends that
    response, which is no completion, and clears the request. *)
Theorem completion_exactly_once_unless_stopped
    (inputs : list input) (c : vosk_recog_channel_t) :
  stop_is_response c ->
  Forall (fun i => starts_utterance i = false) inputs ->
  (count_recognition_complete (sent (run inputs c)) <= 1)%nat
  /\ (recog_request c = None ->
      count_recognition_complete (sent (run inputs c)) = 0%nat)
  /\ (forall u c',
        final (run inputs c) = Some (u, c') ->
        count_recognition_complete (sent (run inputs c)) = 1%nat ->
        recog_request c' = None)
  /\ (stop_response c = None ->
      Forall (fun i => stops_utterance i = false) inputs ->
      forall u c',
        final (run inputs c) = Some (u, c') ->
        stop_response c' = None
        /\ (recog_request c <> None -> recog_request c' = None ->
            count_recognition_complete (sent (run inputs c)) = 1%nat)
        /\ (recog_request c' <> None ->
            recog_request c <> None
            /\ count_recognition_complete (sent (run inputs c)) = 0%nat))
  /\ (forall response frame,
        stop_response c = Some response ->
        vosk_recog_stream_write frame c
        = mkOutcome [channel_message_send response]
            (Some (true, set_recog_request None (set_stop_response None c)))
        /\ is_recognition_complete (channel_message_send response) = false).
Proof.
  intros I NR. destruct (run_spends inputs NR c I) as [B _].
  assert (Hb : (budget c <= 1)%nat)
    by (unfold budget; destruct (recog_request c); lia).
  split; [ lia | ].
  split; [ intros E; unfold budget in B at 2; rewrite E in B; lia | ].
  split.
  { intros u c' F C1. rewrite F in B. unfold budget in B at 1.
    destruct (recog_request c'); [ lia | reflexivity ]. }
  split.
  - intros S NS u c' F.
    destruct (run_settles inputs NR NS c S u c' F) as [E S'].
    split; [ exact S' | ]. unfold budget in E. split.
    + intros Hc Hc'. rewrite Hc' in E.
      destruct (recog_request c); [ lia | contradiction Hc; reflexivity ].
    + intros Hc'.
      destruct (recog_request c') as [r' | ]; [ | contradiction Hc'; reflexivity ].
      destruct (recog_request c); [ split; [ discriminate | lia ] | lia ].
  - intros response frame S. split.
    + apply stream_write_pending_stop, S.
    + cbn. rewrite (I response S). reflexivity.
Qed.

(** The frame on which the detector ends the utterance and the recognizer
    reports an endpoint as well: the first completion is sent and clears the
    request, and the second call reads through the cleared request. *)
Lemma inactivity_and_endpoint
    (c : vosk_recog_channel_t) (frame : mpf_frame_t) (request : mrcp_message_t)
    (det : mpf_activity_detector_t) (rec rec1 : VoskRecognizer) (r : Z) :
  stop_response c = None ->
  recog_request c = Some request ->
  mpf_activity_detector_process (detector c) frame
    = (det, MPF_DETECTOR_EVENT_INACTIVITY) ->
  recognizer c = Some rec ->
  vosk_recognizer_accept_waveform (fst (vosk_recognizer_result rec))
                                  (codec_frame frame) = (rec1, r) ->
  r <> 0 ->
  exists m,
    is_recognition_complete (channel_message_send m) = true
    /\ vosk_recog_stream_write frame c = mkOutcome [channel_message_send m] None.
Proof.
  intros S R D V A NZ.
  unfold vosk_recog_stream_write. effects. rewrite S, R, D. cbn.
  unfold vosk_recog_recognition_complete at 1. effects. rewrite R, V. cbn.
  destruct (vosk_recognizer_result rec) as [rec' result] eqn:VR. cbn in *.
  unfold feed_recognizer, write_audio. effects.
  eexists. split; [ | destruct (audio_out c); cbn; rewrite A; cbn;
                      (destruct (r =? 0) eqn:Z0; [ apply Z.eqb_eq in Z0; contradiction | ]);
                      cbn; reflexivity ].
  reflexivity.
Qed.

(** **** Responses *)

(** A STOP request followed by a frame: the only message is the response
    created for the request, sent by the frame. *)
Lemma stop_then_frame (c : vosk_recog_channel_t) (request : mrcp_message_t)
    (frame : mpf_frame_t) :
  method_id (start_line request) = METHOD RECOGNIZER_STOP ->
  run [ task_msg (mkMsg vosk_recog_MSG_REQUEST_PROCESS (Some request));
        audio frame ] c
  = mkOutcome [channel_message_send (mrcp_response_create request)]
              (Some (tt, set_recog_request None (set_stop_response None c))).
Proof.
  intros E. cbn [run handle]. unfold vosk_recog_msg_process; cbn [msg_type msg_request].
  unfold bind at 1 2. rewrite (dispatch_stop c request E). cbn.
  reflexivity.
Qed.

(** X15. Every request other than DEFINE-GRAMMAR and STOP is answered by the
    dispatcher itself, with exactly one response. *)
Lemma dispatch_sends_one_response (c : vosk_recog_channel_t)
    (request : mrcp_message_t) :
  method_id (start_line request) <> METHOD RECOGNIZER_DEFINE_GRAMMAR ->
  method_id (start_line request) <> METHOD RECOGNIZER_STOP ->
  exists r c',
    vosk_recog_channel_request_dispatch request c
      = mkOutcome [channel_message_send r] (Some (true, c'))
    /\ is_response (channel_message_send r) = true.
Proof.
  intros ND NS. unfold vosk_recog_channel_request_dispatch.
  destruct (method_id (start_line request)) as [m | e];
    [ destruct m | ];
    try (contradiction ND; reflexivity);
    try (contradiction NS; reflexivity);
    try (eexists; eexists; split; reflexivity).
  unfold vosk_recog_channel_recognize. effects.
  destruct (sink_stream_codec c); eexists; eexists; split; reflexivity.
Qed.

End ChannelFacts.

(** The properties above, on the scripted collaborators. *)

Section ScriptedRuns.

Import Vosk Scenario.
#[local] Existing Instance Scripted.scripted_lib.

(** C1, exactly one completion for every utterance, does not hold of an
    utterance that is stopped: the request is accepted, three silent frames
    are processed, the STOP request is answered on the next frame, and no
    RECOGNITION-COMPLETE event is sent although the request is over. *)
Lemma stopped_utterance_sends_no_completion :
  recog_request (after (firstn 2 stopped_utterance) (channel [] silent))
    = Some recognize_request
  /\ count_recognition_complete
       (sent (run stopped_utterance (channel [] silent))) <> 1%nat
  /\ recog_request (after stopped_utterance (channel [] silent)) = None.
Proof.
  split; [ vm_compute; reflexivity | ].
  split; [ vm_compute; discriminate | vm_compute; reflexivity ].
Qed.

(** A request in recognition, ended by the detector on the first frame and
    followed by a SET-PARAMS request and a frame: one completion, and the
    request is cleared.  Two silent frames of a recognition: no completion,
    and the request is still active. *)
Lemma completion_exactly_once_unless_stopped_witness :
  (count_recognition_complete
     (sent (run [ audio frame0; request_process set_params_request;
                  audio frame0 ]
                (recognizing [MPF_DETECTOR_EVENT_INACTIVITY] silent
                             recognize_request))) = 1%nat
   /\ recog_request
        (after [ audio frame0; request_process set_params_request;
                 audio frame0 ]
               (recognizing [MPF_DETECTOR_EVENT_INACTIVITY] silent
                            recognize_request)) = None)
  /\ (count_recognition_complete
        (sent (run [ audio frame0; audio frame0 ]
                   (recognizing [] silent recognize_request))) = 0%nat
      /\ recog_request
           (after [ audio frame0; audio frame0 ]
                  (recognizing [] silent recognize_request))
         = Some recognize_request).
Proof.
  split.
  - split; [ | vm_compute; reflexivity ].
    destruct (completion_exactly_once_unless_stopped
                [ audio frame0; request_process set_params_request;
                  audio frame0 ]
                (recognizing [MPF_DETECTOR_EVENT_INACTIVITY] silent
                             recognize_request))
      as [_ [_ [_ [exactly _]]]].
    + intros r H. vm_compute in H. discriminate.
    + repeat constructor.
    + destruct (exactly eq_refl
                  ltac:(repeat constructor) tt
                  (after [ audio frame0; request_process set_params_request;
                           audio frame0 ]
                         (recognizing [MPF_DETECTOR_EVENT_INACTIVITY] silent
                                      recognize_request)))
        as [_ [one _]]; [ vm_compute; reflexivity | ].
      apply one; [ vm_compute; discriminate | vm_compute; reflexivity ].
  - split; [ | vm_compute; reflexivity ].
    destruct (completion_exactly_once_unless_stopped
                [ audio frame0; audio frame0 ]
                (recognizing [] silent recognize_request))
      as [_ [_ [_ [exactly _]]]].
    + intros r H. vm_compute in H. discriminate.
    + repeat constructor.
    + destruct (exactly eq_refl
                  ltac:(repeat constructor) tt
                  (after [ audio frame0; audio frame0 ]
                         (recognizing [] silent recognize_request)))
        as [_ [_ none]]; [ vm_compute; reflexivity | ].
      apply none. vm_compute. discriminate.
Defined.

(** The frame on which both the detector and the recognizer end the
    utterance: one completion is sent, then the run ends in the second
    call. *)
Example inactivity_and_endpoint_run :
  exists m,
    vosk_recog_stream_write frame0
      (recognizing [MPF_DETECTOR_EVENT_INACTIVITY] endpoint_at_once
                   recognize_request)
    = mkOutcome [channel_message_send m] None.
Proof.
  destruct (inactivity_and_endpoint
              (recognizing [MPF_DETECTOR_EVENT_INACTIVITY] endpoint_at_once
                           recognize_request)
              frame0 recognize_request [] endpoint_at_once
              (Scripted.mkRec [] "" "<result/>") 1) as [m [_ E]];
    try (vm_compute; reflexivity).
  - discriminate.
  - exists m. exact E.
Qed.

(** C2, one completion with the cause stopped on the frame after a STOP,
    does not hold of the channel with a STOP pending: the frame sends no
    RECOGNITION-COMPLETE event, and nothing that carries a completion
    cause. *)
Lemma pending_stop_sends_no_completion :
  stop_response stop_pending = Some (mrcp_response_create stop_request)
  /\ recog_request stop_pending = Some recognize_request
  /\ count_recognition_complete
       (sent (vosk_recog_stream_write frame0 stop_pending)) <> 1%nat
  /\ Forall (fun o => completion_cause_of o = None)
            (sent (vosk_recog_stream_write frame0 stop_pending)).
Proof.
  split; [ vm_compute; reflexivity | ].
  split; [ vm_compute; reflexivity | ].
  split; [ vm_compute; discriminate | ].
  vm_compute. repeat constructor.
Qed.

(** The frame after the STOP request of the stopped utterance. *)
Lemma pending_stop_sends_response_witness :
  exists c',
    vosk_recog_stream_write frame0 stop_pending =
      mkOutcome [channel_message_send (mrcp_response_create stop_request)]
                (Some (true, c'))
    /\ count_recognition_complete
         (sent (vosk_recog_stream_write frame0 stop_pending)) = 0%nat
    /\ stop_response c' = None
    /\ recog_request c' = None.
Proof.
  apply (pending_stop_sends_response stop_pending frame0
           (mrcp_response_create stop_request)).
  - vm_compute. reflexivity.
  - reflexivity.
Defined.

(** A DEFINE-GRAMMAR request with the body [hello] gets no response. *)
Lemma define_grammar_no_match_no_response_witness :
  vosk_recog_msg_process
    (mkMsg vosk_recog_MSG_REQUEST_PROCESS (Some define_grammar_hello))
    (channel [] silent)
  = mkOutcome [] (Some (true, channel [] silent)).
Proof.
  apply (define_grammar_no_match_no_response (channel [] silent)
           define_grammar_hello).
  - reflexivity.
  - intros reg H. vm_compute in H. injection H as <-. vm_compute. reflexivity.
Defined.

(** The first frame of a recognition for which no grammar was defined. *)
Lemma null_grammar_is_dereferenced_witness :
  grammar recognizing_without_grammar = None
  /\ vosk_recog_stream_write frame0 recognizing_without_grammar
     = mkOutcome [] None.
Proof.
  split; [ vm_compute; reflexivity | ].
  apply (null_grammar_is_dereferenced recognizing_without_grammar frame0
           recognize_request [] silent silent);
    vm_compute; reflexivity.
Defined.

(** The no-input timeout with the timers started by RECOGNIZE, and with
    the timers kept off by [Start-Input-Timers: false]. *)
Lemma no_input_completion_iff_timers_started_witness :
  Exists (fun o => is_no_input_completion o = true)
         (sent (vosk_recog_stream_write frame0
                  (recognizing [MPF_DETECTOR_EVENT_NOINPUT] silent
                               recognize_request)))
  /\ Forall (fun o => is_no_input_completion o = false)
            (sent (run (map audio [frame0; frame0; frame0])
                       (recognizing [MPF_DETECTOR_EVENT_NOINPUT] silent
                                    recognize_without_timers))).
Proof.
  split.
  - apply (proj1 (no_input_completion_iff_timers_started
                    (recognizing [MPF_DETECTOR_EVENT_NOINPUT] silent
                                 recognize_request)
                    frame0 recognize_request []
                    ltac:(vm_compute; reflexivity)
                    ltac:(vm_compute; reflexivity)
                    ltac:(vm_compute; reflexivity))).
    vm_compute. reflexivity.
  - apply (proj2 (no_input_completion_iff_timers_started
                    (recognizing [MPF_DETECTOR_EVENT_NOINPUT] silent
                                 recognize_without_timers)
                    frame0 recognize_without_timers []
                    ltac:(vm_compute; reflexivity)
                    ltac:(vm_compute; reflexivity)
                    ltac:(vm_compute; reflexivity))).
    vm_compute. reflexivity.
Defined.

(** RECOGNIZE without and with the header [Start-Input-Timers: false]. *)
Lemma recognize_arms_timers_witness :
  timers_started
    (after [ request_process recognize_request ] (channel [] silent)) = true
  /\ timers_started
       (after [ request_process recognize_without_timers ] (channel [] silent))
     = false
  /\ exists r c',
       final (vosk_recog_channel_recognize recognize_request
                (mrcp_response_create recognize_request) (channel [] silent))
         = Some (r, c')
       /\ timers_started c' = true.
Proof.
  split; [ vm_compute; reflexivity | ].
  split; [ vm_compute; reflexivity | ].
  destruct (recognize_arms_timers (channel [] silent) recognize_request
              (mrcp_response_create recognize_request) codec eq_refl)
    as [r [c' [F [_ [_ [_ [T _]]]]]]].
  exists r, c'. split; [ exact F | ]. apply T. reflexivity.
Defined.

End ScriptedRuns.

(** * Further properties of the recognizer *)

Section Samples.

Import Kaldi.
Context {K : KaldiLib}.

Lemma short_at_range (data : list Z) (i : nat) :
  -32768 <= short_at data i <= 32767.
Proof.
  unfold short_at.
  assert (Hlo := Z.mod_pos_bound (nth (2 * i) data 0) 256 eq_refl).
  assert (Hhi := Z.mod_pos_bound (nth (2 * i + 1) data 0) 256 eq_refl).
  destruct (32768 <=? _) eqn:E;
    [ apply Z.leb_le in E | apply Z.leb_gt in E ]; lia.
Qed.

Lemma fold_left_agree {A B : Type} (f g : A -> B -> A) (l : list B) (a : A) :
  (forall x b, In b l -> f x b = g x b) ->
  fold_left f l a = fold_left g l a.
Proof.
  revert a. induction l as [ | b l IH ]; intros a H; [ reflexivity | ].
  cbn [fold_left]. rewrite (H a b (or_introl eq_refl)).
  apply IH. intros x b' Hin. apply H. right. exact Hin.
Qed.

(** X1. [AcceptWaveform] reads whole 16-bit samples: the wave is determined
    by the length and the bytes [0 .. 2 * (len / 2) - 1] of the buffer, so an
    odd last byte is not read, and the length [len] gives the wave of the
    even length [2 * (len / 2)]. *)
Theorem wave_of_whole_samples (data data' : list Z) (len : Z) :
  (forall k, (k < 2 * Z.to_nat (Z.quot len 2))%nat ->
             nth k data 0 = nth k data' 0) ->
  wave_of data len = wave_of data' len
  /\ wave_of data (2 * Z.quot len 2) = wave_of data len.
Proof.
  intros same. split.
  - unfold wave_of. apply fold_left_agree. intros wave i Hin.
    apply in_seq in Hin. unfold short_at.
    rewrite (same (2 * i)%nat), (same (2 * i + 1)%nat) by lia. reflexivity.
  - unfold wave_of.
    replace (Z.quot (2 * Z.quot len 2) 2) with (Z.quot len 2); [ reflexivity | ].
    rewrite Z.mul_comm, Z.quot_mul by lia. reflexivity.
Qed.

(** X2. A sample is read as a little-endian two's-complement number: two bytes
    that hold the low and the high byte of [s], as signed or as unsigned
    [char], are read back as [s]. *)
Theorem short_at_decodes (data : list Z) (i : nat) (s : Z) :
  -32768 <= s <= 32767 ->
  (nth (2 * i) data 0) mod 256 = s mod 256 ->
  (nth (2 * i + 1) data 0) mod 256 = (s / 256) mod 256 ->
  short_at data i = s.
Proof.
  intros R Hlo Hhi. unfold short_at. rewrite Hlo, Hhi.
  assert (E : s mod 256 + 256 * ((s / 256) mod 256) = s mod 65536).
  { change 65536 with (256 * 256). rewrite Z.rem_mul_r by lia. reflexivity. }
  rewrite E.
  destruct (Z.le_gt_cases 0 s) as [P | N].
  - rewrite Z.mod_small by lia.
    destruct (32768 <=? s) eqn:L; [ apply Z.leb_le in L; lia | reflexivity ].
  - assert (M : s mod 65536 = s + 65536).
    { symmetry. apply (Z.mod_unique s 65536 (-1)); lia. }
    rewrite M.
    destruct (32768 <=? s + 65536) eqn:L; [ lia | apply Z.leb_gt in L; lia ].
Qed.

End Samples.

Section RecognizerText.

Import Kaldi.
Context {K : KaldiLib}.

Lemma append_nil_r (s : string) : String.append s "" = s.
Proof. induction s as [ | c s IH ]; cbn; [ | rewrite IH ]; reflexivity. Qed.

Lemma append_assoc (a b c : string) :
  String.append (String.append a b) c = String.append a (String.append b c).
Proof. induction a as [ | x a IH ]; cbn; [ | rewrite IH ]; reflexivity. Qed.

Lemma join_words_after_first (model : Model) (w : Z) (ws : list Z) :
  join_words model false (w :: ws)
  = String.append " " (join_words model true (w :: ws)).
Proof. reflexivity. Qed.

Lemma join_words_concat (model : Model) (words : list Z) :
  join_words model true words
  = String.concat " " (map (word_syms_Find model) words).
Proof.
  induction words as [ | w ws IH ]; [ reflexivity | ].
  destruct ws as [ | w2 ws ].
  - cbn. rewrite append_nil_r. reflexivity.
  - change (join_words model true (w :: w2 :: ws))
      with (String.append (word_syms_Find model w)
              (String.append (join_words model false (w2 :: ws)) "")).
    rewrite append_nil_r, join_words_after_first, IH. reflexivity.
Qed.

Lemma text_entries_concat (model : Model) (suf pre : list Z) :
  cat (map (text_entry model (pre ++ suf)
              (List.length pre + List.length suf))
           (seq (List.length pre) (List.length suf)))
  = String.concat " " (map (word_syms_Find model) suf).
Proof.
  revert pre. induction suf as [ | w suf IH ]; intros pre; [ reflexivity | ].
  cbn [List.length seq map cat fold_right].
  specialize (IH (pre ++ [w])).
  rewrite <- app_assoc, length_app in IH. cbn [List.length app] in IH.
  replace (List.length pre + 1)%nat with (S (List.length pre)) in IH by lia.
  replace (List.length pre + S (List.length suf))%nat
    with (S (List.length pre) + List.length suf)%nat by lia.
  change (fold_right String.append ""%string ?l) with (cat l).
  rewrite IH. unfold text_entry. rewrite nth_middle.
  destruct suf as [ | w2 suf ].
  - cbn [List.length map String.concat].
    replace (S (List.length pre) + 0)%nat with (S (List.length pre)) by lia.
    rewrite Nat.eqb_refl. rewrite !append_nil_r. reflexivity.
  - cbn [List.length map String.concat].
    destruct (Nat.eqb_spec (S (List.length pre))
                (S (List.length pre) + S (List.length suf))) as [E | _];
      [ lia | ].
    apply append_assoc.
Qed.

(** X3. The text of a partial result is the words of the best path with one
    blank between two words and none before or after. *)
Theorem partial_text_is_joined (model : Model) (words : list Z) :
  render_partial model words
  = cat [ "{"; dq; "partial"; dq; " : "; dq;
          String.concat " " (map (word_syms_Find model) words);
          dq; "}" ]%string.
Proof. unfold render_partial. rewrite join_words_concat. reflexivity. Qed.

Lemma model_finalize (r : KaldiRecognizer) : model_ (finalize r) = model_ r.
Proof.
  unfold finalize. destruct (input_finalized_ r); cbn; [ reflexivity | ].
  rewrite model_advance, model_update_silence_weights. reflexivity.
Qed.

(** X4. The text field of a final result is the words of the consensus with one
    blank between two words and none before or after; with no word, the
    result is the object with an empty array and an empty text. *)
Theorem Result_text (r : KaldiRecognizer) :
  let lat := WordAlignLattice (model_ r) (GetLattice (decoder_ (finalize r)) true) in
  let words := GetOneBest lat in
  snd (Result r)
  = cat [ "{"; dq; "result"; dq; " : [ ";
          cat (map (result_entry (model_ r) words (GetOneBestTimes lat)
                      (GetOneBestConfidences lat) (List.length words))
                   (seq 0 (List.length words)));
          " ], "; dq; "text"; dq; " : "; dq;
          String.concat " " (map (word_syms_Find (model_ r)) words);
          dq; " }" ]%string
  /\ (words = [] ->
      snd (Result r)
      = cat [ "{"; dq; "result"; dq; " : [ "; " ], "; dq; "text"; dq; " : ";
              dq; dq; " }" ]%string).
Proof.
  intros lat words. unfold Result. cbn [snd]. rewrite model_finalize.
  fold lat. unfold render_result. fold words.
  rewrite <- (text_entries_concat (model_ r) words []). split.
  - reflexivity.
  - intros E. rewrite E. reflexivity.
Qed.

Lemma feature_info_update_silence_weights (r : KaldiRecognizer) :
  feature_info_ (update_silence_weights r) = feature_info_ r.
Proof.
  unfold update_silence_weights.
  destruct (Active _ && _ && _); [ | reflexivity ].
  destruct (GetDeltaWeights _ _) as [sw dw]. reflexivity.
Qed.

Lemma feature_info_advance (r : KaldiRecognizer) :
  feature_info_ (advance r) = feature_info_ r.
Proof.
  unfold advance. destruct (AdvanceDecoding _ _) as [p d]. reflexivity.
Qed.

(** X5. Whatever the state, [AcceptWaveform] leaves the recognizer not
    finalized, [Result] leaves it finalized and [PartialResult] leaves the
    flag as it is; none of the three changes the model or the pipeline
    info. *)
Theorem finalized_flag_lifecycle (r : KaldiRecognizer) (data : list Z) (len : Z) :
  (input_finalized_ (fst (AcceptWaveform r data len)) = false
   /\ model_ (fst (AcceptWaveform r data len)) = model_ r
   /\ feature_info_ (fst (AcceptWaveform r data len)) = feature_info_ r)
  /\ (input_finalized_ (fst (Result r)) = true
      /\ model_ (fst (Result r)) = model_ r
      /\ feature_info_ (fst (Result r)) = feature_info_ r)
  /\ (input_finalized_ (fst (PartialResult r)) = input_finalized_ r
      /\ model_ (fst (PartialResult r)) = model_ r
      /\ feature_info_ (fst (PartialResult r)) = feature_info_ r).
Proof.
  split; [ | split ].
  - unfold AcceptWaveform.
    match goal with
    | |- context [ advance ?x ] => set (r' := advance x)
    end.
    assert (H : input_finalized_ r' = false /\ model_ r' = model_ r
                /\ feature_info_ r' = feature_info_ r).
    { subst r'.
      rewrite input_finalized_advance, input_finalized_update_silence_weights,
        model_advance, model_update_silence_weights,
        feature_info_advance, feature_info_update_silence_weights.
      destruct (input_finalized_ r) eqn:E; cbn; auto. }
    destruct (EndpointDetected _ _); exact H.
  - unfold Result. cbn [fst].
    rewrite input_finalized_finalize, model_finalize. repeat split.
    unfold finalize. destruct (input_finalized_ r); cbn; [ reflexivity | ].
    rewrite feature_info_advance, feature_info_update_silence_weights.
    reflexivity.
  - unfold PartialResult.
    destruct (NumFramesDecoded _ <? 50); cbn [fst];
      rewrite input_finalized_advance, model_advance, feature_info_advance;
      auto.
Qed.

End RecognizerText.

(** * Further properties of the engine and of the channel *)

Section EngineFacts.

Import Engine.

(** X6. [vosk_recog_engine_destroy] destroys the task and frees the model at
    most once each: it leaves an engine with neither, on which a second call
    does nothing. *)
Theorem engine_destroy_once (e : vosk_recog_engine_t) :
  fst (vosk_recog_engine_destroy e)
  = match task e with Some t => [apt_task_destroy t] | None => [] end
    ++ match model e with Some m => [vosk_model_free m] | None => [] end
  /\ snd (vosk_recog_engine_destroy e) = mkEngine None None
  /\ vosk_recog_engine_destroy (snd (vosk_recog_engine_destroy e))
     = ([], mkEngine None None).
Proof.
  destruct e as [[t | ] [m | ]]; repeat split.
Qed.

(** X7. An engine is created exactly when its task is; it is created also when
    the model cannot be loaded, and then has no model to free. *)
Theorem plugin_create_needs_task_only (created : option Z)
    (vosk_model_new : string -> option Z) :
  (mrcp_plugin_create created vosk_model_new = None <-> created = None)
  /\ forall e,
       mrcp_plugin_create created vosk_model_new = Some e ->
       task e = created
       /\ model e = vosk_model_new "/opt/kaldi/model"%string
       /\ (model e = None ->
           fst (vosk_recog_engine_destroy e)
           = match created with Some t => [apt_task_destroy t] | None => [] end).
Proof.
  unfold mrcp_plugin_create. destruct created as [t | ]; split.
  - split; discriminate.
  - intros e E. injection E as <-. cbn. repeat split.
    intros ->. reflexivity.
  - split; reflexivity.
  - discriminate.
Qed.

End EngineFacts.

Section GrammarFacts.

Import Vosk.
Context {L : Collaborators}.

Lemma rule_id_from (attrs : list apr_xml_attr) (acc : option string) :
  Forall (fun a => names_id a = false) attrs ->
  fold_left
    (fun id a => if strcasecmp_eq (attr_name a) "id" then Some (attr_value a) else id)
    attrs acc = acc.
Proof.
  intros H. revert acc. induction H as [ | a attrs Ha _ IH ]; intros acc;
    [ reflexivity | ].
  cbn. unfold names_id in Ha. rewrite Ha. apply IH.
Qed.

(** X8. The identifier of a rule is the value of its last attribute named [id]
    (in any case of the letters), and there is none when no attribute has
    that name. *)
Theorem rule_id_last_wins (pre post : list apr_xml_attr) (a : apr_xml_attr) :
  (names_id a = true ->
   Forall (fun b => names_id b = false) post ->
   rule_id (pre ++ a :: post) = Some (attr_value a))
  /\ (Forall (fun b => names_id b = false) pre -> rule_id pre = None).
Proof.
  unfold rule_id. split.
  - intros Ha Hpost. rewrite fold_left_app. cbn.
    unfold names_id in Ha. rewrite Ha. apply rule_id_from, Hpost.
  - intros Hpre. apply rule_id_from, Hpre.
Qed.

Lemma length_append (s t : string) :
  String.length (String.append s t) = (String.length s + String.length t)%nat.
Proof.
  induction s as [ | ch s IH ]; [ reflexivity | ]. cbn. rewrite IH. reflexivity.
Qed.

(** The pattern of a child is its text followed by a dot when the block has
    room for one byte more than was asked for, and a write past the block
    otherwise. *)
Lemma pattern_of_cases (text : string) :
  (Z.of_nat (String.length text) + 2
     <= malloc_usable_size (Z.of_nat (String.length text) + 1) ->
   pattern_of text = value (String.append text "."))
  /\ (malloc_usable_size (Z.of_nat (String.length text) + 1)
        < Z.of_nat (String.length text) + 2 ->
      pattern_of text = overflow).
Proof.
  unfold pattern_of, written_to. rewrite length_append. cbn [String.length].
  split; intros H.
  - destruct (_ <=? _) eqn:E; [ reflexivity | apply Z.leb_gt in E; lia ].
  - destruct (_ <=? _) eqn:E; [ apply Z.leb_le in E; lia | reflexivity ].
Qed.

Lemma pattern_of_value (text pattern : string) :
  pattern_of text = value pattern ->
  pattern = String.append text "."
  /\ Z.of_nat (String.length text) + 2
       <= malloc_usable_size (Z.of_nat (String.length text) + 1).
Proof.
  unfold pattern_of, written_to. rewrite length_append. cbn [String.length].
  destruct (_ <=? _) eqn:E; [ | discriminate ].
  intros H. injection H as <-. apply Z.leb_le in E. split; [ reflexivity | lia ].
Qed.

Lemma match_children_passes (id : option string) (result : string)
    (skipped rest : list apr_xml_elem) :
  Forall (child_passes result) skipped ->
  match_children id result (skipped ++ rest) = match_children id result rest.
Proof.
  induction 1 as [ | child skipped Hc _ IH ]; [ reflexivity | ].
  cbn. destruct Hc as [-> | [text [pattern [reg [-> [-> [-> ->]]]]]]]; exact IH.
Qed.

Lemma match_rules_passes (result : string) (pre rest : list apr_xml_elem) :
  Forall (rule_passes result) pre ->
  match_rules result (pre ++ rest) = match_rules result rest.
Proof.
  induction 1 as [ | elem pre He _ IH ]; [ reflexivity | ].
  cbn. destruct He as [-> | Hc]; [ exact IH | ].
  destruct (strcasecmp_eq (elem_name elem) "rule"); [ | exact IH ].
  rewrite <- (app_nil_r (elem_children elem)).
  rewrite (match_children_passes _ _ _ [] Hc). exact IH.
Qed.

(** The matcher, up to the child of a rule that it reaches after it has
    passed over what comes before. *)
Lemma prase_grammar_reaches
    (result name : string) (attrs : list apr_xml_attr) (cdata : option string)
    (pre post skipped rest : list apr_xml_elem) (elem child : apr_xml_elem) :
  Forall (rule_passes result) pre ->
  strcasecmp_eq (elem_name elem) "rule" = true ->
  elem_children elem = skipped ++ child :: rest ->
  Forall (child_passes result) skipped ->
  prase_grammar
    (Some (mkDoc (Some (mkElem name attrs cdata (pre ++ elem :: post)))))
    result
  = match match_children (rule_id (elem_attr elem)) result (child :: rest) with
    | value (Some r) => value r
    | value None => match_rules result post
    | null_deref => null_deref
    | overflow => overflow
    end.
Proof.
  intros Hpre Hrule Hch Hskip.
  unfold prase_grammar. cbn [root elem_children].
  rewrite (match_rules_passes result pre _ Hpre). cbn [match_rules].
  rewrite Hrule, Hch, (match_children_passes _ _ _ _ Hskip). reflexivity.
Qed.

(** X9. Matching follows the order of the document: when the rules before a
    rule are passed over, and so are the children before one of its
    children whose pattern (its text followed by a dot) is inside the block
    allocated for it, compiles and matches the result, the matcher returns
    the identifier of that rule, whatever comes after, and none when that
    rule has no identifier. *)
Theorem first_matching_rule_wins
    (result name : string) (attrs : list apr_xml_attr) (cdata : option string)
    (pre post skipped rest : list apr_xml_elem) (elem child : apr_xml_elem)
    (text : string) (reg : regex_t) (span : Z * Z) :
  Forall (rule_passes result) pre ->
  strcasecmp_eq (elem_name elem) "rule" = true ->
  elem_children elem = skipped ++ child :: rest ->
  Forall (child_passes result) skipped ->
  elem_first_cdata child = Some text ->
  Z.of_nat (String.length text) + 2
    <= malloc_usable_size (Z.of_nat (String.length text) + 1) ->
  regcomp (String.append text ".") = Some reg ->
  regexec reg result = Some span ->
  prase_grammar
    (Some (mkDoc (Some (mkElem name attrs cdata (pre ++ elem :: post)))))
    result
  = value (rule_id (elem_attr elem)).
Proof.
  intros Hpre Hrule Hch Hskip Htext Hfits Hcomp Hexec.
  rewrite (prase_grammar_reaches _ _ _ _ _ _ _ _ _ _ Hpre Hrule Hch Hskip).
  cbn [match_children].
  rewrite Htext, (proj1 (pattern_of_cases text) Hfits), Hcomp, Hexec.
  reflexivity.
Qed.

(** X10. Two ways in which a child ends the search.  When the matcher reaches
    a child whose pattern is inside its block and [regcomp] refuses it, the
    matcher returns none, even if a later child or rule matches.  When the
    block allocated for the pattern has no byte beyond the [strlen (text) +
    1] asked for, the dot and the terminator do not fit and the matcher
    writes past the block. *)
Theorem pattern_error_ends_search
    (result name : string) (attrs : list apr_xml_attr) (cdata : option string)
    (pre post skipped rest : list apr_xml_elem) (elem child : apr_xml_elem)
    (text : string) :
  Forall (rule_passes result) pre ->
  strcasecmp_eq (elem_name elem) "rule" = true ->
  elem_children elem = skipped ++ child :: rest ->
  Forall (child_passes result) skipped ->
  elem_first_cdata child = Some text ->
  (Z.of_nat (String.length text) + 2
     <= malloc_usable_size (Z.of_nat (String.length text) + 1) ->
   regcomp (String.append text ".") = None ->
   prase_grammar
     (Some (mkDoc (Some (mkElem name attrs cdata (pre ++ elem :: post)))))
     result
   = value None)
  /\ (malloc_usable_size (Z.of_nat (String.length text) + 1)
        < Z.of_nat (String.length text) + 2 ->
      prase_grammar
        (Some (mkDoc (Some (mkElem name attrs cdata (pre ++ elem :: post)))))
        result
      = overflow).
Proof.
  intros Hpre Hrule Hch Hskip Htext.
  rewrite (prase_grammar_reaches _ _ _ _ _ _ _ _ _ _ Hpre Hrule Hch Hskip).
  cbn [match_children]. rewrite Htext. split.
  - intros Hfits Hcomp.
    rewrite (proj1 (pattern_of_cases text) Hfits), Hcomp. reflexivity.
  - intros Hshort. rewrite (proj2 (pattern_of_cases text) Hshort). reflexivity.
Qed.

Lemma match_children_sound (id : option string) (result : string)
    (cs : list apr_xml_elem) (found : string) :
  match_children id result cs = value (Some (Some found)) ->
  id = Some found
  /\ exists child text reg span,
       In child cs
       /\ elem_first_cdata child = Some text
       /\ Z.of_nat (String.length text) + 2
            <= malloc_usable_size (Z.of_nat (String.length text) + 1)
       /\ regcomp (String.append text ".") = Some reg
       /\ regexec reg result = Some span.
Proof.
  induction cs as [ | child cs IH ]; [ discriminate | ].
  cbn [match_children].
  destruct (elem_first_cdata child) as [text | ] eqn:T.
  - destruct (pattern_of text) as [pattern | | ] eqn:W; try discriminate.
    destruct (pattern_of_value _ _ W) as [-> Hfits].
    destruct (regcomp (String.append text ".")) as [reg | ] eqn:C;
      [ | discriminate ].
    destruct (regexec reg result) as [span | ] eqn:E.
    + intros H. injection H as ->. split; [ reflexivity | ].
      exists child, text, reg, span. cbn. auto 6.
    + intros H. destruct (IH H) as [Hid [c [t [r [s [Hin Hrest]]]]]].
      split; [ exact Hid | ]. exists c, t, r, s. cbn. auto.
  - intros H. destruct (IH H) as [Hid [c [t [r [s [Hin Hrest]]]]]].
    split; [ exact Hid | ]. exists c, t, r, s. cbn. auto.
Qed.

(** X11. An identifier that the matcher returns is the identifier of a rule of
    the document, one of whose children has a pattern that is inside its
    block, compiles and matches the result; and the document then has a
    root. *)
Theorem matched_id_has_matching_rule
    (doc : option apr_xml_doc) (result found : string) :
  prase_grammar doc result = value (Some found) ->
  exists d r elem child text reg span,
    doc = Some d /\ root d = Some r
    /\ In elem (elem_children r)
    /\ strcasecmp_eq (elem_name elem) "rule" = true
    /\ rule_id (elem_attr elem) = Some found
    /\ In child (elem_children elem)
    /\ elem_first_cdata child = Some text
    /\ Z.of_nat (String.length text) + 2
         <= malloc_usable_size (Z.of_nat (String.length text) + 1)
    /\ regcomp (String.append text ".") = Some reg
    /\ regexec reg result = Some span.
Proof.
  unfold prase_grammar.
  destruct doc as [d | ]; [ | discriminate ].
  destruct (root d) as [r | ] eqn:R; [ | discriminate ].
  intros H.
  exists d, r.
  induction (elem_children r) as [ | elem elems IH ]; [ discriminate | ].
  cbn [match_rules] in H.
  destruct (strcasecmp_eq (elem_name elem) "rule") eqn:N.
  - destruct (match_children (rule_id (elem_attr elem)) result
                (elem_children elem)) as [[r0 | ] | | ] eqn:M;
      try discriminate.
    + injection H as ->. destruct (match_children_sound _ _ _ _ M)
        as [Hid [child [text [reg [span [Hin [T [F [C E]]]]]]]]].
      exists elem, child, text, reg, span. cbn. auto 12.
    + destruct (IH H) as [e [c [t [g [s [_ [_ [Hin Hrest]]]]]]]].
      exists e, c, t, g, s. cbn. auto.
  - destruct (IH H) as [e [c [t [g [s [_ [_ [Hin Hrest]]]]]]]].
    exists e, c, t, g, s. cbn. auto.
Qed.

(** X12. When every element under the root is passed over (it is no rule, or
    each of its children has no text or a pattern that is inside its block,
    compiles and does not match), the matcher returns none; so it does for a
    root without children. *)
Theorem no_rule_matches (name result : string) (attrs : list apr_xml_attr)
    (cdata : option string) (elems : list apr_xml_elem) :
  Forall (rule_passes result) elems ->
  prase_grammar (Some (mkDoc (Some (mkElem name attrs cdata elems)))) result
  = value None.
Proof.
  intros H. unfold prase_grammar. cbn [root elem_children].
  rewrite <- (app_nil_r elems). rewrite (match_rules_passes _ _ [] H).
  reflexivity.
Qed.

End GrammarFacts.

Section RequestFacts.

Import Vosk.
Context {L : Collaborators}.

Ltac run_effects :=
  unfold mrcp_engine_channel_message_send, lift, bind, ret, get, modify, send,
    null_dereference, buffer_overflow; cbn.

(** X13. A channel with no active request and no pending STOP response drops
    its frames: nothing is sent and the channel stays as it is (the frames
    reach neither the detector, nor the utterance file, nor the
    recognizer). *)
Theorem idle_channel_drops_frames
    (frames : list mpf_frame_t) (c : vosk_recog_channel_t) :
  recog_request c = None ->
  stop_response c = None ->
  run (map audio frames) c = mkOutcome [] (Some (tt, c)).
Proof.
  intros R S. induction frames as [ | frame frames IH ]; [ reflexivity | ].
  cbn [map run handle]. unfold bind at 1.
  assert (E : vosk_recog_stream_write frame c = mkOutcome [] (Some (true, c))).
  { unfold vosk_recog_stream_write. run_effects. rewrite S, R. reflexivity. }
  rewrite E. cbn. rewrite IH. reflexivity.
Qed.

(** X14. A RECOGNIZE request on a channel without a codec descriptor is
    answered at once with the status method-failed; the channel is left as
    it was: no request becomes active, no recognizer and no file are
    created, the timers flag is not touched. *)
Theorem recognize_without_codec
    (c : vosk_recog_channel_t) (request : mrcp_message_t) :
  method_id (start_line request) = METHOD RECOGNIZER_RECOGNIZE ->
  sink_stream_codec c = None ->
  vosk_recog_channel_request_dispatch request c
  = mkOutcome
      [channel_message_send
         (set_status_code MRCP_STATUS_CODE_METHOD_FAILED
                          (mrcp_response_create request))]
      (Some (true, c)).
Proof.
  intros M S. unfold vosk_recog_channel_request_dispatch. rewrite M.
  unfold vosk_recog_channel_recognize. run_effects. rewrite S. reflexivity.
Qed.

Lemma read_recognize_header_keeps (request : mrcp_message_t)
    (c : vosk_recog_channel_t) :
  recognizer (read_recognize_header request c) = recognizer c
  /\ audio_out (read_recognize_header request c) = audio_out c
  /\ grammar (read_recognize_header request c) = grammar c
  /\ stop_response (read_recognize_header request c) = stop_response c
  /\ recog_request (read_recognize_header request c) = recog_request c.
Proof.
  unfold read_recognize_header.
  destruct (resource_header request) as [h | ]; [ | repeat split ].
  destruct (mrcp_resource_header_property_check request
              RECOGNIZER_HEADER_START_INPUT_TIMERS);
  destruct (mrcp_resource_header_property_check request
              RECOGNIZER_HEADER_NO_INPUT_TIMEOUT);
  destruct (mrcp_resource_header_property_check request
              RECOGNIZER_HEADER_SPEECH_COMPLETE_TIMEOUT);
  repeat split.
Qed.

(** X16. The recognizer and the utterance file are made once for a channel: a
    RECOGNIZE request on a channel that has them keeps both, makes the
    request the active one and answers in-progress; the grammar and a
    pending STOP response are not touched. *)
Theorem recognize_reuses_recognizer_and_file
    (c : vosk_recog_channel_t) (request : mrcp_message_t)
    (descriptor : mpf_codec_descriptor_t) (rec : VoskRecognizer) (f : FILE) :
  method_id (start_line request) = METHOD RECOGNIZER_RECOGNIZE ->
  sink_stream_codec c = Some descriptor ->
  recognizer c = Some rec ->
  audio_out c = Some f ->
  exists c',
    vosk_recog_channel_request_dispatch request c
    = mkOutcome
        [channel_message_send
           (set_request_state MRCP_REQUEST_STATE_INPROGRESS
                              (mrcp_response_create request))]
        (Some (true, c'))
    /\ recog_request c' = Some request
    /\ recognizer c' = Some rec
    /\ audio_out c' = Some f
    /\ grammar c' = grammar c
    /\ stop_response c' = stop_response c.
Proof.
  intros M S R A. unfold vosk_recog_channel_request_dispatch. rewrite M.
  unfold bind at 1 2.
  rewrite (recognize_outcome c request (mrcp_response_create request)
             descriptor S).
  cbn. eexists. split; [ reflexivity | ].
  destruct (read_recognize_header_keeps request (set_timers_started true c))
    as [Hr [Ha [Hg [Hs _]]]].
  cbn in Hr, Ha, Hg, Hs.
  unfold create_recognizer, open_utterance_file.
  rewrite Ha, A. cbn. rewrite Hr, R. cbn. rewrite Hr, Ha, Hg, Hs.
  auto.
Qed.

(** X17. Two STOP requests before the next frame: the second response takes the
    place of the first, so the frame sends the response to the second
    request only. *)
Theorem second_stop_replaces_first
    (c : vosk_recog_channel_t) (first second : mrcp_message_t)
    (frame : mpf_frame_t) :
  method_id (start_line first) = METHOD RECOGNIZER_STOP ->
  method_id (start_line second) = METHOD RECOGNIZER_STOP ->
  run [ task_msg (mkMsg vosk_recog_MSG_REQUEST_PROCESS (Some first));
        task_msg (mkMsg vosk_recog_MSG_REQUEST_PROCESS (Some second));
        audio frame ] c
  = mkOutcome [channel_message_send (mrcp_response_create second)]
              (Some (tt, set_recog_request None (set_stop_response None c))).
Proof.
  intros M1 M2. cbn [run handle].
  unfold vosk_recog_msg_process; cbn [msg_type msg_request].
  unfold bind. cbv zeta. rewrite !(dispatch_stop c first M1). cbn.
  rewrite !(dispatch_stop _ second M2). cbn.
  reflexivity.
Qed.

End RequestFacts.

Section DefineGrammarFacts.

Import Vosk.
Context {L : Collaborators}.

(** X18. Once the parser delivers a document for a DEFINE-GRAMMAR request, the
    document becomes the grammar of the channel whether or not
    [check_grammar] accepts it: an accepted document is answered with the
    response to the request, a refused one stays on the channel and gets no
    response. *)
Theorem define_grammar_stores_document
    (c : vosk_recog_channel_t) (request : mrcp_message_t) (reg : regex_t)
    (rm_so rm_eo : Z) (parser parser' : apr_xml_parser) (doc : apr_xml_doc) :
  method_id (start_line request) = METHOD RECOGNIZER_DEFINE_GRAMMAR ->
  regcomp grammar_pattern = Some reg ->
  regexec reg (body request) = Some (rm_so, rm_eo) ->
  rm_eo - rm_so < 4096 ->
  apr_xml_parser_create = Some parser ->
  apr_xml_parser_feed parser (body request) = (parser', true) ->
  apr_xml_parser_done parser' = Some doc ->
  vosk_recog_channel_request_dispatch request c
  = if check_grammar (Some doc)
    then mkOutcome [channel_message_send (mrcp_response_create request)]
                   (Some (true, set_grammar (Some doc) c))
    else mkOutcome [] (Some (false, set_grammar (Some doc) c)).
Proof.
  intros M C E S P F D.
  unfold vosk_recog_channel_request_dispatch. rewrite M.
  unfold define_grammar. rewrite C, E.
  apply Z.leb_gt in S. rewrite S, P, F. cbn [negb]. rewrite D.
  unfold mrcp_engine_channel_message_send, bind, ret, get, modify, send;
    cbn -[check_grammar].
  destruct (check_grammar (Some doc)); reflexivity.
Qed.

(** X19. A DEFINE-GRAMMAR request always returns, and changes nothing of the
    channel but its grammar; it sends the response to the request exactly
    when it returns true, and then the grammar of the channel is one that
    [check_grammar] accepts; otherwise it sends nothing. *)
Theorem define_grammar_touches_grammar_only
    (c : vosk_recog_channel_t) (request : mrcp_message_t) :
  method_id (start_line request) = METHOD RECOGNIZER_DEFINE_GRAMMAR ->
  exists b c',
    vosk_recog_channel_request_dispatch request c
    = mkOutcome
        (if b : bool
         then [channel_message_send (mrcp_response_create request)]
         else [])
        (Some (b, c'))
    /\ (b = true -> check_grammar (grammar c') = true)
    /\ recog_request c' = recog_request c
    /\ stop_response c' = stop_response c
    /\ timers_started c' = timers_started c
    /\ detector c' = detector c
    /\ audio_out c' = audio_out c
    /\ recognizer c' = recognizer c
    /\ sink_stream_codec c' = sink_stream_codec c
    /\ engine_model c' = engine_model c.
Proof.
  intros M. unfold vosk_recog_channel_request_dispatch. rewrite M.
  unfold define_grammar.
  assert (Hfail : exists b c',
             mkOutcome [] (Some (false, c))
             = mkOutcome
                 (if b : bool
                  then [channel_message_send (mrcp_response_create request)]
                  else [])
                 (Some (b, c'))
             /\ (b = true -> check_grammar (grammar c') = true)
             /\ recog_request c' = recog_request c
             /\ stop_response c' = stop_response c
             /\ timers_started c' = timers_started c
             /\ detector c' = detector c
             /\ audio_out c' = audio_out c
             /\ recognizer c' = recognizer c
             /\ sink_stream_codec c' = sink_stream_codec c
             /\ engine_model c' = engine_model c).
  { exists false, c. repeat split. discriminate. }
  destruct (regcomp grammar_pattern) as [reg | ]; [ | exact Hfail ].
  destruct (regexec reg (body request)) as [[rm_so rm_eo] | ]; [ | exact Hfail ].
  destruct (4096 <=? rm_eo - rm_so); [ exact Hfail | ].
  destruct apr_xml_parser_create as [parser | ]; [ | exact Hfail ].
  destruct (apr_xml_parser_feed parser (body request)) as [parser' ok].
  destruct ok; cbn [negb]; [ | exact Hfail ].
  destruct (apr_xml_parser_done parser') as [doc | ]; [ | exact Hfail ].
  unfold mrcp_engine_channel_message_send, bind, ret, get, modify, send;
    cbn -[check_grammar].
  destruct (check_grammar (Some doc)) eqn:G; cbn -[check_grammar].
  - exists true, (set_grammar (Some doc) c). repeat split.
    intros _. exact G.
  - exists false, (set_grammar (Some doc) c). repeat split. discriminate.
Qed.

End DefineGrammarFacts.

Section FrameFacts.

Import Vosk.
Context {L : Collaborators}.

Ltac frame_effects :=
  unfold mrcp_engine_channel_message_send, lift, bind, ret, get, modify, send,
    null_dereference, buffer_overflow; cbn.

Section Keeps.

(** A property of the channel that survives what the stream callback writes:
    a new detector state, a longer utterance file, a new recognizer state,
    the clearing of the request and of the STOP response. *)
Variable P : vosk_recog_channel_t -> Prop.
Hypothesis K_detector : forall c v, P c -> P (set_detector v c).
Hypothesis K_audio_out : forall c f, P c -> P (set_audio_out (Some f) c).
Hypothesis K_recognizer : forall c r, P c -> P (set_recognizer (Some r) c).
Hypothesis K_request : forall c, P c -> P (set_recog_request None c).
Hypothesis K_stop : forall c, P c -> P (set_stop_response None c).

Lemma recognition_complete_keeps
    (cause : mrcp_recog_completion_cause_e) (early : option string) :
  hoare P (vosk_recog_recognition_complete cause early) anything
        (fun _ c => P c).
Proof.
  intros c Pc. unfold vosk_recog_recognition_complete. frame_effects.
  destruct (recog_request c) as [request | ]; cbn;
    [ | split; [ constructor | discriminate ] ].
  destruct cause; cbn;
    try (split;
         [ repeat constructor
         | intros a c' E; injection E as <- <-; apply K_request, Pc ]).
  destruct (recognizer c) as [rec | ]; cbn;
    [ | split; [ constructor | discriminate ] ].
  destruct (vosk_recognizer_result rec) as [rec' result]; cbn.
  destruct early as [e | ]; cbn;
    [ unfold written_to; destruct (_ <=? _); cbn;
      [ | split; [ constructor | discriminate ] ] | ];
    (split;
     [ repeat constructor
     | intros a c' E; injection E as <- <-;
       apply K_request, K_recognizer, Pc ]).
Qed.

Lemma feed_recognizer_keeps (frame : mpf_frame_t) (end_ : Z) :
  hoare P (feed_recognizer frame end_) anything (fun _ c => P c).
Proof.
  unfold feed_recognizer. apply hoare_get_bind. intros c0.
  apply hoare_forget.
  destruct (recognizer c0) as [rec | ]; [ | apply hoare_ret; auto ].
  destruct (vosk_recognizer_accept_waveform rec (codec_frame frame)) as [rec1 r].
  apply hoare_seq_modify; [ auto | ].
  destruct (r =? 0); cbn.
  - destruct (end_ =? 0); [ | apply hoare_ret; auto ].
    destruct (vosk_recognizer_partial_result rec1) as [rec2 result].
    apply hoare_seq_modify; [ auto | ].
    apply hoare_get_bind. intros c1. apply hoare_forget.
    destruct (prase_grammar (grammar c1) result) as [early | | ]; cbn.
    + eapply hoare_bind; [ apply hoare_ret; intros c Pc; exact Pc | ].
      intros [id | ]; cbn.
      * destruct (earlyres id) as [buffer | | ];
          [ | apply hoare_null | apply hoare_overflow ].
        eapply hoare_bind; [ apply recognition_complete_keeps | ].
        intros b. apply hoare_ret. auto.
      * apply hoare_ret. auto.
    + eapply hoare_bind; [ apply (hoare_null _ _ (fun _ _ => False)) | ].
      intros a. apply hoare_false. auto.
    + eapply hoare_bind; [ apply (hoare_overflow _ _ (fun _ _ => False)) | ].
      intros a. apply hoare_false. auto.
  - eapply hoare_bind; [ apply recognition_complete_keeps | ].
    intros b. apply hoare_ret. auto.
Qed.

Lemma on_detector_event_keeps (ev : mpf_detector_event_e) :
  hoare P (on_detector_event ev) anything (fun _ c => P c).
Proof.
  destruct ev; cbn.
  - apply hoare_ret. auto.
  - eapply hoare_bind; [ | intros b; apply hoare_ret; intros c Pc; exact Pc ].
    apply start_of_input_spec. intros o _. exact I.
  - eapply hoare_bind; [ | intros b; apply hoare_ret; intros c Pc; exact Pc ].
    apply recognition_complete_keeps.
  - apply hoare_get_bind. intros c1. apply hoare_forget.
    destruct (timers_started c1).
    + eapply hoare_bind; [ | intros b; apply hoare_ret; intros c Pc; exact Pc ].
      apply recognition_complete_keeps.
    + apply hoare_ret. auto.
Qed.

Lemma write_audio_keeps (frame : mpf_frame_t) (c : vosk_recog_channel_t) :
  P c -> P (write_audio frame c).
Proof.
  intros Pc. unfold write_audio. destruct (audio_out c); auto.
Qed.

Lemma stream_write_keeps (frame : mpf_frame_t) :
  hoare P (vosk_recog_stream_write frame) anything (fun _ c => P c).
Proof.
  unfold vosk_recog_stream_write. apply hoare_get_bind. intros c0.
  apply hoare_forget.
  destruct (stop_response c0) as [response | ].
  - eapply hoare_bind with (R1 := fun _ c => P c).
    + apply hoare_message_send. exact I.
    + intros b. apply hoare_seq_modify; [ auto | ].
      apply hoare_seq_modify; [ auto | ]. apply hoare_ret. auto.
  - destruct (recog_request c0); [ | apply hoare_ret; auto ].
    destruct (mpf_activity_detector_process (detector c0) frame) as [det ev].
    apply hoare_seq_modify; [ auto | ].
    eapply hoare_bind; [ apply on_detector_event_keeps | ].
    intros e. apply hoare_seq_modify; [ apply write_audio_keeps | ].
    eapply hoare_bind; [ apply feed_recognizer_keeps | ].
    intros u. apply hoare_ret. auto.
Qed.

End Keeps.

(** X20. Frames leave the configuration of the channel alone: after any number
    of frames that are processed to the end, the grammar, the timers flag,
    the codec descriptor and the model of the engine are what they were. *)
Theorem frames_leave_configuration
    (frames : list mpf_frame_t) (c c' : vosk_recog_channel_t) (u : unit) :
  final (run (map audio frames) c) = Some (u, c') ->
  grammar c' = grammar c
  /\ timers_started c' = timers_started c
  /\ sink_stream_codec c' = sink_stream_codec c
  /\ engine_model c' = engine_model c.
Proof.
  set (P := fun x : vosk_recog_channel_t =>
              grammar x = grammar c
              /\ timers_started x = timers_started c
              /\ sink_stream_codec x = sink_stream_codec c
              /\ engine_model x = engine_model c).
  assert (H : hoare P (run (map audio frames)) anything (fun _ x => P x)).
  { induction frames as [ | frame frames IH ]; cbn [map run handle].
    - apply hoare_ret. auto.
    - eapply hoare_bind; [ | intros b; exact IH ].
      apply stream_write_keeps; intros x; intros; assumption. }
  intros F. apply (proj2 (H c ltac:(repeat split)) u c' F).
Qed.

(** X21. While a request is active, every frame that is processed to the end is
    appended to the utterance file, whatever the detector and the recognizer
    make of it. *)
Theorem frame_is_appended
    (c c' : vosk_recog_channel_t) (frame : mpf_frame_t)
    (request : mrcp_message_t) (f : FILE) (b : bool) :
  stop_response c = None ->
  recog_request c = Some request ->
  audio_out c = Some f ->
  final (vosk_recog_stream_write frame c) = Some (b, c') ->
  audio_out c'
  = Some (mkFile (file_path f) (written f ++ codec_frame frame)).
Proof.
  intros S R A.
  set (f' := mkFile (file_path f) (written f ++ codec_frame frame)).
  assert (H : hoare (fun x => x = c) (vosk_recog_stream_write frame) anything
                    (fun _ x => audio_out x = Some f')).
  { unfold vosk_recog_stream_write. apply hoare_get_bind. intros c0.
    apply (hoare_assert _ (c0 = c)); [ intros x [-> E]; exact E | ].
    intros ->. rewrite S, R.
    destruct (mpf_activity_detector_process (detector c) frame) as [det ev].
    eapply hoare_bind with (R1 := fun _ x => audio_out x = Some f).
    { apply hoare_modify. intros x [-> _]. exact A. }
    intros u.
    eapply hoare_bind with (R1 := fun _ x => audio_out x = Some f).
    { apply on_detector_event_keeps; intros x; intros; assumption. }
    intros e.
    eapply hoare_bind with (R1 := fun _ x => audio_out x = Some f').
    { apply hoare_modify. intros x E. unfold write_audio. rewrite E.
      reflexivity. }
    intros u'.
    eapply hoare_bind with (R1 := fun _ x => audio_out x = Some f').
    { apply feed_recognizer_keeps; intros x; intros; assumption. }
    intros u''. apply hoare_ret. auto. }
  intros F. apply (proj2 (H c eq_refl) b c' F).
Qed.

Lemma request_has_recognizer_kept (c : vosk_recog_channel_t) :
  request_has_recognizer c ->
  (forall v, request_has_recognizer (set_detector v c))
  /\ (forall v, request_has_recognizer (set_audio_out v c))
  /\ (forall r, request_has_recognizer (set_recognizer (Some r) c))
  /\ request_has_recognizer (set_recog_request None c)
  /\ (forall v, request_has_recognizer (set_stop_response v c))
  /\ (forall v, request_has_recognizer (set_grammar v c))
  /\ (forall v, request_has_recognizer (set_timers_started v c)).
Proof.
  unfold request_has_recognizer; cbn. intros H.
  repeat split; intros; try (apply H; assumption); try discriminate;
    try congruence.
Qed.

Lemma recognize_keeps_recognizer (request response : mrcp_message_t) :
  hoare request_has_recognizer
        (vosk_recog_channel_recognize request response) anything
        (fun _ c => request_has_recognizer c).
Proof.
  unfold vosk_recog_channel_recognize. apply hoare_get_bind. intros c0.
  apply hoare_forget.
  destruct (sink_stream_codec c0) as [descriptor | ];
    [ | apply hoare_ret; auto ].
  apply hoare_seq_modify;
    [ intros c Pc; apply request_has_recognizer_kept, Pc | ].
  apply hoare_seq_modify.
  { intros c Pc. unfold request_has_recognizer.
    destruct (read_recognize_header_keeps request c) as [-> [_ [_ [_ ->]]]].
    exact Pc. }
  apply hoare_seq_modify.
  { intros c Pc. unfold open_utterance_file.
    destruct (audio_out c); [ exact Pc | ].
    destruct (apt_vardir_filepath_get _); [ | exact Pc ].
    destruct (fopen_wb _); [ | exact Pc ].
    apply request_has_recognizer_kept, Pc. }
  eapply hoare_bind with (R1 := fun _ c => recognizer c <> None).
  { apply hoare_modify. intros c _. unfold create_recognizer.
    destruct (recognizer c) eqn:E; [ rewrite E | cbn ]; discriminate. }
  intros u.
  eapply hoare_bind with (R1 := fun _ c => recognizer c <> None).
  { apply hoare_message_send. exact I. }
  intros b.
  eapply hoare_bind with (R1 := fun _ c => request_has_recognizer c).
  { apply hoare_modify. intros c H _. exact H. }
  intros u'. apply hoare_ret. auto.
Qed.

Lemma request_dispatch_keeps_recognizer (request : mrcp_message_t) :
  hoare request_has_recognizer (vosk_recog_channel_request_dispatch request)
        anything (fun _ c => request_has_recognizer c).
Proof.
  unfold vosk_recog_channel_request_dispatch.
  set (response := mrcp_response_create request).
  assert (Hfall : forall b r,
             hoare request_has_recognizer (ret (fall_out b r)) anything
                   (fun _ c => request_has_recognizer c))
    by (intros; apply hoare_ret; auto).
  assert (Hearly : forall b,
             hoare request_has_recognizer (ret (early_return b)) anything
                   (fun _ c => request_has_recognizer c))
    by (intros; apply hoare_ret; auto).
  eapply hoare_bind with (R1 := fun _ c => request_has_recognizer c).
  - destruct (method_id (start_line request)) as [m | e]; [ | apply Hfall ].
    destruct m; try apply Hfall.
    + unfold define_grammar.
      destruct (regcomp grammar_pattern) as [reg | ]; [ | apply Hearly ].
      destruct (regexec reg (body request)) as [[rm_so rm_eo] | ];
        [ | apply Hearly ].
      destruct (4096 <=? rm_eo - rm_so); [ apply Hearly | ].
      destruct apr_xml_parser_create as [parser | ]; [ | apply Hearly ].
      destruct (apr_xml_parser_feed parser (body request)) as [parser' ok].
      destruct ok; cbn; [ | apply Hearly ].
      destruct (apr_xml_parser_done parser') as [doc | ]; [ | apply Hearly ].
      apply hoare_seq_modify;
        [ intros c Pc; apply request_has_recognizer_kept, Pc | ].
      apply hoare_get_bind. intros c1. apply hoare_forget.
      destruct (check_grammar (grammar c1)); [ apply Hfall | apply Hearly ].
    + eapply hoare_bind; [ apply recognize_keeps_recognizer | ].
      intros r. apply hoare_ret. auto.
    + eapply hoare_bind with (R1 := fun _ c => request_has_recognizer c).
      * unfold vosk_recog_channel_timers_start.
        apply hoare_seq_modify;
          [ intros c Pc; apply request_has_recognizer_kept, Pc | ].
        apply hoare_message_send. exact I.
      * intros b. apply hoare_ret. auto.
    + eapply hoare_bind with (R1 := fun _ c => request_has_recognizer c).
      * unfold vosk_recog_channel_stop.
        apply hoare_seq_modify;
          [ intros c Pc; apply request_has_recognizer_kept, Pc | ].
        apply hoare_ret. auto.
      * intros b. apply hoare_ret. auto.
  - intros [b | processed r].
    + apply hoare_ret. auto.
    + eapply hoare_bind with (R1 := fun _ c => request_has_recognizer c);
        [ | intros u; apply hoare_ret; auto ].
      destruct processed; cbn.
      * apply hoare_ret. auto.
      * eapply hoare_bind; [ apply hoare_message_send; exact I | ].
        intros b. apply hoare_ret. auto.
Qed.

(** X22. As long as the channel is not closed, a recognizer exists whenever a
    request is active: this holds of a created channel and is kept by every
    request and frame, so a completion never finds the recognizer missing. *)
Theorem active_request_has_recognizer
    (inputs : list input) (c c' : vosk_recog_channel_t) (u : unit) :
  request_has_recognizer c ->
  Forall (fun i => closes_channel i = false) inputs ->
  final (run inputs c) = Some (u, c') ->
  request_has_recognizer c'.
Proof.
  intros Pc NC.
  assert (H : hoare request_has_recognizer (run inputs) anything
                    (fun _ x => request_has_recognizer x)).
  { induction NC as [ | i inputs Hi _ IH ]; cbn [run].
    - apply hoare_ret. auto.
    - eapply hoare_bind; [ | intros b; exact IH ].
      destruct i as [msg | frame]; cbn [handle].
      + unfold vosk_recog_msg_process. cbn in Hi.
        destruct (msg_type msg); [ | discriminate | ].
        * eapply hoare_bind; [ apply hoare_send; exact I | ].
          intros u0. apply hoare_ret. auto.
        * destruct (msg_request msg) as [request | ]; [ | apply hoare_null ].
          eapply hoare_bind; [ apply request_dispatch_keeps_recognizer | ].
          intros b. apply hoare_ret. auto.
      + apply stream_write_keeps; intros x; intros;
          apply request_has_recognizer_kept; assumption. }
  intros F. apply (proj2 (H c Pc) u c' F).
Qed.

Lemma created_channel_has_no_request (model : option VoskModel)
    (codec : option mpf_codec_descriptor_t) (indeterminate : bool) :
  request_has_recognizer
    (vosk_recog_engine_channel_create model codec indeterminate).
Proof. intros H. contradiction H. reflexivity. Qed.

(** **** What one frame does *)

(** X23. A frame on which the recognizer reports an endpoint, the detector
    reporting nothing: one RECOGNITION-COMPLETE event is sent, with the
    cause success, the state complete, the identifiers of the request, the
    content type of NLSML and the final result of the recognizer as its
    body; the request is cleared. *)
Theorem endpoint_frame
    (c : vosk_recog_channel_t) (frame : mpf_frame_t) (request : mrcp_message_t)
    (det : mpf_activity_detector_t) (rec rec1 rec2 : VoskRecognizer)
    (r : Z) (text : string) :
  stop_response c = None ->
  recog_request c = Some request ->
  mpf_activity_detector_process (detector c) frame = (det, MPF_DETECTOR_EVENT_NONE) ->
  recognizer c = Some rec ->
  vosk_recognizer_accept_waveform rec (codec_frame frame) = (rec1, r) ->
  r <> 0 ->
  vosk_recognizer_result rec1 = (rec2, text) ->
  exists m c',
    vosk_recog_stream_write frame c
    = mkOutcome [channel_message_send m] (Some (true, c'))
    /\ completion_cause_of (channel_message_send m)
       = Some RECOGNIZER_COMPLETION_CAUSE_SUCCESS
    /\ body m = text
    /\ content_type m = Some "application/x-nlsml"%string
    /\ request_state (start_line m) = MRCP_REQUEST_STATE_COMPLETE
    /\ request_id (start_line m) = request_id (start_line request)
    /\ session_id m = session_id request
    /\ recog_request c' = None
    /\ recognizer c' = Some rec2
    /\ detector c' = det.
Proof.
  intros S R D V A NZ F.
  unfold vosk_recog_stream_write. frame_effects. rewrite S, R, D. cbn.
  unfold feed_recognizer, write_audio. frame_effects.
  assert (Z0 : (r =? 0) = false) by (apply Z.eqb_neq; exact NZ).
  destruct (audio_out c); cbn; rewrite V, A; cbn; rewrite Z0; cbn;
    unfold vosk_recog_recognition_complete; frame_effects;
    rewrite R; cbn; rewrite F; cbn;
    eexists; eexists; repeat split.
Qed.

(** The buffer of an early match holds the identifier between its tags
    when the block has room for one byte more than was asked for. *)
Lemma earlyres_cases (id : string) :
  (Z.of_nat (String.length id) + 22
     <= malloc_usable_size (Z.of_nat (String.length id) + 21) ->
   earlyres id
   = value (String.append "<earlyres>" (String.append id "</earlyres>")))
  /\ (malloc_usable_size (Z.of_nat (String.length id) + 21)
        < Z.of_nat (String.length id) + 22 ->
      earlyres id = overflow).
Proof.
  unfold earlyres, written_to, cat. cbn [fold_right].
  rewrite append_nil_r, !length_append. cbn [String.length].
  split; intros H.
  - destruct (_ <=? _) eqn:E; [ reflexivity | apply Z.leb_gt in E; lia ].
  - destruct (_ <=? _) eqn:E; [ apply Z.leb_le in E; lia | reflexivity ].
Qed.

Lemma written_to_cases (size : Z) (s : string) :
  (Z.of_nat (String.length s) + 1 <= malloc_usable_size size ->
   written_to size s = value s)
  /\ (malloc_usable_size size < Z.of_nat (String.length s) + 1 ->
      written_to size s = overflow).
Proof.
  unfold written_to. split; intros H.
  - destruct (_ <=? _) eqn:E; [ reflexivity | apply Z.leb_gt in E; lia ].
  - destruct (_ <=? _) eqn:E; [ apply Z.leb_le in E; lia | reflexivity ].
Qed.

(** X24. A frame on which the partial result matches a rule of the grammar, the
    detector reporting nothing and the recognizer no endpoint.  The
    identifier of the rule is written between [<earlyres>] and
    [</earlyres>] into a block of [strlen (id) + 21] bytes, and the final
    result followed by that buffer into a block of their two lengths; each
    takes one byte more.  When both blocks have room for that byte, one
    RECOGNITION-COMPLETE event is sent, with the cause success, whose body
    is the final result followed by the identifier between its tags, and
    the request is cleared.  When one of them has not, the frame writes past
    the block: nothing is sent and the frame is not processed to the
    end. *)
Theorem early_termination_frame
    (c : vosk_recog_channel_t) (frame : mpf_frame_t) (request : mrcp_message_t)
    (det : mpf_activity_detector_t) (rec rec1 rec2 rec3 : VoskRecognizer)
    (partial_text id text : string) :
  stop_response c = None ->
  recog_request c = Some request ->
  mpf_activity_detector_process (detector c) frame = (det, MPF_DETECTOR_EVENT_NONE) ->
  recognizer c = Some rec ->
  vosk_recognizer_accept_waveform rec (codec_frame frame) = (rec1, 0) ->
  vosk_recognizer_partial_result rec1 = (rec2, partial_text) ->
  prase_grammar (grammar c) partial_text = value (Some id) ->
  vosk_recognizer_result rec2 = (rec3, text) ->
  let tagged := Z.of_nat (String.length id) + 21 in
  let whole := Z.of_nat (String.length text) + tagged in
  (tagged + 1 <= malloc_usable_size tagged ->
   whole + 1 <= malloc_usable_size whole ->
   exists m c',
     vosk_recog_stream_write frame c
     = mkOutcome [channel_message_send m] (Some (true, c'))
     /\ completion_cause_of (channel_message_send m)
        = Some RECOGNIZER_COMPLETION_CAUSE_SUCCESS
     /\ body m
        = String.append text
            (String.append "<earlyres>" (String.append id "</earlyres>"))
     /\ content_type m = Some "application/x-nlsml"%string
     /\ request_id (start_line m) = request_id (start_line request)
     /\ recog_request c' = None
     /\ recognizer c' = Some rec3)
  /\ (malloc_usable_size tagged < tagged + 1 ->
      vosk_recog_stream_write frame c = mkOutcome [] None)
  /\ (tagged + 1 <= malloc_usable_size tagged ->
      malloc_usable_size whole < whole + 1 ->
      vosk_recog_stream_write frame c = mkOutcome [] None).
Proof.
  intros S R D V A PR G F tagged whole.
  destruct (earlyres_cases id) as [Efit Eshort].
  replace (Z.of_nat (String.length id) + 22) with (tagged + 1) in Efit, Eshort
    by (subst tagged; lia).
  fold tagged in Efit, Eshort.
  set (buffer := String.append "<earlyres>" (String.append id "</earlyres>"))
    in *.
  assert (Esize : Z.of_nat (String.length text) + Z.of_nat (String.length buffer)
                  = whole).
  { subst buffer. rewrite !length_append. cbn [String.length].
    subst whole tagged. lia. }
  assert (Elen : Z.of_nat (String.length (String.append text buffer)) + 1
                 = whole + 1).
  { rewrite <- Esize, length_append. lia. }
  destruct (written_to_cases
              (Z.of_nat (String.length text) + Z.of_nat (String.length buffer))
              (String.append text buffer)) as [Wfit Wshort].
  rewrite Elen in Wfit, Wshort. rewrite Esize in Wfit at 1.
  rewrite Esize in Wshort at 1.
  split; [ intros H1 H2 | split; [ intros H1 | intros H1 H2 ] ].
  - unfold vosk_recog_stream_write. frame_effects. rewrite S, R, D. cbn.
    unfold feed_recognizer, write_audio. frame_effects.
    destruct (audio_out c); cbn; rewrite V, A; cbn; rewrite PR; cbn;
      rewrite G; cbn -[earlyres]; rewrite (Efit H1);
      cbn -[written_to String.append String.length];
      rewrite ?R; cbn -[written_to String.append String.length];
      rewrite F; cbn -[written_to String.append String.length];
      fold buffer; rewrite (Wfit H2); frame_effects;
      eexists; eexists; repeat split.
  - unfold vosk_recog_stream_write. frame_effects. rewrite S, R, D. cbn.
    unfold feed_recognizer, write_audio. frame_effects.
    destruct (audio_out c); cbn; rewrite V, A; cbn; rewrite PR; cbn;
      rewrite G; cbn -[earlyres]; rewrite (Eshort H1); reflexivity.
  - unfold vosk_recog_stream_write. frame_effects. rewrite S, R, D. cbn.
    unfold feed_recognizer, write_audio. frame_effects.
    destruct (audio_out c); cbn; rewrite V, A; cbn; rewrite PR; cbn;
      rewrite G; cbn -[earlyres]; rewrite (Efit H1);
      cbn -[written_to String.append String.length];
      rewrite ?R; cbn -[written_to String.append String.length];
      rewrite F; cbn -[written_to String.append String.length];
      fold buffer; rewrite (Wshort H2); reflexivity.
Qed.

(** X25. A frame on which nothing happens (no detector event, no endpoint, no
    rule matching the partial result): nothing is sent, the request stays
    active, the detector and the recognizer keep the state the frame left
    them in. *)
Theorem quiet_frame
    (c : vosk_recog_channel_t) (frame : mpf_frame_t) (request : mrcp_message_t)
    (det : mpf_activity_detector_t) (rec rec1 rec2 : VoskRecognizer)
    (partial_text : string) :
  stop_response c = None ->
  recog_request c = Some request ->
  mpf_activity_detector_process (detector c) frame = (det, MPF_DETECTOR_EVENT_NONE) ->
  recognizer c = Some rec ->
  vosk_recognizer_accept_waveform rec (codec_frame frame) = (rec1, 0) ->
  vosk_recognizer_partial_result rec1 = (rec2, partial_text) ->
  prase_grammar (grammar c) partial_text = value None ->
  vosk_recog_stream_write frame c
  = mkOutcome []
      (Some (true,
             set_recognizer (Some rec2)
               (write_audio frame (set_detector det c)))).
Proof.
  intros S R D V A PR G.
  unfold vosk_recog_stream_write. frame_effects. rewrite S, R, D. cbn.
  unfold feed_recognizer, write_audio. frame_effects.
  destruct (audio_out c); cbn; rewrite V, A; cbn; rewrite PR; cbn;
    rewrite G; cbn; reflexivity.
Qed.

(** X26. A frame on which the detector reports voice activity: the first thing
    sent is a START-OF-INPUT event of the request, in progress; whatever
    else the frame sends comes after it. *)
Theorem activity_frame
    (c : vosk_recog_channel_t) (frame : mpf_frame_t) (request : mrcp_message_t)
    (det : mpf_activity_detector_t) :
  stop_response c = None ->
  recog_request c = Some request ->
  mpf_activity_detector_process (detector c) frame
    = (det, MPF_DETECTOR_EVENT_ACTIVITY) ->
  exists m rest,
    sent (vosk_recog_stream_write frame c) = channel_message_send m :: rest
    /\ message_type (start_line m) = MRCP_MESSAGE_TYPE_EVENT
    /\ method_id (start_line m) = EVENT RECOGNIZER_START_OF_INPUT
    /\ request_state (start_line m) = MRCP_REQUEST_STATE_INPROGRESS
    /\ request_id (start_line m) = request_id (start_line request)
    /\ session_id m = session_id request.
Proof.
  intros S R D.
  unfold vosk_recog_stream_write. frame_effects. rewrite S, R, D. cbn.
  unfold vosk_recog_start_of_input. frame_effects. rewrite R. cbn.
  eexists. eexists. repeat split.
Qed.

(** X27. A frame on which the detector ends the utterance (inactivity, or the
    no-input timeout with the timers started) and the recognizer returns a
    non-zero value as well: the completion of the detector is sent and
    clears the request, and the second call of
    [vosk_recog_recognition_complete] reads through the cleared request. *)
Theorem second_completion_reads_null
    (c : vosk_recog_channel_t) (frame : mpf_frame_t) (request : mrcp_message_t)
    (det : mpf_activity_detector_t) (ev : mpf_detector_event_e)
    (rec rec1 : VoskRecognizer) (r : Z) :
  stop_response c = None ->
  recog_request c = Some request ->
  mpf_activity_detector_process (detector c) frame = (det, ev) ->
  recognizer c = Some rec ->
  ev = MPF_DETECTOR_EVENT_INACTIVITY
  \/ (ev = MPF_DETECTOR_EVENT_NOINPUT /\ timers_started c = true) ->
  vosk_recognizer_accept_waveform
    match ev with
    | MPF_DETECTOR_EVENT_INACTIVITY => fst (vosk_recognizer_result rec)
    | _ => rec
    end (codec_frame frame) = (rec1, r) ->
  r <> 0 ->
  exists m,
    vosk_recog_stream_write frame c = mkOutcome [channel_message_send m] None
    /\ completion_cause_of (channel_message_send m)
       = Some match ev with
              | MPF_DETECTOR_EVENT_INACTIVITY => RECOGNIZER_COMPLETION_CAUSE_SUCCESS
              | _ => RECOGNIZER_COMPLETION_CAUSE_NO_INPUT_TIMEOUT
              end.
Proof.
  intros S R D V Hev A NZ.
  assert (Z0 : (r =? 0) = false) by (apply Z.eqb_neq; exact NZ).
  unfold vosk_recog_stream_write. frame_effects. rewrite S, R, D. cbn.
  destruct Hev as [-> | [-> T]]; cbn.
  - unfold vosk_recog_recognition_complete at 1. frame_effects.
    rewrite R, V. cbn.
    destruct (vosk_recognizer_result rec) as [rec' result]. cbn in *.
    unfold feed_recognizer, write_audio. frame_effects.
    destruct (audio_out c); cbn; rewrite A; cbn; rewrite Z0; cbn;
      eexists; split; reflexivity.
  - rewrite T. unfold vosk_recog_recognition_complete at 1. frame_effects.
    rewrite R. cbn.
    unfold feed_recognizer, write_audio. frame_effects.
    destruct (audio_out c); cbn; rewrite V, A; cbn; rewrite Z0; cbn;
      eexists; split; reflexivity.
Qed.

Lemma sent_bind {A B} (m : M A) (f : A -> M B) (c : vosk_recog_channel_t) :
  sent (bind m f c)
  = sent (m c)
    ++ match final (m c) with
       | Some (a, c') => sent (f a c')
       | None => []
       end.
Proof.
  unfold bind. cbv zeta. destruct (final (m c)) as [[a c'] | ]; cbn;
    [ reflexivity | rewrite app_nil_r; reflexivity ].
Qed.

Lemma no_input_frame_sent
    (c : vosk_recog_channel_t) (frame : mpf_frame_t) (request : mrcp_message_t)
    (det : mpf_activity_detector_t) :
  stop_response c = None ->
  recog_request c = Some request ->
  timers_started c = true ->
  mpf_activity_detector_process (detector c) frame
    = (det, MPF_DETECTOR_EVENT_NOINPUT) ->
  exists m rest,
    sent (vosk_recog_stream_write frame c) = channel_message_send m :: rest
    /\ completion_cause_of (channel_message_send m)
       = Some RECOGNIZER_COMPLETION_CAUSE_NO_INPUT_TIMEOUT
    /\ request_id (start_line m) = request_id (start_line request)
    /\ body m = ""%string.
Proof.
  intros S R T D.
  unfold vosk_recog_stream_write. frame_effects. rewrite S, R, D. cbn.
  rewrite T. unfold vosk_recog_recognition_complete at 1. frame_effects.
  rewrite R. cbn.
  eexists. eexists. repeat split.
Qed.

(** X28. A START-INPUT-TIMERS request arms a recognition whatever the timers
    flag was: the request is answered, and the next frame on which the
    detector reports the no-input timeout sends a RECOGNITION-COMPLETE event
    of the active request with the cause no-input-timeout. *)
Theorem timers_start_arms_no_input
    (c : vosk_recog_channel_t) (start frame_request : mrcp_message_t)
    (frame : mpf_frame_t) (det : mpf_activity_detector_t) :
  method_id (start_line start) = METHOD RECOGNIZER_START_INPUT_TIMERS ->
  stop_response c = None ->
  recog_request c = Some frame_request ->
  mpf_activity_detector_process (detector c) frame
    = (det, MPF_DETECTOR_EVENT_NOINPUT) ->
  exists m rest,
    sent (run [ task_msg (mkMsg vosk_recog_MSG_REQUEST_PROCESS (Some start));
                audio frame ] c)
    = channel_message_send (mrcp_response_create start)
      :: channel_message_send m :: rest
    /\ completion_cause_of (channel_message_send m)
       = Some RECOGNIZER_COMPLETION_CAUSE_NO_INPUT_TIMEOUT
    /\ request_id (start_line m) = request_id (start_line frame_request)
    /\ body m = ""%string.
Proof.
  intros M S R D. cbn [run handle].
  assert (E : vosk_recog_msg_process
                (mkMsg vosk_recog_MSG_REQUEST_PROCESS (Some start)) c
              = mkOutcome [channel_message_send (mrcp_response_create start)]
                          (Some (true, set_timers_started true c))).
  { unfold vosk_recog_msg_process; cbn [msg_type msg_request].
    unfold vosk_recog_channel_request_dispatch. rewrite M. reflexivity. }
  destruct (no_input_frame_sent (set_timers_started true c) frame frame_request
              det S R eq_refl D) as [m [rest [Hs Hm]]].
  rewrite sent_bind, E. cbn [sent final]. rewrite sent_bind, Hs.
  eexists. eexists. split; [ reflexivity | exact Hm ].
Qed.

End FrameFacts.

Section CloseFacts.

Import Vosk.
Context {L : Collaborators}.

(** X29. A CLOSE message is acknowledged once, closes the utterance file
    and frees the recognizer, and leaves the active request in place: a
    frame that then arrives is neither written nor fed, and if the detector
    reports inactivity on it, the completion asks the freed recognizer for
    its result and reads through null, with nothing sent. *)
Theorem close_leaves_request_active
    (c : vosk_recog_channel_t) (frame : mpf_frame_t) (request : mrcp_message_t)
    (det : mpf_activity_detector_t) :
  stop_response c = None ->
  recog_request c = Some request ->
  mpf_activity_detector_process (detector c) frame
    = (det, MPF_DETECTOR_EVENT_INACTIVITY) ->
  vosk_recog_msg_process (mkMsg vosk_recog_MSG_CLOSE_CHANNEL None) c
  = mkOutcome [channel_close_respond]
              (Some (true, set_recognizer None (set_audio_out None c)))
  /\ run [ task_msg (mkMsg vosk_recog_MSG_CLOSE_CHANNEL None); audio frame ] c
     = mkOutcome [channel_close_respond] None.
Proof.
  intros S R D. split; [ reflexivity | ].
  cbn [run handle].
  unfold vosk_recog_msg_process; cbn [msg_type].
  unfold vosk_recog_stream_write, vosk_recog_recognition_complete,
    mrcp_engine_channel_message_send, bind, ret, get, modify, send,
    null_dereference, buffer_overflow; cbn.
  rewrite S, R, D. cbn.
  unfold vosk_recog_recognition_complete,
    mrcp_engine_channel_message_send, bind, ret, get, modify, send,
    null_dereference, buffer_overflow; cbn.
  rewrite R. reflexivity.
Qed.

End CloseFacts.

(** The further properties, on the counting library and on the scripted
    collaborators. *)

Section FurtherRuns.

Import Vosk Scenario.
#[local] Existing Instance Scripted.scripted_lib.

(** Five bytes give the two samples of the first four, 1 and -1, whatever
    the fifth byte is. *)
Lemma wave_of_whole_samples_witness :
  @Kaldi.wave_of CountingKaldi.counting_lib [1; 0; 255; 255; 7] 5
  = (2, [(1, -1); (0, 1)])
  /\ @Kaldi.wave_of CountingKaldi.counting_lib [1; 0; 255; 255; 7] 5
     = @Kaldi.wave_of CountingKaldi.counting_lib [1; 0; 255; 255] 5
  /\ @Kaldi.wave_of CountingKaldi.counting_lib [1; 0; 255; 255; 7] 4
     = @Kaldi.wave_of CountingKaldi.counting_lib [1; 0; 255; 255; 7] 5.
Proof.
  split; [ reflexivity | ].
  assert (same : forall k, (k < 2 * Z.to_nat (Z.quot 5 2))%nat ->
                   nth k [1; 0; 255; 255; 7] 0 = nth k [1; 0; 255; 255] 0).
  { intros k Hk. change (k < 4)%nat in Hk.
    do 4 (destruct k as [ | k ]; [ reflexivity | ]). lia. }
  split.
  - apply (proj1 (@wave_of_whole_samples CountingKaldi.counting_lib
                    [1; 0; 255; 255; 7] [1; 0; 255; 255] 5 same)).
  - apply (proj2 (@wave_of_whole_samples CountingKaldi.counting_lib
                    [1; 0; 255; 255; 7] [1; 0; 255; 255] 5 same)).
Defined.

(** The bytes 255, 255 are the sample -1. *)
Lemma short_at_decodes_witness : Kaldi.short_at [255; 255] 0 = -1.
Proof.
  apply (short_at_decodes [255; 255] 0 (-1)); [ lia | reflexivity | reflexivity ].
Defined.

(** The final result of a recognizer that was given no audio. *)
Lemma Result_text_witness :
  snd (Kaldi.Result CountingKaldi.fresh)
  = cat [ "{"; dq; "result"; dq; " : [ "; " ], "; dq; "text"; dq; " : ";
          dq; dq; " }" ]%string.
Proof.
  apply (proj2 (Result_text CountingKaldi.fresh)). reflexivity.
Defined.

(** An engine whose model could not be loaded. *)
Lemma plugin_create_needs_task_only_witness :
  Engine.task (Engine.mkEngine (Some 7) None) = Some 7
  /\ Engine.model (Engine.mkEngine (Some 7) None) = None
  /\ (Engine.model (Engine.mkEngine (Some 7) None) = None ->
      fst (Engine.vosk_recog_engine_destroy (Engine.mkEngine (Some 7) None))
      = [Engine.apt_task_destroy 7]).
Proof.
  apply (proj2 (plugin_create_needs_task_only (Some 7) (fun _ => None))
               (Engine.mkEngine (Some 7) None)).
  reflexivity.
Defined.

(** Of two [id] attributes, the second gives the identifier. *)
Lemma rule_id_last_wins_witness :
  rule_id [ mkAttr "id" "a"; mkAttr "ID" "b"; mkAttr "scope" "public" ]
  = Some "b"%string.
Proof.
  apply (proj1 (rule_id_last_wins [ mkAttr "id" "a" ]
                  [ mkAttr "scope" "public" ] (mkAttr "ID" "b")));
    [ reflexivity | repeat constructor ].
Defined.

(** The partial result holds the word no: the first item of the rule is
    passed over and the second matches. *)
Lemma first_matching_rule_wins_witness :
  prase_grammar (Some Scripted.yes_no) "{ partial : no }"
  = value (Some "answer"%string).
Proof.
  refine (first_matching_rule_wins "{ partial : no }" "grammar" [] None
            [] [] [ item "yes" ] [] (rule "answer" [ item "yes"; item "no" ])
            (item "no") "no"
            [ (Scripted.lit "n", false); (Scripted.lit "o", false);
              (Scripted.any, false) ]
            (12, 15) _ _ _ _ _ _ _ _);
    try (vm_compute; reflexivity); try (vm_compute; discriminate).
  - apply Forall_nil.
  - apply Forall_cons; [ | apply Forall_nil ]. right.
    exists "yes"%string, "yes."%string,
      [ (Scripted.lit "y", false); (Scripted.lit "e", false);
        (Scripted.lit "s", false); (Scripted.any, false) ].
    repeat split; vm_compute; reflexivity.
Defined.

(** The first rule has a pattern that does not compile: the second rule,
    which matches, is not reached.  The first rule has an item of 23
    characters: the matcher writes past the block of its pattern. *)
Lemma pattern_error_ends_search_witness :
  prase_grammar (Some grammar_with_bad_pattern) "{ partial : yes }"
  = value None
  /\ prase_grammar (Some grammar_with_long_item) "{ partial : yes }"
     = overflow.
Proof.
  split.
  - refine (proj1 (pattern_error_ends_search "{ partial : yes }" "grammar" []
                     None [] [ rule "second" [ item "yes" ] ] [] []
                     (rule "first" [ item "(" ]) (item "(") "(" _ _ _ _ _)
                  _ _);
      try (vm_compute; reflexivity); try (vm_compute; discriminate);
      apply Forall_nil.
  - refine (proj2 (pattern_error_ends_search "{ partial : yes }" "grammar" []
                     None [] [ rule "second" [ item "yes" ] ] [] []
                     (rule "first" [ item "twenty-three characters" ])
                     (item "twenty-three characters")
                     "twenty-three characters" _ _ _ _ _)
                  _);
      try (vm_compute; reflexivity); apply Forall_nil.
Defined.

(** The identifier found for the word yes is the one of the rule. *)
Lemma matched_id_has_matching_rule_witness :
  exists elem,
    In elem
       (elem_children
          (mkElem "grammar" [] None
             [ rule "answer" [ item "yes"; item "no" ] ]))
    /\ rule_id (elem_attr elem) = Some "answer"%string.
Proof.
  assert (H : prase_grammar (Some Scripted.yes_no) "{ partial : yes }"
              = value (Some "answer"%string)) by (vm_compute; reflexivity).
  destruct (matched_id_has_matching_rule _ _ _ H)
    as [d [r [elem [child [text [reg [span
         [Hd [Hr [Hin [_ [Hid _]]]]]]]]]]]].
  injection Hd as <-. injection Hr as <-.
  exists elem. split; [ exact Hin | exact Hid ].
Defined.

(** No item of the grammar matches the word maybe. *)
Lemma no_rule_matches_witness :
  prase_grammar (Some Scripted.yes_no) "{ partial : maybe }" = value None.
Proof.
  refine (no_rule_matches "grammar" "{ partial : maybe }" [] None
            [ rule "answer" [ item "yes"; item "no" ] ] _).
  apply Forall_cons; [ | apply Forall_nil ]. right.
  apply Forall_cons; [ | apply Forall_cons; [ | apply Forall_nil ] ]; right.
  - exists "yes"%string, "yes."%string,
      [ (Scripted.lit "y", false); (Scripted.lit "e", false);
        (Scripted.lit "s", false); (Scripted.any, false) ].
    repeat split; vm_compute; reflexivity.
  - exists "no"%string, "no."%string,
      [ (Scripted.lit "n", false); (Scripted.lit "o", false);
        (Scripted.any, false) ].
    repeat split; vm_compute; reflexivity.
Defined.

(** Two frames on a created channel. *)
Lemma idle_channel_drops_frames_witness :
  run (map audio [frame0; frame0]) (channel [] silent)
  = mkOutcome [] (Some (tt, channel [] silent)).
Proof.
  apply (idle_channel_drops_frames [frame0; frame0] (channel [] silent));
    reflexivity.
Defined.

(** RECOGNIZE on a channel without a codec descriptor. *)
Lemma recognize_without_codec_witness :
  vosk_recog_channel_request_dispatch recognize_request channel_without_codec
  = mkOutcome
      [channel_message_send
         (set_status_code MRCP_STATUS_CODE_METHOD_FAILED
                          (mrcp_response_create recognize_request))]
      (Some (true, channel_without_codec)).
Proof.
  apply (recognize_without_codec channel_without_codec recognize_request);
    reflexivity.
Defined.

(** A SET-PARAMS request is answered at once. *)
Lemma dispatch_sends_one_response_witness :
  exists r c',
    vosk_recog_channel_request_dispatch set_params_request (channel [] silent)
    = mkOutcome [channel_message_send r] (Some (true, c'))
    /\ is_response (channel_message_send r) = true.
Proof.
  apply (dispatch_sends_one_response (channel [] silent) set_params_request);
    discriminate.
Defined.

(** A second RECOGNIZE, after the first utterance was ended by the
    detector: the recognizer and the file with the first frame are kept. *)
Lemma recognize_reuses_recognizer_and_file_witness :
  exists c',
    vosk_recog_channel_request_dispatch recognize_request
      (after [ audio frame0 ]
             (recognizing [MPF_DETECTOR_EVENT_INACTIVITY] silent
                          recognize_request))
    = mkOutcome
        [channel_message_send
           (set_request_state MRCP_REQUEST_STATE_INPROGRESS
                              (mrcp_response_create recognize_request))]
        (Some (true, c'))
    /\ recog_request c' = Some recognize_request
    /\ recognizer c' = Some silent
    /\ audio_out c' = Some (mkFile "var/utter-8kHz-0a1b2c.pcm" [0; 0; 0; 0])
    /\ grammar c' = Some Scripted.yes_no
    /\ stop_response c' = None.
Proof.
  apply (recognize_reuses_recognizer_and_file
           (after [ audio frame0 ]
                  (recognizing [MPF_DETECTOR_EVENT_INACTIVITY] silent
                               recognize_request))
           recognize_request codec silent
           (mkFile "var/utter-8kHz-0a1b2c.pcm" [0; 0; 0; 0]));
    vm_compute; reflexivity.
Defined.

(** Two STOP requests and a frame, during a recognition. *)
Lemma second_stop_replaces_first_witness :
  sent (run [ request_process stop_request;
              request_process second_stop_request; audio frame0 ]
            (recognizing [] silent recognize_request))
  = [channel_message_send (mrcp_response_create second_stop_request)].
Proof.
  unfold request_process.
  rewrite (second_stop_replaces_first
             (recognizing [] silent recognize_request)
             stop_request second_stop_request frame0 eq_refl eq_refl).
  reflexivity.
Defined.

(** The grammar with the words yes and no is parsed, accepted and stored. *)
Lemma define_grammar_stores_document_witness :
  vosk_recog_channel_request_dispatch define_grammar_request (channel [] silent)
  = mkOutcome
      [channel_message_send (mrcp_response_create define_grammar_request)]
      (Some (true, set_grammar (Some Scripted.yes_no) (channel [] silent))).
Proof.
  destruct (Scripted.compile grammar_pattern) as [reg | ] eqn:C;
    [ | vm_compute in C; discriminate ].
  apply (define_grammar_stores_document (channel [] silent)
           define_grammar_request reg 0 75 ""%string Scripted.yes_no_text
           Scripted.yes_no);
    try reflexivity; try exact C.
  vm_compute in C. injection C as <-. vm_compute. reflexivity.
Defined.

(** The request with the body [hello] returns false and sends nothing. *)
Lemma define_grammar_touches_grammar_only_witness :
  exists b c',
    vosk_recog_channel_request_dispatch define_grammar_hello (channel [] silent)
    = mkOutcome
        (if b : bool
         then [channel_message_send (mrcp_response_create define_grammar_hello)]
         else [])
        (Some (b, c'))
    /\ (b = true -> check_grammar (grammar c') = true)
    /\ recog_request c' = recog_request (channel [] silent)
    /\ stop_response c' = stop_response (channel [] silent)
    /\ timers_started c' = timers_started (channel [] silent)
    /\ detector c' = detector (channel [] silent)
    /\ audio_out c' = audio_out (channel [] silent)
    /\ recognizer c' = recognizer (channel [] silent)
    /\ sink_stream_codec c' = sink_stream_codec (channel [] silent)
    /\ engine_model c' = engine_model (channel [] silent).
Proof.
  apply (define_grammar_touches_grammar_only (channel [] silent)
           define_grammar_hello).
  reflexivity.
Defined.

(** Three frames of a recognition: voice activity, inactivity, and a frame
    after the completion. *)
Lemma frames_leave_configuration_witness :
  grammar
    (after (map audio [frame0; frame0; frame0])
       (recognizing [MPF_DETECTOR_EVENT_ACTIVITY; MPF_DETECTOR_EVENT_INACTIVITY]
                    silent recognize_request))
  = Some Scripted.yes_no.
Proof.
  apply (frames_leave_configuration [frame0; frame0; frame0]
           (recognizing [MPF_DETECTOR_EVENT_ACTIVITY; MPF_DETECTOR_EVENT_INACTIVITY]
                        silent recognize_request)
           (after (map audio [frame0; frame0; frame0])
              (recognizing
                 [MPF_DETECTOR_EVENT_ACTIVITY; MPF_DETECTOR_EVENT_INACTIVITY]
                 silent recognize_request))
           tt).
  vm_compute. reflexivity.
Defined.

(** The frame on which the detector ends the utterance is written too. *)
Lemma frame_is_appended_witness :
  audio_out
    (after [ audio frame0 ]
       (recognizing [MPF_DETECTOR_EVENT_INACTIVITY] silent recognize_request))
  = Some (mkFile "var/utter-8kHz-0a1b2c.pcm" ([] ++ codec_frame frame0)).
Proof.
  apply (frame_is_appended
           (recognizing [MPF_DETECTOR_EVENT_INACTIVITY] silent recognize_request)
           (after [ audio frame0 ]
              (recognizing [MPF_DETECTOR_EVENT_INACTIVITY] silent
                           recognize_request))
           frame0 recognize_request
           (mkFile "var/utter-8kHz-0a1b2c.pcm" []) true);
    vm_compute; reflexivity.
Defined.

(** A recognition in progress after two frames. *)
Lemma active_request_has_recognizer_witness :
  recognizer
    (after [ request_process define_grammar_request;
             request_process recognize_request; audio frame0; audio frame0 ]
           (channel [] silent)) <> None.
Proof.
  apply (active_request_has_recognizer
           [ request_process define_grammar_request;
             request_process recognize_request; audio frame0; audio frame0 ]
           (channel [] silent)
           (after [ request_process define_grammar_request;
                    request_process recognize_request;
                    audio frame0; audio frame0 ]
                  (channel [] silent))
           tt).
  - intros H. contradiction H. reflexivity.
  - repeat constructor.
  - vm_compute. reflexivity.
  - vm_compute. discriminate.
Defined.

(** The recognizer reports an endpoint on the first frame. *)
Lemma endpoint_frame_witness :
  exists m,
    sent (vosk_recog_stream_write frame0
            (recognizing [] heard_no recognize_request))
    = [channel_message_send m]
    /\ body m = "<result>no</result>"%string.
Proof.
  destruct (endpoint_frame (recognizing [] heard_no recognize_request) frame0
              recognize_request [] heard_no
              (Scripted.mkRec [] "" "<result>no</result>")
              (Scripted.mkRec [] "" "<result>no</result>")
              1 "<result>no</result>")
    as [m [c' [E [_ [B _]]]]];
    try (vm_compute; reflexivity).
  - discriminate.
  - exists m. rewrite E. split; [ reflexivity | exact B ].
Defined.

(** The partial result holds the word yes, which the grammar knows.  With
    the identifier [answer] the buffers are inside their blocks; with an
    identifier of 3 characters the first is not. *)
Lemma early_termination_frame_witness :
  (exists m,
     sent (vosk_recog_stream_write frame0
             (recognizing [] hears_yes recognize_request))
     = [channel_message_send m]
     /\ body m = "<result>yes</result><earlyres>answer</earlyres>"%string)
  /\ vosk_recog_stream_write frame0
       (set_grammar (Some grammar_with_short_id)
          (recognizing [] hears_yes recognize_request))
     = mkOutcome [] None.
Proof.
  split.
  - destruct (proj1 (early_termination_frame
                (recognizing [] hears_yes recognize_request) frame0
                recognize_request [] hears_yes hears_yes hears_yes hears_yes
                "{ partial : yes }" "answer" "<result>yes</result>"
                eq_refl eq_refl eq_refl eq_refl eq_refl eq_refl eq_refl
                eq_refl))
      as [m [c' [E [_ [B _]]]]];
      try (vm_compute; discriminate).
    exists m. rewrite E. split; [ reflexivity | exact B ].
  - apply (proj1 (proj2 (early_termination_frame
                (set_grammar (Some grammar_with_short_id)
                   (recognizing [] hears_yes recognize_request)) frame0
                recognize_request [] hears_yes hears_yes hears_yes hears_yes
                "{ partial : yes }" "yes" "<result>yes</result>"
                eq_refl eq_refl eq_refl eq_refl eq_refl eq_refl eq_refl
                eq_refl))).
    vm_compute. reflexivity.
Defined.

(** A silent frame of a recognition. *)
Lemma quiet_frame_witness :
  sent (vosk_recog_stream_write frame0
          (recognizing [] silent recognize_request)) = []
  /\ recog_request
       (after [ audio frame0 ] (recognizing [] silent recognize_request))
     = Some recognize_request.
Proof.
  rewrite (quiet_frame (recognizing [] silent recognize_request) frame0
             recognize_request [] silent silent silent ""%string);
    try (vm_compute; reflexivity).
  split; [ reflexivity | ].
  unfold after. cbn [run handle].
  unfold bind at 1.
  rewrite (quiet_frame (recognizing [] silent recognize_request) frame0
             recognize_request [] silent silent silent ""%string);
    try (vm_compute; reflexivity).
Defined.

(** The detector reports voice activity. *)
Lemma activity_frame_witness :
  exists m rest,
    sent (vosk_recog_stream_write frame0
            (recognizing [MPF_DETECTOR_EVENT_ACTIVITY] silent recognize_request))
    = channel_message_send m :: rest
    /\ method_id (start_line m) = EVENT RECOGNIZER_START_OF_INPUT.
Proof.
  destruct (activity_frame
              (recognizing [MPF_DETECTOR_EVENT_ACTIVITY] silent recognize_request)
              frame0 recognize_request [])
    as [m [rest [E [_ [H _]]]]];
    try (vm_compute; reflexivity).
  exists m, rest. split; [ exact E | exact H ].
Defined.

(** The no-input timeout, with the timers started, on the frame on which
    the recognizer reports an endpoint. *)
Lemma second_completion_reads_null_witness :
  exists m,
    vosk_recog_stream_write frame0
      (recognizing [MPF_DETECTOR_EVENT_NOINPUT] endpoint_at_once
                   recognize_request)
    = mkOutcome [channel_message_send m] None.
Proof.
  destruct (second_completion_reads_null
              (recognizing [MPF_DETECTOR_EVENT_NOINPUT] endpoint_at_once
                           recognize_request)
              frame0 recognize_request [] MPF_DETECTOR_EVENT_NOINPUT
              endpoint_at_once (Scripted.mkRec [] "" "<result/>") 1)
    as [m [E _]];
    try (vm_compute; reflexivity).
  - right. split; vm_compute; reflexivity.
  - discriminate.
  - exists m. exact E.
Defined.

(** A recognition started with [Start-Input-Timers: false], armed later. *)
Lemma timers_start_arms_no_input_witness :
  exists m rest,
    sent (run [ request_process start_timers_request; audio frame0 ]
              (recognizing [MPF_DETECTOR_EVENT_NOINPUT] silent
                           recognize_without_timers))
    = channel_message_send (mrcp_response_create start_timers_request)
      :: channel_message_send m :: rest
    /\ completion_cause_of (channel_message_send m)
       = Some RECOGNIZER_COMPLETION_CAUSE_NO_INPUT_TIMEOUT.
Proof.
  destruct (timers_start_arms_no_input
              (recognizing [MPF_DETECTOR_EVENT_NOINPUT] silent
                           recognize_without_timers)
              start_timers_request recognize_without_timers frame0 [])
    as [m [rest [E [H _]]]];
    try (vm_compute; reflexivity).
  exists m, rest. split; [ exact E | exact H ].
Defined.

(** CLOSE during a recognition, then a frame on which the detector reports
    inactivity. *)
Lemma close_leaves_request_active_witness :
  run [ task_msg (mkMsg vosk_recog_MSG_CLOSE_CHANNEL None); audio frame0 ]
      (recognizing [MPF_DETECTOR_EVENT_INACTIVITY] silent recognize_request)
  = mkOutcome [channel_close_respond] None.
Proof.
  apply (close_leaves_request_active
           (recognizing [MPF_DETECTOR_EVENT_INACTIVITY] silent recognize_request)
           frame0 recognize_request []);
    vm_compute; reflexivity.
Defined.

End FurtherRuns.
